(** * IMS to TIF converters: a shallow embedding and its specification

    The development follows the Python sources file by file:
    - [Py]: the facts of Python the scripts rely on (exceptions, list
      indexing with negative positions, [str] and [repr], f-string padding);
    - [Np]: dense arrays as numpy holds them (shape and row-major data);
    - [H5]: the tree of groups and datasets h5py exposes;
    - [Ims2tif], [Smart], [Advanced], [Recursive]: the converter classes of
      [ims2tif.py], [smart_converter.py], [advanced_converter.py] and
      [recursive_converter.py];
    - [RecursiveConverter], [Universal], [Cli]: the methods around the batch
      loop of [recursive_converter.py], [convert_directory] of
      [universal_converter.py], and [main] of [ims2tif.py].

    Effects are explicit: a computation takes the world (files, encoder
    calls, console) and returns a value or an exception together with the
    world it leaves.  Pixel values and thresholds are integers.  Library
    calls whose outcome depends on the machine (path arithmetic, creating a
    directory, encoding an array) are fields of a [platform]. *)

From Stdlib Require Import QArith Ascii String.
From stdpp Require Import strings pretty list sorting gmap.

Local Open Scope Z_scope.

(** ** Python values and exceptions *)

Module Py.

(** The exceptions the scripts can meet.  Every one of them is an
    [Exception]: the handlers [except Exception] catch them all. *)
Inductive exn :=
  | ValueError (msg : string)
  | IndexError (msg : string)
  | KeyError (msg : string)
  | TypeError (msg : string)
  | AttributeError (msg : string)
  | UnboundLocalError (msg : string)
  | OSError (msg : string).

Inductive result (A : Type) :=
  | Ok (a : A)
  | Raise (e : exn).
Arguments Ok {A} a.
Arguments Raise {A} e.

(** Sequencing of steps that may raise. *)
Definition and_then {A B} (r : result A) (k : A → result B) : result B :=
  match r with
  | Ok a => k a
  | Raise e => Raise e
  end.

Declare Scope result_scope.
Delimit Scope result_scope with res.
Notation "x <- r ;; k" := (and_then r (λ x, k))
  (at level 100, r at next level, right associativity) : result_scope.

(** [str(n)] of an [int], as f-strings render it. *)
Definition str_int (n : Z) : string := pretty n.

Definition squote : ascii := "'"%char.
Definition dquote : ascii := "034"%char.
Definition backslash : ascii := "\"%char.

Fixpoint occurs (c : ascii) (s : string) : bool :=
  match s with
  | EmptyString => false
  | String c' s' => bool_decide (c = c') || occurs c s'
  end.

Fixpoint escape (q : ascii) (s : string) : string :=
  match s with
  | EmptyString => EmptyString
  | String c s' =>
      if bool_decide (c = q) || bool_decide (c = backslash)
      then String backslash (String c (escape q s'))
      else String c (escape q s')
  end.

(** [repr] of a [str] of printable ASCII characters: single quotes, unless
    the text holds a single quote and no double quote. *)
Definition repr_str (s : string) : string :=
  let q := if occurs squote s && negb (occurs dquote s)
           then dquote else squote in
  String q (escape q s +:+ String q EmptyString).

(** [str(e)] as the handlers print it. *)
Definition str_exn (e : exn) : string :=
  match e with
  | ValueError m | IndexError m | TypeError m | AttributeError m
  | UnboundLocalError m | OSError m => m
  | KeyError m => repr_str m
  end.

Fixpoint join (sep : string) (l : list string) : string :=
  match l with
  | [] => ""
  | [s] => s
  | s :: l' => s +:+ sep +:+ join sep l'
  end.

(** [repr] of a list of strings, as [f"{keys}"] prints it. *)
Definition repr_list (l : list string) : string :=
  "[" +:+ join ", " (repr_str <$> l) +:+ "]".

(** [repr] of a tuple of ints (an array shape). *)
Definition repr_shape (sh : list nat) : string :=
  match sh with
  | [d] => "(" +:+ pretty d +:+ ",)"
  | _ => "(" +:+ join ", " (pretty <$> sh) +:+ ")"
  end.

(** [l[i]] on a list: positions count from the end when [i] is negative. *)
Definition index {A} (l : list A) (i : Z) : result A :=
  let n := Z.of_nat (length l) in
  let pos := if bool_decide (i < 0) then n + i else i in
  if bool_decide (0 ≤ pos < n) then
    match l !! Z.to_nat pos with
    | Some x => Ok x
    | None => Raise (IndexError "list index out of range")
    end
  else Raise (IndexError "list index out of range").

(** [k.startswith(prefix)]. *)
Definition startswith (k prefix : string) : bool := String.prefix prefix k.

Fixpoint zeros (n : nat) : string :=
  match n with
  | O => ""
  | S n' => "0" +:+ zeros n'
  end.

(** [f"{z:03d}"] for [z] of [range]: decimal digits, zero-filled on the left
    up to width 3. *)
Definition format_03d (z : nat) : string :=
  let s := pretty z in
  zeros (3 - String.length s)%nat +:+ s.

End Py.

Import Py.

(** ** numpy arrays *)

Module Np.

(** A dense array: element type, shape, and the elements in row-major (C)
    order.  Elements are integers: the images are 8- or 16-bit. *)
Record ndarray := Ndarray {
  dtype : string;
  shape : list nat;
  data : list Z
}.

Definition product (sh : list nat) : nat := foldr Nat.mul 1%nat sh.

(** The array holds as many elements as its shape says. *)
Definition wf (a : ndarray) : Prop := length (data a) = product (shape a).

Definition ndim (a : ndarray) : nat := length (shape a).

(** [a.shape[0]]. *)
Definition shape0 (a : ndarray) : result nat :=
  match shape a with
  | d :: _ => Ok d
  | [] => Raise (IndexError "tuple index out of range")
  end.

(** The [z]-th sub-array along axis 0, for [z] in range. *)
Definition plane (a : ndarray) (z : nat) : ndarray :=
  let sz := product (tail (shape a)) in
  Ndarray (dtype a) (tail (shape a)) (take sz (drop (z * sz) (data a))).

(** [a[z]] for an [int] [z]: negative positions count from the end. *)
Definition getitem (a : ndarray) (z : Z) : result ndarray :=
  match shape a with
  | [] => Raise (IndexError
      "too many indices for array: array is 0-dimensional, but 1 were indexed")
  | d :: _ =>
      let pos := if bool_decide (z < 0) then Z.of_nat d + z else z in
      if bool_decide (0 ≤ pos < Z.of_nat d) then Ok (plane a (Z.to_nat pos))
      else Raise (IndexError ("index " +:+ str_int z +:+
             " is out of bounds for axis 0 with size " +:+ pretty d))
  end.

(** [a[idx]] for a list [idx] of positions produced by [range]: the
    sub-arrays at these positions, stacked in the order of [idx]. *)
Definition take_planes (a : ndarray) (idx : list nat) : result ndarray :=
  match shape a with
  | [] => Raise (IndexError
      "too many indices for array: array is 0-dimensional, but 1 were indexed")
  | d :: rest =>
      match list_find (λ z, d ≤ z)%nat idx with
      | Some (_, z) => Raise (IndexError ("index " +:+ pretty z +:+
             " is out of bounds for axis 0 with size " +:+ pretty d))
      | None =>
          Ok (Ndarray (dtype a) (length idx :: rest)
                (concat ((λ z, data (plane a z)) <$> idx)))
      end
  end.

(** [a.max()]. *)
Definition max (a : ndarray) : result Z :=
  match data a with
  | [] => Raise (ValueError
      "zero-size array to reduction operation maximum which has no identity")
  | x :: xs => Ok (foldl Z.max x xs)
  end.

End Np.

Import Np.

(** ** The h5py view of a container *)

Module H5.

(** A container is a tree of named groups with datasets at the leaves.  The
    members of a group are kept in the order in which h5py enumerates them;
    link names are unique within a group and hold no [/]. *)
#[warnings="-register-all"]
Inductive node :=
  | Group (members : list (string * node))
  | Dataset (arr : ndarray).

Definition missing (name : string) : exn :=
  KeyError ("Unable to open object (object '" +:+ name +:+ "' doesn't exist)").

(** [list(g.keys())]. *)
Definition keys (g : node) : result (list string) :=
  match g with
  | Group ms => Ok (ms.*1)
  | Dataset _ => Raise (AttributeError "'Dataset' object has no attribute 'keys'")
  end.

(** [k in g].  On a dataset the test is not a membership test on names; it
    is modelled as a [TypeError]. *)
Definition contains (g : node) (k : string) : result bool :=
  match g with
  | Group ms => Ok (bool_decide (k ∈ ms.*1))
  | Dataset _ => Raise (TypeError "argument is not a group")
  end.

(** One step of a path: the member named [k]. *)
Definition child (g : node) (k : string) : result node :=
  match g with
  | Group ms =>
      match list_find (λ m, m.1 = k) ms with
      | Some (_, m) => Ok m.2
      | None => Raise (missing k)
      end
  | Dataset _ => Raise (missing k)
  end.

(** [f["a/b/c"]], the path given by its components. *)
Fixpoint getitem (g : node) (path : list string) : result node :=
  match path with
  | [] => Ok g
  | k :: path' =>
      (n <- child g k ;; getitem n path')%res
  end.

(** [d[:]]: the whole dataset read into memory. *)
Definition read (d : node) : result ndarray :=
  match d with
  | Dataset a =>
      match shape a with
      | [] => Raise (ValueError "Illegal slicing argument for scalar dataspace")
      | _ => Ok a
      end
  | Group _ =>
      Raise (TypeError "Accessing a group is done with bytes or str, not <class 'slice'>")
  end.

End H5.

(** ** Files, the encoder and the console *)

(** Values of the metadata dictionary handed to the encoder. *)
#[warnings="-register-all"]
Inductive value :=
  | VStr (s : string)
  | VFloat (x : Q)
  | VDict (items : list (string * value)).

(** The keyword arguments of [tifffile.imwrite]. *)
Record tif_options := TifOptions {
  metadata : option (list (string * value));
  compression : option string;
  predictor : bool
}.

Definition plain_options : tif_options := TifOptions None None false.

Record tif := Tif { pixels : ndarray; options : tif_options }.

Inductive file :=
  | ImsFile (root : H5.node)
  | TifFile (t : tif)
  | OtherFile.

(** What a run can observe and change: the files by path, the encoder calls
    that went through, in order, and the lines printed. *)
Record world := World {
  fs : gmap string file;
  written : list (string * tif);
  stdout : list string
}.

(** The library functions the scripts call and whose results depend on the
    platform: path arithmetic ([os.path], [pathlib]), whether a directory
    can be created, whether the encoder takes an array, and the printed
    form of the metadata dictionary of [read_ims_metadata]. *)
Record platform := Platform {
  os_path_dirname : string → string;
  path_stem : string → string;
  path_parent : string → string;
  path_name : string → string;
  path_join : string → string → string;
  path_with_suffix : string → string → string;
  makedirs_ok : string → bool;
  imwrite_ok : string → ndarray → tif_options → bool;
  repr_metadata : H5.node → string
}.

(** Computations: a state over [world] with exceptions. *)
Definition M (A : Type) : Type := world → result A * world.

Definition ret {A} (a : A) : M A := λ w, (Ok a, w).

Definition bind {A B} (m : M A) (k : A → M B) : M B :=
  λ w, match m w with
       | (Ok a, w') => k a w'
       | (Raise e, w') => (Raise e, w')
       end.

Definition raise {A} (e : exn) : M A := λ w, (Raise e, w).

Definition lift {A} (r : result A) : M A := λ w, (r, w).

(** [try: m  except Exception as e: h e]. *)
Definition try_except {A} (m : M A) (h : exn → M A) : M A :=
  λ w, match m w with
       | (Ok a, w') => (Ok a, w')
       | (Raise e, w') => h e w'
       end.

Declare Scope py_scope.
Delimit Scope py_scope with py.
Notation "x <- m ;; k" := (bind m (λ x, k))
  (at level 100, m at next level, right associativity) : py_scope.
Notation "m ;; k" := (bind m (λ _, k))
  (at level 100, right associativity) : py_scope.
Local Open Scope py_scope.

Definition print (s : string) : M unit :=
  λ w, (Ok tt, World (fs w) (written w) (stdout w ++ [s])).

(** [h5py.File(path, 'r')]: the root group of the container at [path]. *)
Definition h5_open (path : string) : M H5.node :=
  λ w, match fs w !! path with
       | Some (ImsFile root) => (Ok root, w)
       | Some _ => (Raise (OSError
           ("Unable to open file (file signature not found): " +:+ path)), w)
       | None => (Raise (OSError
           ("[Errno 2] Unable to open file (unable to open file: name = '" +:+
            path +:+ "')")), w)
       end.

(** [Path(p).exists()]. *)
Definition path_exists (path : string) : M bool :=
  λ w, (Ok (bool_decide (is_Some (fs w !! path))), w).

Section Collaborators.

Context (P : platform).

(** [os.makedirs(d, exist_ok=True)]; the empty path is refused. *)
Definition makedirs (d : string) : M unit :=
  if bool_decide (d = "") then
    raise (OSError "[Errno 2] No such file or directory: ''")
  else if makedirs_ok P d then ret tt
  else raise (OSError ("[Errno 13] Permission denied: " +:+ repr_str d)).

(** [tifffile.imwrite(path, a, **opts)]. *)
Definition imwrite (path : string) (a : ndarray) (opts : tif_options)
    : M unit :=
  if imwrite_ok P path a opts then
    λ w, (Ok tt, World (<[path := TifFile (Tif a opts)]> (fs w))
                       (written w ++ [(path, Tif a opts)]) (stdout w))
  else raise (OSError ("cannot write " +:+ path)).

End Collaborators.

(** ** [ims2tif.py]: class [IMS2TIFConverter] *)

Module Ims2tif.

(** Lines 128-138: the timepoint named by the selector, else the timepoint
    at that position; the first one when no selector is given. *)
Definition select_timepoint (timepoint_keys : list string)
    (timepoint : option Z) : result string :=
  match timepoint with
  | Some n =>
      let target_tp := "TimePoint " +:+ str_int n in
      if bool_decide (target_tp ∈ timepoint_keys) then Ok target_tp
      else if bool_decide (n < Z.of_nat (length timepoint_keys)) then
        index timepoint_keys n
      else Raise (ValueError ("Timepoint " +:+ str_int n +:+
             " not available. Available: " +:+ repr_list timepoint_keys))
  | None => index timepoint_keys 0
  end.

(** Lines 156-166: the same for the channel. *)
Definition select_channel (channel_keys : list string)
    (channel : option Z) : result string :=
  match channel with
  | Some n =>
      let target_ch := "Channel " +:+ str_int n in
      if bool_decide (target_ch ∈ channel_keys) then Ok target_ch
      else if bool_decide (n < Z.of_nat (length channel_keys)) then
        index channel_keys n
      else Raise (ValueError ("Channel " +:+ str_int n +:+
             " not available. Available: " +:+ repr_list channel_keys))
  | None => index channel_keys 0
  end.

(** Lines 180-183: the Z slice selection. *)
Definition select_z_slice (image_data : ndarray) (z_slice : option Z)
    : result ndarray :=
  match z_slice with
  | Some z =>
      if bool_decide (3 ≤ ndim image_data)%nat then
        (d <- shape0 image_data ;;
         if bool_decide (Z.of_nat d ≤ z) then
           Raise (ValueError ("Z slice " +:+ str_int z +:+
             " not available. Max: " +:+ str_int (Z.of_nat d - 1)))
         else getitem image_data z)%res
      else Ok image_data
  | None => Ok image_data
  end.

(** Lines 104-171: from the open container to the path of the dataset that
    holds the pixels. *)
Definition locate (f : H5.node) (channel timepoint : option Z)
    : result (list string) :=
  (dataset <- H5.getitem f ["DataSet"] ;;
   dataset_keys <- H5.keys dataset ;;
   let resolution_levels :=
     filter (λ k, startswith k "ResolutionLevel") dataset_keys in
   if bool_decide (resolution_levels = []) then
     Raise (ValueError "No resolution levels found in IMS file")
   else
   let res_level_path := ["DataSet"; "ResolutionLevel 0"] in
   found <- H5.contains dataset "ResolutionLevel 0" ;;
   if negb found then Raise (ValueError "ResolutionLevel 0 not found") else
   res_level <- H5.getitem f res_level_path ;;
   res_level_keys <- H5.keys res_level ;;
   let timepoint_keys :=
     filter (λ k, startswith k "TimePoint") res_level_keys in
   if bool_decide (timepoint_keys = []) then
     Raise (ValueError "No TimePoint data found")
   else
   tp_key <- select_timepoint timepoint_keys timepoint ;;
   let tp_path := res_level_path ++ [tp_key] in
   found <- H5.contains res_level tp_key ;;
   if negb found then
     Raise (ValueError ("TimePoint " +:+ tp_key +:+ " not found"))
   else
   tp_group <- H5.getitem f tp_path ;;
   tp_group_keys <- H5.keys tp_group ;;
   let channel_keys := filter (λ k, startswith k "Channel") tp_group_keys in
   if bool_decide (channel_keys = []) then
     Raise (ValueError "No Channel data found")
   else
   ch_key <- select_channel channel_keys channel ;;
   let data_path := tp_path ++ [ch_key; "Data"] in
   ch_group <- H5.getitem f (tp_path ++ [ch_key]) ;;
   found <- H5.contains ch_group "Data" ;;
   if negb found then Raise (ValueError "No image data found") else
   Ok data_path)%res.

Section Converter.

Context (P : platform).

(** The body of the [try] block of [convert_ims_to_tif]. *)
Definition convert_body (ims_path tif_path : string)
    (channel timepoint z_slice : option Z) : M bool :=
  f <- h5_open ims_path ;;
  print ("Reading IMS file: " +:+ ims_path) ;;
  print ("Found metadata: " +:+ repr_metadata P f) ;;
  data_path <- lift (locate f channel timepoint) ;;
  data_node <- lift (H5.getitem f data_path) ;;
  image_data <- lift (H5.read data_node) ;;
  print ("Image shape: " +:+ repr_shape (shape image_data)) ;;
  print ("Data type: " +:+ dtype image_data) ;;
  image_data <- lift (select_z_slice image_data z_slice) ;;
  makedirs P (os_path_dirname P tif_path) ;;
  print ("Writing TIF file: " +:+ tif_path) ;;
  imwrite P tif_path image_data plain_options ;;
  print ("Successfully converted " +:+ ims_path +:+ " to " +:+ tif_path) ;;
  ret true.

Definition convert_ims_to_tif (ims_path tif_path : string)
    (channel timepoint z_slice : option Z) : M bool :=
  try_except (convert_body ims_path tif_path channel timepoint z_slice)
    (λ e, print ("Error converting file: " +:+ str_exn e) ;; ret false).

End Converter.

End Ims2tif.

(** [kwargs.get(key)]: [None] when the key is absent or bound to [None]. *)
Definition kwargs_get (kwargs : gmap string (option Z)) (key : string)
    : option Z :=
  kwargs !! key ≫= id.

(** [keys[kwargs.get(key, 0)] if kwargs.get(key) is not None else keys[0]]:
    the selection of [smart_converter.py] and [advanced_converter.py]. *)
Definition select_by_position (keys : list string)
    (kwargs : gmap string (option Z)) (key : string) : result string :=
  match kwargs_get kwargs key with
  | Some n => index keys n
  | None => index keys 0
  end.

(** ** [smart_converter.py]: class [SmartConverter] *)

Module Smart.

(** The default of the parameter [empty_threshold]. *)
Definition default_empty_threshold : Z := 10.

(** Lines 70-75: the loop over the Z slices, on the positions still to
    visit and the two lists built so far. *)
Fixpoint analyse (image_data : ndarray) (empty_threshold : Z)
    (zs : list nat) (non_empty_indices empty_indices : list nat)
    : result (list nat * list nat) :=
  match zs with
  | [] => Ok (non_empty_indices, empty_indices)
  | z :: zs' =>
      (slice <- getitem image_data (Z.of_nat z) ;;
       slice_max <- Np.max slice ;;
       if bool_decide (empty_threshold < slice_max) then
         analyse image_data empty_threshold zs'
           (non_empty_indices ++ [z]) empty_indices
       else
         analyse image_data empty_threshold zs'
           non_empty_indices (empty_indices ++ [z]))%res
  end.

(** Lines 66-92: the branch [if filter_empty]; the result is [final_data]. *)
Definition filter_empty_slices (image_data : ndarray) (empty_threshold : Z)
    : M ndarray :=
  depth <- lift (shape0 image_data) ;;
  found <- lift (analyse image_data empty_threshold (seq 0 depth) [] []) ;;
  let non_empty_indices := found.1 in
  let empty_indices := found.2 in
  print "Analysis:" ;;
  print ("  Total Z-slices: " +:+ pretty depth) ;;
  print ("  Non-empty slices: " +:+ pretty (length non_empty_indices) +:+
         " (max > " +:+ str_int empty_threshold +:+ ")") ;;
  print ("  Empty slices: " +:+ pretty (length empty_indices)) ;;
  if bool_decide (non_empty_indices ≠ []) then
    filtered_data <- lift (take_planes image_data non_empty_indices) ;;
    print ("Filtered shape: " +:+ repr_shape (shape filtered_data)) ;;
    print ("Removed " +:+ pretty (length empty_indices) +:+ " empty slices") ;;
    ret filtered_data
  else
    print "Warning: No non-empty slices found, using all data" ;;
    ret image_data.

Section Converter.

Context (P : platform).

(** Lines 37-61: from the open container to the image read into memory. *)
Definition read_image (f : H5.node) (kwargs : gmap string (option Z))
    : result ndarray :=
  (dataset <- H5.getitem f ["DataSet"] ;;
   let res_level_path := ["DataSet"; "ResolutionLevel 0"] in
   res_level <- H5.getitem f res_level_path ;;
   res_level_keys <- H5.keys res_level ;;
   let timepoint_keys :=
     filter (λ k, startswith k "TimePoint") res_level_keys in
   if bool_decide (timepoint_keys = []) then
     Raise (ValueError "No TimePoint data found")
   else
   tp_key <- select_by_position timepoint_keys kwargs "timepoint" ;;
   let tp_path := res_level_path ++ [tp_key] in
   tp_group <- H5.getitem f tp_path ;;
   tp_group_keys <- H5.keys tp_group ;;
   let channel_keys := filter (λ k, startswith k "Channel") tp_group_keys in
   if bool_decide (channel_keys = []) then
     Raise (ValueError "No Channel data found")
   else
   ch_key <- select_by_position channel_keys kwargs "channel" ;;
   let data_path := tp_path ++ [ch_key; "Data"] in
   data_node <- H5.getitem f data_path ;;
   H5.read data_node)%res.

(** The body of the [try] block of [convert_ims_to_tif_smart]. *)
Definition convert_body (ims_path tif_path : string) (empty_threshold : Z)
    (filter_empty : bool) (kwargs : gmap string (option Z)) : M bool :=
  f <- h5_open ims_path ;;
  print ("Reading IMS file: " +:+ ims_path) ;;
  image_data <- lift (read_image f kwargs) ;;
  print ("Original shape: " +:+ repr_shape (shape image_data)) ;;
  print ("Data type: " +:+ dtype image_data) ;;
  final_data <- (if filter_empty
                 then filter_empty_slices image_data empty_threshold
                 else ret image_data) ;;
  makedirs P (os_path_dirname P tif_path) ;;
  print ("Writing TIF file: " +:+ tif_path) ;;
  imwrite P tif_path final_data plain_options ;;
  print "Successfully converted!" ;;
  depth_in <- lift (shape0 image_data) ;;
  print ("   Input: " +:+ pretty depth_in +:+ " slices") ;;
  depth_out <- lift (shape0 final_data) ;;
  print ("   Output: " +:+ pretty depth_out +:+ " slices") ;;
  print ("   File: " +:+ tif_path) ;;
  ret true.

Definition convert_ims_to_tif_smart (ims_path tif_path : string)
    (empty_threshold : Z) (filter_empty : bool)
    (kwargs : gmap string (option Z)) : M bool :=
  try_except
    (convert_body ims_path tif_path empty_threshold filter_empty kwargs)
    (λ e, print ("Error: " +:+ str_exn e) ;; ret false).

End Converter.

End Smart.

(** ** [advanced_converter.py]: class [AdvancedConverter] *)

Module Advanced.

(** The unit text of the metadata dictionary, as the source file spells it.
    Its bytes are spelled out in [unit_text_bytes] below. *)
Definition unit_text : string := "¬µm".

(** Lines 128-137: the metadata dictionary of the OME export. *)
Definition ome_metadata : list (string * value) :=
  [ ("axes", VStr "ZYX");
    ("Channel", VDict [("Name", VStr "Channel 0")]);
    ("PhysicalSizeX", VFloat 1);
    ("PhysicalSizeY", VFloat 1);
    ("PhysicalSizeZ", VFloat 1);
    ("PhysicalSizeXUnit", VStr unit_text);
    ("PhysicalSizeYUnit", VStr unit_text);
    ("PhysicalSizeZUnit", VStr unit_text) ].

Definition ome_options : tif_options :=
  TifOptions (Some ome_metadata) (Some "lzw") false.

Definition compressed_options : tif_options :=
  TifOptions None (Some "lzw") true.

Section Converter.

Context (P : platform).

(** [Path.mkdir(parents=True, exist_ok=True)]. *)
Definition mkdir (d : string) : M unit :=
  if makedirs_ok P d then ret tt
  else raise (OSError ("[Errno 13] Permission denied: " +:+ repr_str d)).

Definition _export_3d_stack (image_data : ndarray) (output_path : string)
    : M bool :=
  makedirs P (os_path_dirname P output_path) ;;
  imwrite P output_path image_data plain_options ;;
  print ("3D stack saved: " +:+ output_path) ;;
  depth <- lift (shape0 image_data) ;;
  print ("   Shape: " +:+ repr_shape (shape image_data) +:+ " (" +:+
         pretty depth +:+ " Z-slices)") ;;
  ret true.

(** The name of the file of slice [z]. *)
Definition slice_name (base_name : string) (z : nat) : string :=
  base_name +:+ "_z" +:+ format_03d z +:+ ".tif".

(** Lines 114-117: the loop over the slices; [slice_data] is the variable
    of that name, unbound until the first pass. *)
Fixpoint export_slices (image_data : ndarray) (output_dir base_name : string)
    (zs : list nat) (slice_data : option ndarray) : M (option ndarray) :=
  match zs with
  | [] => ret slice_data
  | z :: zs' =>
      slice_data <- lift (getitem image_data (Z.of_nat z)) ;;
      let slice_file := path_join P output_dir (slice_name base_name z) in
      imwrite P slice_file slice_data plain_options ;;
      export_slices image_data output_dir base_name zs' (Some slice_data)
  end.

Definition _export_individual_slices (image_data : ndarray)
    (output_base ims_path : string) : M bool :=
  let base_name := path_stem P ims_path in
  let output_dir :=
    path_join P (path_parent P output_base) (base_name +:+ "_slices") in
  mkdir output_dir ;;
  num_slices <- lift (shape0 image_data) ;;
  print ("Exporting " +:+ pretty num_slices +:+ " individual Z-slices...") ;;
  slice_data <-
    export_slices image_data output_dir base_name (seq 0 num_slices) None ;;
  print ("   Saved " +:+ pretty num_slices +:+ " files in: " +:+ output_dir) ;;
  match slice_data with
  | Some slice_data =>
      print ("   Each slice shape: " +:+ repr_shape (shape slice_data)) ;;
      ret true
  | None =>
      raise (UnboundLocalError
        "cannot access local variable 'slice_data' where it is not associated with a value")
  end.

Definition _export_ome_tiff (image_data : ndarray) (output_path : string)
    : M bool :=
  makedirs P (os_path_dirname P output_path) ;;
  imwrite P output_path image_data ome_options ;;
  print ("OME-TIFF saved: " +:+ output_path) ;;
  print ("   Shape: " +:+ repr_shape (shape image_data) +:+
         " with OME metadata") ;;
  ret true.

Definition _export_compressed (image_data : ndarray) (output_path : string)
    : M bool :=
  makedirs P (os_path_dirname P output_path) ;;
  imwrite P output_path image_data compressed_options ;;
  print ("Compressed TIF saved: " +:+ output_path) ;;
  print ("   Shape: " +:+ repr_shape (shape image_data) +:+
         " (LZW compressed)") ;;
  ret true.

(** Lines 47-73: from the open container to the image read into memory. *)
Definition read_image (f : H5.node) (kwargs : gmap string (option Z))
    : result ndarray :=
  (dataset <- H5.getitem f ["DataSet"] ;;
   dataset_keys <- H5.keys dataset ;;
   let resolution_levels :=
     filter (λ k, startswith k "ResolutionLevel") dataset_keys in
   if bool_decide (resolution_levels = []) then
     Raise (ValueError "No resolution levels found")
   else
   let res_level_path := ["DataSet"; "ResolutionLevel 0"] in
   res_level <- H5.getitem f res_level_path ;;
   res_level_keys <- H5.keys res_level ;;
   let timepoint_keys :=
     filter (λ k, startswith k "TimePoint") res_level_keys in
   if bool_decide (timepoint_keys = []) then
     Raise (ValueError "No TimePoint data found")
   else
   tp_key <- select_by_position timepoint_keys kwargs "timepoint" ;;
   let tp_path := res_level_path ++ [tp_key] in
   tp_group <- H5.getitem f tp_path ;;
   tp_group_keys <- H5.keys tp_group ;;
   let channel_keys := filter (λ k, startswith k "Channel") tp_group_keys in
   if bool_decide (channel_keys = []) then
     Raise (ValueError "No Channel data found")
   else
   ch_key <- select_by_position channel_keys kwargs "channel" ;;
   let data_path := tp_path ++ [ch_key; "Data"] in
   data_node <- H5.getitem f data_path ;;
   H5.read data_node)%res.

(** The body of the [try] block of [convert_with_options]. *)
Definition convert_body (ims_path output_path export_type : string)
    (kwargs : gmap string (option Z)) : M bool :=
  f <- h5_open ims_path ;;
  print ("Reading IMS file: " +:+ ims_path) ;;
  image_data <- lift (read_image f kwargs) ;;
  print ("Image shape: " +:+ repr_shape (shape image_data)) ;;
  print ("Data type: " +:+ dtype image_data) ;;
  if bool_decide (export_type = "3d_stack") then
    _export_3d_stack image_data output_path
  else if bool_decide (export_type = "individual_slices") then
    _export_individual_slices image_data output_path ims_path
  else if bool_decide (export_type = "ome_tiff") then
    _export_ome_tiff image_data output_path
  else if bool_decide (export_type = "compressed") then
    _export_compressed image_data output_path
  else raise (ValueError ("Unknown export type: " +:+ export_type)).

Definition convert_with_options (ims_path output_path export_type : string)
    (kwargs : gmap string (option Z)) : M bool :=
  try_except (convert_body ims_path output_path export_type kwargs)
    (λ e, print ("Error: " +:+ str_exn e) ;; ret false).

End Converter.

End Advanced.

(** ** [recursive_converter.py]: class [RecursiveConverter] *)

Module Recursive.

(** The dictionary [self.stats]. *)
Record stats := Stats {
  total_found : nat;
  successful : nat;
  failed : nat;
  skipped : nat;
  failed_files : list string
}.

(** The value [__init__] gives it. *)
Definition initial_stats : stats := Stats 0 0 0 0 [].

Definition count_skipped (st : stats) : stats :=
  Stats (total_found st) (successful st) (failed st) (S (skipped st))
        (failed_files st).

Definition count_successful (st : stats) : stats :=
  Stats (total_found st) (S (successful st)) (failed st) (skipped st)
        (failed_files st).

Definition count_failed (st : stats) (ims_file : string) : stats :=
  Stats (total_found st) (successful st) (S (failed st)) (skipped st)
        (failed_files st ++ [ims_file]).

(** The two methods the loop calls on [self.converter]. *)
Record converter := Converter {
  convert_ims_to_tif_smart : string → string → bool → M bool;
  convert_ims_to_tif : string → string → M bool
}.

(** [str(e)[:80]]. *)
Definition first_80 (s : string) : string := String.substring 0 80 s.

Section Batch.

Context (P : platform) (conv : converter).
Context (use_smart_filtering overwrite : bool).

(** The progress tag [[i/n]] of the lines printed for one file. *)
Definition tag (i n : nat) : string :=
  "[" +:+ pretty i +:+ "/" +:+ pretty n +:+ "]".

(** Lines 90-114: the [try] statement of one pass, on the statistics. *)
Definition convert_one (ims_file tif_file : string) (st : stats) : M stats :=
  try_except
    (success <-
       (if use_smart_filtering
        then convert_ims_to_tif_smart conv ims_file tif_file true
        else convert_ims_to_tif conv ims_file tif_file) ;;
     if success then
       print ("    SUCCESS: " +:+ path_name P tif_file) ;;
       ret (count_successful st)
     else
       print ("    FAILED: " +:+ path_name P ims_file) ;;
       ret (count_failed st ims_file))
    (λ e, print ("    ERROR: " +:+ first_80 (str_exn e) +:+ "...") ;;
          ret (count_failed st ims_file)).

(** Lines 77-116: the loop of [convert_all_files] over the files found,
    [i] being the number of the next file and [n] their count. *)
Fixpoint convert_files (n i : nat) (ims_files : list string) (st : stats)
    : M stats :=
  match ims_files with
  | [] => ret st
  | ims_file :: rest =>
      let tif_file := path_with_suffix P ims_file ".tif" in
      present <- path_exists tif_file ;;
      if present && negb overwrite then
        print (tag i n +:+ " ⏭️  SKIP: " +:+ path_name P ims_file +:+
               " (TIF exists)") ;;
        convert_files n (S i) rest (count_skipped st)
      else
        print (tag i n +:+ " 🔄 " +:+ path_name P ims_file) ;;
        print ("    " +:+ path_parent P ims_file) ;;
        st' <- convert_one ims_file tif_file st ;;
        print "" ;;
        convert_files n (S i) rest st'
  end.

End Batch.

(** The converter [__init__] installs: a [SmartConverter], which inherits
    [convert_ims_to_tif] and is called with the default threshold and no
    selector. *)
Definition smart_converter (P : platform) : converter :=
  Converter
    (λ ims tif filter_empty,
       Smart.convert_ims_to_tif_smart P ims tif Smart.default_empty_threshold
         filter_empty ∅)
    (λ ims tif, Ims2tif.convert_ims_to_tif P ims tif None None None).

End Recursive.

(** ** What the scripts learn from the machine *)

(** The answers of [pathlib] and [os.path] about the directory tree: whether
    a directory exists and what [rglob("*.ims")] and [glob("*.ims")] list
    in it (both depend on the files present), [Path(d).relative_to(root)],
    which raises for a directory that is not below the root,
    [os.path.abspath], [Path(p).suffix], and the rendering
    [f"{s / n * 100:.1f}"] of a success rate. *)
Record environment := Environment {
  dir_exists : string → gmap string file → bool;
  rglob_ims : string → gmap string file → list string;
  glob_ims : string → gmap string file → list string;
  relative_to : string → string → result string;
  os_path_abspath : string → string;
  path_suffix : string → string;
  percent_1f : nat → nat → string
}.

(** The line feed, written [\n] in the sources. *)
Definition nl : string := String (ascii_of_nat 10) EmptyString.

(** [s * n] on a [str]. *)
Fixpoint str_mul (s : string) (n : nat) : string :=
  match n with
  | O => ""
  | S n' => s +:+ str_mul s n'
  end.

(** [c.lower()] and [s.lower()] on ASCII text. *)
Definition lower_char (c : ascii) : ascii :=
  let n := nat_of_ascii c in
  if bool_decide (65 ≤ n ≤ 90)%nat then ascii_of_nat (n + 32) else c.

Fixpoint lower (s : string) : string :=
  match s with
  | EmptyString => EmptyString
  | String c s' => String (lower_char c) (lower s')
  end.

(** ** [recursive_converter.py]: the methods around the loop *)

Module RecursiveConverter.

Import Recursive.

(** [self.stats['total_found'] = n]. *)
Definition set_total_found (st : stats) (n : nat) : stats :=
  Stats n (successful st) (failed st) (skipped st) (failed_files st).

Section Methods.

Context (P : platform) (E : environment) (conv : converter).
Context (use_smart_filtering : bool).

(** Lines 45-48: one pass of the grouping loop on the dictionary
    [by_directory], whose items are kept in insertion order. *)
Fixpoint add_file (dir_path ims_file : string)
    (by_directory : list (string * list string))
    : list (string * list string) :=
  match by_directory with
  | [] => [(dir_path, [ims_file])]
  | (d, files) :: others =>
      if bool_decide (d = dir_path) then (d, files ++ [ims_file]) :: others
      else (d, files) :: add_file dir_path ims_file others
  end.

(** Lines 43-48. *)
Definition group_by_directory (ims_files : list string)
    : list (string * list string) :=
  foldl (λ by_directory ims_file,
           add_file (path_parent P ims_file) ims_file by_directory)
    [] ims_files.

(** Lines 51-53. *)
Fixpoint print_groups (root_directory : string)
    (by_directory : list (string * list string)) : M unit :=
  match by_directory with
  | [] => ret tt
  | (directory, files) :: others =>
      rel_path <- lift (relative_to E directory root_directory) ;;
      print ("   " +:+ rel_path +:+ ": " +:+ pretty (length files) +:+
             " files") ;;
      print_groups root_directory others
  end.

(** Lines 29-55. *)
Definition find_all_ims_files (root_directory : string) : M (list string) :=
  present <- (λ w, (Ok (dir_exists E root_directory (fs w)), w)) ;;
  if negb present then
    raise (ValueError ("Directory not found: " +:+ root_directory))
  else
  ims_files <- (λ w, (Ok (rglob_ims E root_directory (fs w)), w)) ;;
  print ("🔍 Scanning directory tree: " +:+ root_directory) ;;
  print ("Found " +:+ pretty (length ims_files) +:+ " IMS files") ;;
  let by_directory := group_by_directory ims_files in
  print ("Spread across " +:+ pretty (length by_directory) +:+
         " directories:") ;;
  print_groups root_directory by_directory ;;
  ret ims_files.

(** Lines 137-138. *)
Fixpoint print_failed (failed_files : list string) : M unit :=
  match failed_files with
  | [] => ret tt
  | failed_file :: others =>
      print ("   - " +:+ path_name P failed_file) ;;
      print_failed others
  end.

(** Lines 122-138. *)
Definition print_summary (st : stats) : M unit :=
  print (str_mul "=" 50) ;;
  print "🎯 CONVERSION SUMMARY" ;;
  print (str_mul "=" 50) ;;
  print ("📊 Total IMS files found: " +:+ pretty (total_found st)) ;;
  print ("Successfully converted: " +:+ pretty (successful st)) ;;
  print ("Failed conversions: " +:+ pretty (failed st)) ;;
  print ("⏭️  Skipped (already exist): " +:+ pretty (skipped st)) ;;
  let success_rate :=
    if bool_decide (0 < total_found st)%nat
    then percent_1f E (successful st) (total_found st)
    else "0.0" in
  print ("📈 Success rate: " +:+ success_rate +:+ "%") ;;
  if bool_decide (failed_files st ≠ []) then
    print (nl +:+ "Failed files:") ;;
    print_failed (failed_files st)
  else ret tt.

(** Lines 57-120.  The statistics are a field of the object, set by
    [__init__] only: the method takes those it finds and returns, with its
    result, those it leaves. *)
Definition convert_all_files (root_directory : string) (overwrite : bool)
    (st : stats) : M (bool * stats) :=
  print "Recursive IMS to TIF Converter" ;;
  print (str_mul "=" 40) ;;
  ims_files <- find_all_ims_files root_directory ;;
  if bool_decide (ims_files = []) then
    print "No IMS files found!" ;;
    ret (false, st)
  else
  let st := set_total_found st (length ims_files) in
  print (nl +:+ "🔄 Converting " +:+ pretty (length ims_files) +:+
         " files...") ;;
  print ("💡 Smart filtering: " +:+
         (if use_smart_filtering then "ON" else "OFF")) ;;
  print ("🔄 Overwrite existing: " +:+
         (if overwrite then "YES" else "NO")) ;;
  print "" ;;
  st <- convert_files P conv use_smart_filtering overwrite
          (length ims_files) 1 ims_files st ;;
  print_summary st ;;
  ret (bool_decide (0 < successful st)%nat, st).

End Methods.

End RecursiveConverter.

(** ** [universal_converter.py] *)

Module Universal.

Section Converter.

Context (P : platform) (E : environment).

(** [str(e)[:100]]. *)
Definition first_100 (s : string) : string := String.substring 0 100 s.

(** Lines 83-84. *)
Fixpoint print_found (i : nat) (ims_files : list string) : M unit :=
  match ims_files with
  | [] => ret tt
  | ims_file :: others =>
      print ("  " +:+ pretty i +:+ ". " +:+ path_name P ims_file) ;;
      print_found (S i) others
  end.

(** The counters of the loop: [successful], [failed], [failed_files]. *)
Record counters := Counters {
  successful : nat;
  failed : nat;
  failed_files : list string
}.

(** Lines 100-117: the [try] statement of one pass. *)
Definition convert_one (ims_file output_file : string) (c : counters)
    : M counters :=
  try_except
    (success <- Ims2tif.convert_ims_to_tif P ims_file output_file None None
                  None ;;
     if success then
       print ("  ✓ Success: " +:+ path_name P output_file) ;;
       ret (Counters (S (successful c)) (failed c) (failed_files c))
     else
       print ("  ✗ Failed: " +:+ path_name P ims_file) ;;
       ret (Counters (successful c) (S (failed c))
              (failed_files c ++ [path_name P ims_file])))
    (λ e, print ("  ✗ Error: " +:+ first_100 (str_exn e) +:+ "...") ;;
          ret (Counters (successful c) (S (failed c))
                 (failed_files c ++ [path_name P ims_file]))).

(** The file written for [ims_file]. *)
Definition output_file_of (output_directory ims_file : string) : string :=
  path_join P output_directory (path_stem P ims_file +:+ ".tif").

(** Lines 94-117: the loop, [i] being the number of the next file and [n]
    their count. *)
Fixpoint convert_each (output_directory : string) (n i : nat)
    (ims_files : list string) (c : counters) : M counters :=
  match ims_files with
  | [] => ret c
  | ims_file :: others =>
      print ("[" +:+ pretty i +:+ "/" +:+ pretty n +:+ "] Converting: " +:+
             path_name P ims_file) ;;
      let output_file := output_file_of output_directory ims_file in
      c' <- convert_one ims_file output_file c ;;
      convert_each output_directory n (S i) others c'
  end.

(** Lines 130-131. *)
Fixpoint print_failed (failed_files : list string) : M unit :=
  match failed_files with
  | [] => ret tt
  | failed_file :: others =>
      print ("  - " +:+ failed_file) ;;
      print_failed others
  end.

(** Lines 64-133. *)
Definition convert_directory (input_directory output_directory : string)
    : M bool :=
  print (nl +:+ "Processing Directory: " +:+ input_directory) ;;
  print ("Output Directory: " +:+ output_directory) ;;
  print (str_mul "=" 50) ;;
  makedirs P output_directory ;;
  ims_files <- (λ w, (Ok (glob_ims E input_directory (fs w)), w)) ;;
  if bool_decide (ims_files = []) then
    print "No IMS files found in the specified directory." ;;
    ret false
  else
  print ("Found " +:+ pretty (length ims_files) +:+ " IMS file(s):") ;;
  print_found 1 ims_files ;;
  print "" ;;
  c <- convert_each output_directory (length ims_files) 1 ims_files
         (Counters 0 0 []) ;;
  print (nl +:+ str_mul "=" 50) ;;
  print "CONVERSION SUMMARY" ;;
  print (str_mul "=" 50) ;;
  print ("Total files processed: " +:+ pretty (length ims_files)) ;;
  print ("Successful conversions: " +:+ pretty (successful c)) ;;
  print ("Failed conversions: " +:+ pretty (failed c)) ;;
  print ("Output location: " +:+ os_path_abspath E output_directory) ;;
  (if bool_decide (failed_files c ≠ []) then
     print (nl +:+ "Failed files:") ;;
     print_failed (failed_files c)
   else ret tt) ;;
  ret (bool_decide (0 < successful c)%nat).

End Converter.

End Universal.

(** ** [ims2tif.py]: the command line *)

Module Cli.

(** The namespace [parse_args] returns. *)
Record args := Args {
  input : string;
  output : string;
  channel : option Z;
  timepoint : option Z;
  z_slice : option Z;
  verbose : bool
}.

Section Main.

Context (P : platform) (E : environment).

(** [self.supported_extensions]. *)
Definition supported_extensions : list string := [".ims"].

(** Lines 41-43. *)
Definition is_ims_file (file_path : string) : bool :=
  bool_decide (lower (path_suffix E file_path) ∈ supported_extensions).

(** Lines 222-248: [main] from the parsed arguments on.  Every path ends
    in [sys.exit], whose [SystemExit] no handler of the script catches: the
    result is the status handed to it. *)
Definition main (a : args) : M Z :=
  present <- path_exists (input a) ;;
  if negb present then
    print ("Error: Input file does not exist: " +:+ input a) ;;
    ret 1
  else
  (if negb (is_ims_file (input a)) then
     print ("Warning: Input file may not be a valid IMS file: " +:+ input a)
   else ret tt) ;;
  success <- Ims2tif.convert_ims_to_tif P (input a) (output a) (channel a)
               (timepoint a) (z_slice a) ;;
  if success then
    print "Conversion completed successfully!" ;;
    ret 0
  else
    print "Conversion failed!" ;;
    ret 1.

End Main.

End Cli.

(** ** Sample inputs *)

Module Samples.

(** A stack of shape [(5, 4, 4)]: the slices 0, 2 and 4 hold 50 everywhere,
    the slices 1 and 3 hold 0. *)
Definition striped : ndarray :=
  Ndarray "uint8" [5; 4; 4]%nat
    (concat ((λ z : nat, replicate 16 (if Nat.even z then 50 else 0))
               <$> seq 0 5)).

(** A stack of shape [(3, 2, 2)] with no value above 10. *)
Definition dark : ndarray :=
  Ndarray "uint8" [3; 2; 2]%nat [0; 1; 2; 3; 4; 5; 6; 7; 8; 9; 10; 10].

(** A stack of shape [(0, 4, 4)]: no slice at all. *)
Definition hollow : ndarray := Ndarray "uint8" [0; 4; 4]%nat [].

(** A one-voxel stack holding [v]. *)
Definition voxel (v : Z) : ndarray := Ndarray "uint16" [1; 1; 1]%nat [v].

Definition channel_of (a : ndarray) : H5.node :=
  H5.Group [("Data", H5.Dataset a)].

(** A timepoint with two channels. *)
Definition two_channels (a b : ndarray) : H5.node :=
  H5.Group [("Channel 0", channel_of a); ("Channel 1", channel_of b)].

(** A container with one resolution level, one timepoint and the two
    channels [a] and [b]. *)
Definition container (a b : ndarray) : H5.node :=
  H5.Group [("DataSet", H5.Group [("ResolutionLevel 0",
     H5.Group [("TimePoint 0", two_channels a b)])])].

(** The timepoint [n] of [series]: one channel whose only voxel holds [n]. *)
Definition frame (n : Z) : string * H5.node :=
  ("TimePoint " +:+ str_int n,
   H5.Group [("Channel 0", channel_of (voxel n))]).

(** Eleven timepoints, enumerated in the order of their names, as h5py
    does by default: [TimePoint 10] comes before [TimePoint 2]. *)
Definition series : H5.node :=
  H5.Group [("DataSet", H5.Group [("ResolutionLevel 0",
     H5.Group (frame <$> [0; 1; 10; 2; 3; 4; 5; 6; 7; 8; 9]))])].

(** The levels of a container whose full-resolution level is missing, and
    of one that enumerates level 1 first. *)
Definition level (a : ndarray) : H5.node :=
  H5.Group [("TimePoint 0", H5.Group [("Channel 0", channel_of a)])].

Definition only_level_1 : H5.node :=
  H5.Group [("DataSet", H5.Group [("ResolutionLevel 1", level (voxel 1))])].

Definition level_1_first : H5.node :=
  H5.Group [("DataSet", H5.Group [("ResolutionLevel 1", level (voxel 1));
                                  ("ResolutionLevel 0", level (voxel 0))])].

(** Text after the last [/] of a path, and text before it. *)
Fixpoint basename (acc p : string) : string :=
  match p with
  | EmptyString => acc
  | String c p' =>
      if bool_decide (c = "/"%char) then basename EmptyString p'
      else basename (acc +:+ String c EmptyString) p'
  end.

Fixpoint dirpart (seen acc p : string) : string :=
  match p with
  | EmptyString => acc
  | String c p' =>
      if bool_decide (c = "/"%char)
      then dirpart (seen +:+ "/") seen p'
      else dirpart (seen +:+ String c EmptyString) acc p'
  end.

(** Text before the last [.] of a name. *)
Fixpoint before_dot (seen acc p : string) : string :=
  match p with
  | EmptyString => acc
  | String c p' =>
      if bool_decide (c = "."%char)
      then before_dot (seen +:+ ".") seen p'
      else before_dot (seen +:+ String c EmptyString) acc p'
  end.

(** A platform on which every directory can be created and the encoder
    takes every array; paths use [/]. *)
Definition posix : platform := {|
  os_path_dirname p := dirpart "" "" p;
  path_stem p := before_dot "" (basename "" p) (basename "" p);
  path_parent p := dirpart "" "." p;
  path_name p := basename "" p;
  path_join d f := d +:+ "/" +:+ f;
  path_with_suffix p suffix := before_dot "" p p +:+ suffix;
  makedirs_ok _ := true;
  imwrite_ok _ _ _ := true;
  repr_metadata _ := "{}"
|}.

(** The same platform with an encoder that refuses every array. *)
Definition broken_encoder : platform := {|
  os_path_dirname := os_path_dirname posix;
  path_stem := path_stem posix;
  path_parent := path_parent posix;
  path_name := path_name posix;
  path_join := path_join posix;
  path_with_suffix := path_with_suffix posix;
  makedirs_ok := makedirs_ok posix;
  imwrite_ok _ _ _ := false;
  repr_metadata := repr_metadata posix
|}.

(** A file system with one container at [path]. *)
Definition disk (path : string) (root : H5.node) : world :=
  World {[ path := ImsFile root ]} [] [].

(** A folder: [a] was converted before, [b] is a container, [c] is not. *)
Definition folder : world :=
  World (<["d/a.ims" := ImsFile (container striped striped)]>
         (<["d/a.tif" := OtherFile]>
          (<["d/b.ims" := ImsFile (container striped striped)]>
           {[ "d/c.ims" := OtherFile ]}))) [] [].

(** A converter whose methods raise. *)
Definition unreliable : Recursive.converter :=
  Recursive.Converter (λ _ _ _, raise (OSError "device not ready"))
                      (λ _ _, raise (OSError "device not ready")).

End Samples.

(** ** Vocabulary of the statements *)

(** The maximum of slice [z] of [image], for a slice that has one. *)
Definition peak (image : ndarray) (z : nat) : Z :=
  match Np.max (plane image z) with
  | Ok m => m
  | Raise _ => 0
  end.

(** The array [take_planes] builds from the positions [zs]. *)
Definition stack (image : ndarray) (zs : list nat) : ndarray :=
  Ndarray (dtype image) (length zs :: tail (shape image))
    (concat ((λ z, data (plane image z)) <$> zs)).

(** What the smart conversion prints when no slice is kept. *)
Definition fallback_lines (ims_path tif_path : string) (image : ndarray)
    (t : Z) (d : nat) : list string :=
  [ "Reading IMS file: " +:+ ims_path;
    "Original shape: " +:+ repr_shape (shape image);
    "Data type: " +:+ dtype image;
    "Analysis:";
    "  Total Z-slices: " +:+ pretty d;
    "  Non-empty slices: " +:+ pretty 0%nat +:+
      " (max > " +:+ str_int t +:+ ")";
    "  Empty slices: " +:+ pretty d;
    "Warning: No non-empty slices found, using all data";
    "Writing TIF file: " +:+ tif_path;
    "Successfully converted!";
    "   Input: " +:+ pretty d +:+ " slices";
    "   Output: " +:+ pretty d +:+ " slices";
    "   File: " +:+ tif_path ].

(** The files of the slices at the positions [zs], in order. *)
Definition slice_files (P : platform) (image : ndarray)
    (output_dir base_name : string) (zs : list nat) : list (string * tif) :=
  (λ z, (path_join P output_dir (Advanced.slice_name base_name z),
         Tif (plane image z) plain_options)) <$> zs.

(** The file system after these files were written. *)
Definition put_files (files : list (string * tif)) (m : gmap string file)
    : gmap string file :=
  foldl (λ m f, <[f.1 := TifFile f.2]> m) m files.

(** The bytes of a text. *)
Definition bytes_of (s : string) : list nat :=
  nat_of_ascii <$> list_ascii_of_string s.

(** The symbol of the micrometre, U+00B5 followed by [m], in UTF-8. *)
Definition micrometre : string :=
  String (ascii_of_nat 194) (String (ascii_of_nat 181) "m").

(** [d[key]] on a dictionary literal. *)
Definition item (d : list (string * value)) (key : string) : option value :=
  (λ found, found.2.2) <$> list_find (λ kv, kv.1 = key) d.

(** The console after the lines [ls] were printed. *)
Definition printed (w : world) (ls : list string) : world :=
  World (fs w) (written w) (stdout w ++ ls).

Section BatchVocabulary.

Context (P : platform) (conv : Recursive.converter).
Context (use_smart_filtering overwrite : bool).

(** The call the batch loop makes for one file. *)
Definition call (ims_file : string) : M bool :=
  let tif_file := path_with_suffix P ims_file ".tif" in
  if use_smart_filtering
  then Recursive.convert_ims_to_tif_smart conv ims_file tif_file true
  else Recursive.convert_ims_to_tif conv ims_file tif_file.

Definition skip_line (i n : nat) (ims_file : string) : string :=
  Recursive.tag i n +:+ " ⏭️  SKIP: " +:+ path_name P ims_file +:+
  " (TIF exists)".

Definition start_lines (i n : nat) (ims_file : string) : list string :=
  [Recursive.tag i n +:+ " 🔄 " +:+ path_name P ims_file;
   "    " +:+ path_parent P ims_file].

(** The number of files accounted for. *)
Definition accounted (st : Recursive.stats) : nat :=
  (Recursive.successful st + Recursive.failed st + Recursive.skipped st)%nat.

(** Whether the loop skips [ims_file] in the world [w]. *)
Definition skips (w : world) (ims_file : string) : bool :=
  bool_decide (is_Some (fs w !! path_with_suffix P ims_file ".tif"))
  && negb overwrite.

End BatchVocabulary.

(** ** Further sample inputs *)

Module MoreSamples.

(** A stack of shape [(2, 0, 3)]: two slices without elements. *)
Definition flat : ndarray := Ndarray "uint8" [2; 0; 3]%nat [].

(** [Samples.dark] in a container on disk. *)
Definition dark_disk : world :=
  Samples.disk "in/a.ims" (Samples.container Samples.dark Samples.dark).

(** [Samples.striped] in a container on disk. *)
Definition striped_disk : world :=
  Samples.disk "in/a.ims" (Samples.container Samples.striped Samples.striped).

(** [flat] in a container on disk. *)
Definition flat_disk : world :=
  Samples.disk "in/a.ims" (Samples.container flat flat).

(** The POSIX platform with an encoder that refuses one path. *)
Definition refusing (path : string) : platform := {|
  os_path_dirname := os_path_dirname Samples.posix;
  path_stem := path_stem Samples.posix;
  path_parent := path_parent Samples.posix;
  path_name := path_name Samples.posix;
  path_join := path_join Samples.posix;
  path_with_suffix := path_with_suffix Samples.posix;
  makedirs_ok := makedirs_ok Samples.posix;
  imwrite_ok p _ _ := negb (bool_decide (p = path));
  repr_metadata := repr_metadata Samples.posix
|}.

Definition hollow_disk : world :=
  Samples.disk "in/a.ims" (Samples.container Samples.hollow Samples.hollow).

End MoreSamples.

(** ** Sample trees *)

Module BatchSamples.

(** A rendering of [100 * s / n] to one decimal. *)
Definition one_decimal (s n : nat) : string :=
  let tenths := ((2000 * s + n) / (2 * n))%nat in
  pretty (tenths / 10)%nat +:+ "." +:+ pretty (tenths mod 10)%nat.

(** A tree whose listings give [files], whatever the directory; a
    directory is relative to a root when it is the root or below it. *)
Definition listing (files : list string) : environment := {|
  dir_exists _ _ := true;
  rglob_ims _ _ := files;
  glob_ims _ _ := files;
  relative_to d root :=
    if bool_decide (d = root) then Ok "."
    else if String.prefix (root +:+ "/") d
    then Ok (String.substring (S (String.length root)) (String.length d) d)
    else Raise (ValueError (repr_str d +:+ " is not in the subpath of " +:+
                            repr_str root));
  os_path_abspath p := "/work/" +:+ p;
  path_suffix p :=
    String.substring (String.length (path_stem Samples.posix p))
      (String.length p) (path_name Samples.posix p);
  percent_1f := one_decimal
|}.

(** The same tree without any directory. *)
Definition nowhere : environment := {|
  dir_exists _ _ := false;
  rglob_ims _ _ := [];
  glob_ims _ _ := [];
  relative_to := relative_to (listing []);
  os_path_abspath := os_path_abspath (listing []);
  path_suffix := path_suffix (listing []);
  percent_1f := one_decimal
|}.

End BatchSamples.

(** ** Vocabulary of the further statements *)

(** The world [w'] holds the files and the encoder calls of [w]. *)
Definition kept (w w' : world) : Prop :=
  fs w' = fs w ∧ written w' = written w.

(** The world [w'] is [w] after one encoder call, for [path] with the
    options [opts]. *)
Definition added (path : string) (opts : tif_options) (w w' : world) : Prop :=
  ∃ a, fs w' = <[path := TifFile (Tif a opts)]> (fs w) ∧
       written w' = written w ++ [(path, Tif a opts)].

(** [Q] holds of what [m] returns and of the world it leaves, from [w]. *)
Definition wp {A} (m : M A) (Q : result A → world → Prop) (w : world) : Prop :=
  Q (m w).1 (m w).2.

(** A computation that leaves the files and the encoder calls alone. *)
Definition quiet {A} (m : M A) : Prop := ∀ w, kept w (m w).2.

(** An array with a leading axis. *)
Definition has_depth (a : ndarray) : Prop := shape a ≠ [].

(** The keyword arguments each single-file export mode gives the encoder. *)
Definition options_of (export_type : string) : tif_options :=
  if bool_decide (export_type = "ome_tiff") then Advanced.ome_options
  else if bool_decide (export_type = "compressed")
       then Advanced.compressed_options
       else plain_options.

(** The positions the filter keeps at threshold [t]. *)
Definition kept_slices (image : ndarray) (t : Z) (d : nat) : list nat :=
  filter (λ z, t < peak image z) (seq 0 d).

(** What the filter block prints when it keeps some slices. *)
Definition filter_lines (image : ndarray) (t : Z) (d : nat) : list string :=
  [ "Analysis:";
    "  Total Z-slices: " +:+ pretty d;
    "  Non-empty slices: " +:+ pretty (length (kept_slices image t d)) +:+
      " (max > " +:+ str_int t +:+ ")";
    "  Empty slices: " +:+ pretty (d - length (kept_slices image t d))%nat;
    "Filtered shape: " +:+
      repr_shape (length (kept_slices image t d) :: tail (shape image));
    "Removed " +:+ pretty (d - length (kept_slices image t d))%nat +:+
      " empty slices" ].

(** The directory of the per-slice export. *)
Definition slices_dir (P : platform) (output_base ims_path : string) : string :=
  path_join P (path_parent P output_base) (path_stem P ims_path +:+ "_slices").

(** [int(s)] for a text of decimal digits, from the value [acc] of the
    digits read so far. *)
Fixpoint int_of_digits (acc : N) (s : string) : N :=
  match s with
  | EmptyString => acc
  | String c s' => int_of_digits (10 * acc + (N_of_ascii c - 48)) s'
  end.

(** * Properties *)

(** ** Indexing and maxima *)

(** Case analysis on every decision of the goal, closing the branches that
    arithmetic rules out. *)
Ltac decide_cases := repeat (case_bool_decide; try lia); try done.

Section ArrayFacts.

Implicit Types (a image : ndarray) (z d : nat) (rest : list nat).

Lemma index_in_range {A} (l : list A) (i : nat) (x : A) :
  l !! i = Some x → index l (Z.of_nat i) = Ok x.
Proof.
  intros Hx. pose proof (lookup_lt_Some _ _ _ Hx) as Hlt.
  unfold index. decide_cases. by rewrite Nat2Z.id, Hx.
Qed.

Lemma index_from_end {A} (l : list A) (i : Z) (x : A) :
  - Z.of_nat (length l) ≤ i < 0 →
  l !! Z.to_nat (Z.of_nat (length l) + i) = Some x →
  index l i = Ok x.
Proof. intros Hi Hx. unfold index. decide_cases. by rewrite Hx. Qed.

Lemma index_out_of_range {A} (l : list A) (i : Z) :
  i < - Z.of_nat (length l) ∨ Z.of_nat (length l) ≤ i →
  index l i = Raise (IndexError "list index out of range").
Proof. intros Hi. unfold index. decide_cases. Qed.

Lemma index_ok_elem {A} (l : list A) (i : Z) (x : A) :
  index l i = Ok x → x ∈ l.
Proof.
  unfold index. case_bool_decide; [|done].
  destruct (l !! _) eqn:Hx; [|done]. intros [= <-].
  by eapply list_elem_of_lookup_2.
Qed.

Lemma getitem_in_range a d rest z :
  shape a = d :: rest → (z < d)%nat → getitem a (Z.of_nat z) = Ok (plane a z).
Proof.
  intros Hs Hz. unfold getitem. rewrite Hs. decide_cases.
  by rewrite Nat2Z.id.
Qed.

Lemma getitem_from_end a d rest (z : Z) :
  shape a = d :: rest → - Z.of_nat d ≤ z < 0 →
  getitem a z = Ok (plane a (Z.to_nat (Z.of_nat d + z))).
Proof. intros Hs Hz. unfold getitem. rewrite Hs. decide_cases. Qed.

Lemma getitem_is_index_error a (z : Z) e :
  getitem a z = Raise e → ∃ msg, e = IndexError msg.
Proof.
  unfold getitem. destruct (shape a); [intros [= <-]; eauto|].
  case_bool_decide; [done|]. intros [= <-]; eauto.
Qed.

Lemma foldl_max_ge (xs : list Z) (x : Z) : x ≤ foldl Z.max x xs.
Proof.
  revert x. induction xs as [|y xs IH]; intros x; simpl; [lia|].
  specialize (IH (Z.max x y)). lia.
Qed.

Lemma foldl_max_upper (xs : list Z) (x y : Z) :
  y ∈ xs → y ≤ foldl Z.max x xs.
Proof.
  revert x. induction xs as [|y' xs IH]; intros x; [by intros ?%elem_of_nil|].
  intros [->|Hin]%elem_of_cons; simpl.
  - pose proof (foldl_max_ge xs (Z.max x y')). lia.
  - by apply IH.
Qed.

Lemma foldl_max_elem (xs : list Z) (x : Z) :
  foldl Z.max x xs ∈ x :: xs.
Proof.
  revert x. induction xs as [|y xs IH]; intros x; simpl; [by left|].
  specialize (IH (Z.max x y)). apply elem_of_cons in IH as [->|Hin].
  - destruct (Z.max_spec x y) as [[_ ->]|[_ ->]];
      [right; left | left].
  - right. by right.
Qed.

(** [a.max()] is the greatest element of [a]. *)
Lemma max_spec a (m : Z) :
  Np.max a = Ok m → m ∈ data a ∧ ∀ x, x ∈ data a → x ≤ m.
Proof.
  unfold Np.max. destruct (data a) as [|x xs]; [done|]. intros [= <-].
  split; [apply foldl_max_elem|].
  intros y [->|Hin]%elem_of_cons;
    [apply foldl_max_ge | by apply foldl_max_upper].
Qed.

Lemma max_defined a : data a ≠ [] → ∃ m, Np.max a = Ok m.
Proof. unfold Np.max. destruct (data a); [done|eauto]. Qed.

End ArrayFacts.

(** ** The empty-slice filter *)

Section EmptySliceFilter.

Implicit Types (image : ndarray) (t : Z) (z d : nat) (zs : list nat).

Lemma peak_max image z :
  data (plane image z) ≠ [] → Np.max (plane image z) = Ok (peak image z).
Proof.
  intros [m Hm]%max_defined. unfold peak. by rewrite Hm.
Qed.

(** The loop appends each position to one of the two lists, in the order
    of the visit. *)
Lemma analyse_filter image t d rest zs non_empty empty :
  shape image = d :: rest →
  Forall (λ z, (z < d)%nat ∧ data (plane image z) ≠ []) zs →
  Smart.analyse image t zs non_empty empty =
    Ok (non_empty ++ filter (λ z, t < peak image z) zs,
        empty ++ filter (λ z, ¬ t < peak image z) zs).
Proof.
  intros Hs Hzs. revert non_empty empty.
  induction Hzs as [|z zs [Hz Hdata] _ IH]; intros non_empty empty; simpl.
  { by rewrite !app_nil_r. }
  rewrite (getitem_in_range _ _ _ _ Hs Hz). simpl.
  rewrite (peak_max _ _ Hdata). simpl.
  rewrite !filter_cons. case_bool_decide.
  - rewrite decide_True, decide_False by tauto.
    by rewrite IH, <-app_assoc.
  - rewrite decide_False, decide_True by tauto.
    by rewrite IH, <-app_assoc.
Qed.

Lemma filter_seq_sorted (Q : nat → Prop) `{!∀ z, Decision (Q z)} (a n : nat) :
  StronglySorted lt (filter Q (seq a n)).
Proof.
  revert a. induction n as [|n IH]; intros a; simpl; [constructor|].
  rewrite filter_cons. case_decide; [|apply IH].
  constructor; [apply IH|]. apply Forall_forall.
  intros z [_ Hz%elem_of_seq]%list_elem_of_filter. lia.
Qed.

(** In a well-formed array every slice is as long as the trailing shape
    says, hence has elements when that size is positive. *)
Lemma plane_length image d rest z :
  shape image = d :: rest → wf image → (z < d)%nat →
  length (data (plane image z)) = product rest.
Proof.
  intros Hs Hwf Hz. unfold wf in Hwf. rewrite Hs in Hwf. simpl in Hwf.
  unfold plane. rewrite Hs. simpl. rewrite length_take, length_drop. nia.
Qed.

Lemma plane_inhabited image d rest z :
  shape image = d :: rest → wf image → (0 < product rest)%nat → (z < d)%nat →
  data (plane image z) ≠ [].
Proof.
  intros Hs Hwf Hpos Hz Hnil.
  pose proof (plane_length _ _ _ _ Hs Hwf Hz) as Hlen.
  rewrite Hnil in Hlen. simpl in Hlen. lia.
Qed.

(** The loop over [range(depth)]: what it returns, and the first facts
    about the positions it keeps. *)
Lemma analyse_seq image t d rest :
  shape image = d :: rest →
  (∀ z, (z < d)%nat → data (plane image z) ≠ []) →
  let non_empty := filter (λ z, t < peak image z) (seq 0 d) in
  let empty := filter (λ z, ¬ t < peak image z) (seq 0 d) in
  Smart.analyse image t (seq 0 d) [] [] = Ok (non_empty, empty) ∧
  StronglySorted lt non_empty ∧
  Forall (λ z, (z < d)%nat) non_empty ∧
  (∀ z, z ∈ non_empty ↔
        (z < d)%nat ∧ ∃ m, Np.max (plane image z) = Ok m ∧ t < m).
Proof.
  intros Hs Hdata non_empty empty.
  assert (Forall (λ z, (z < d)%nat ∧ data (plane image z) ≠ []) (seq 0 d))
    as Hall.
  { apply Forall_forall. intros z Hz%elem_of_seq. split; [lia|].
    apply Hdata. lia. }
  split; [by rewrite (analyse_filter _ _ _ _ _ _ _ Hs Hall)|].
  split; [apply filter_seq_sorted|]. split.
  - apply Forall_forall.
    intros z [_ Hz%elem_of_seq]%list_elem_of_filter. lia.
  - intros z. unfold non_empty. rewrite list_elem_of_filter, elem_of_seq.
    split.
    + intros [Ht Hz]. split; [lia|]. exists (peak image z).
      split; [|done]. apply peak_max, Hdata. lia.
    + intros [Hz (m & Hm & Ht)].
      rewrite (peak_max _ _ (Hdata z Hz)) in Hm. injection Hm as <-.
      split; [done|lia].
Qed.

End EmptySliceFilter.

(** C3: the loop of the filter ends on every stack whose slices have a
    maximum; slice [z] is kept exactly when its maximum is strictly above
    the threshold and set aside exactly when it is at most the threshold;
    the kept positions are ascending and below the depth; on a [(5, 4, 4)]
    stack whose slices 0, 2, 4 peak at 50 and 1, 3 at 0, the threshold 10
    keeps [[0; 2; 4]]; the default threshold is 10. *)
Theorem C3_empty_slice_filter (image : ndarray) (t : Z) (d : nat)
    (rest : list nat) :
  shape image = d :: rest →
  (∀ z, (z < d)%nat → data (plane image z) ≠ []) →
  ∃ non_empty empty,
    Smart.analyse image t (seq 0 d) [] [] = Ok (non_empty, empty) ∧
    (∀ z, z ∈ non_empty ↔
          (z < d)%nat ∧ ∃ m, Np.max (plane image z) = Ok m ∧ t < m) ∧
    (∀ z, z ∈ empty ↔
          (z < d)%nat ∧ ∃ m, Np.max (plane image z) = Ok m ∧ m ≤ t) ∧
    StronglySorted lt non_empty ∧
    Forall (λ z, (z < d)%nat) non_empty ∧
    (shape image = [5; 4; 4]%nat → t = 10 →
     (∀ z, z ∈ [0; 2; 4]%nat → Np.max (plane image z) = Ok 50) →
     (∀ z, z ∈ [1; 3]%nat → Np.max (plane image z) = Ok 0) →
     non_empty = [0; 2; 4]%nat) ∧
    Smart.default_empty_threshold = 10.
Proof.
  intros Hs Hdata.
  assert (Forall (λ z, (z < d)%nat ∧ data (plane image z) ≠ []) (seq 0 d))
    as Hall.
  { apply Forall_forall. intros z Hz%elem_of_seq. split; [lia|].
    apply Hdata. lia. }
  eexists _, _. split; [apply (analyse_filter _ _ _ _ _ _ _ Hs Hall)|].
  simpl.
  assert (∀ z, (z < d)%nat → ∀ m, Np.max (plane image z) = Ok m ↔
                                   m = peak image z) as Hpeak.
  { intros z Hz m. rewrite (peak_max _ _ (Hdata z Hz)). naive_solver. }
  repeat apply conj.
  - intros z. rewrite list_elem_of_filter, elem_of_seq. split.
    + intros [Ht Hz]. split; [lia|]. exists (peak image z).
      split; [|done]. apply Hpeak; [lia|done].
    + intros [Hz (m & Hm & Ht)]. apply Hpeak in Hm as ->; [|done].
      split; [done|lia].
  - intros z. rewrite list_elem_of_filter, elem_of_seq. split.
    + intros [Ht Hz]. split; [lia|]. exists (peak image z).
      split; [|lia]. apply Hpeak; [lia|done].
    + intros [Hz (m & Hm & Ht)]. apply Hpeak in Hm as ->; [|done].
      split; [lia|lia].
  - apply filter_seq_sorted.
  - apply Forall_forall.
    intros z [_ Hz%elem_of_seq]%list_elem_of_filter. lia.
  - intros Hs' Ht Hhigh Hlow. rewrite Hs in Hs'. injection Hs' as Hd _.
    clear Hpeak Hall Hdata Hs. subst d t.
    assert (∀ z, z ∈ [0; 2; 4]%nat → peak image z = 50) as Hp50.
    { intros z Hz. unfold peak. by rewrite (Hhigh z Hz). }
    assert (∀ z, z ∈ [1; 3]%nat → peak image z = 0) as Hp0.
    { intros z Hz. unfold peak. by rewrite (Hlow z Hz). }
    simpl. rewrite !filter_cons, filter_nil.
    rewrite (Hp50 0%nat), (Hp50 2%nat), (Hp50 4%nat) by set_solver.
    rewrite (Hp0 1%nat), (Hp0 3%nat) by set_solver.
    done.
  - done.
Qed.

(** The stack of [Samples.striped] at threshold 10. *)
Lemma C3_empty_slice_filter_witness :
  shape Samples.striped = [5; 4; 4]%nat ∧
  (∀ z, (z < 5)%nat → data (plane Samples.striped z) ≠ []) ∧
  ∃ non_empty empty,
    Smart.analyse Samples.striped 10 (seq 0 5) [] [] = Ok (non_empty, empty) ∧
    non_empty = [0; 2; 4]%nat.
Proof.
  assert (∀ z, (z < 5)%nat → data (plane Samples.striped z) ≠ []) as Hdata.
  { intros z Hz.
    do 5 (destruct z as [|z]; [vm_compute; discriminate|]). lia. }
  split; [reflexivity|]. split; [exact Hdata|].
  destruct (C3_empty_slice_filter Samples.striped 10 5 [4; 4]%nat
              eq_refl Hdata)
    as (non_empty & empty & Hrun & _ & _ & _ & _ & Hsample & _).
  exists non_empty, empty. split; [exact Hrun|].
  apply Hsample; [reflexivity|reflexivity| |].
  - intros z Hz. repeat (apply elem_of_cons in Hz as [->|Hz]; [reflexivity|]).
    by apply elem_of_nil in Hz.
  - intros z Hz. repeat (apply elem_of_cons in Hz as [->|Hz]; [reflexivity|]).
    by apply elem_of_nil in Hz.
Defined.

Section Fallback.

Implicit Types (image : ndarray) (t : Z) (z d : nat) (zs : list nat).

Lemma filter_none {A} (Q : A → Prop) `{!∀ x, Decision (Q x)} (l : list A) :
  Forall (λ x, ¬ Q x) l → filter Q l = [].
Proof.
  induction 1 as [|x l Hx _ IH]; [done|].
  by rewrite filter_cons, decide_False.
Qed.

Lemma filter_all {A} (Q : A → Prop) `{!∀ x, Decision (Q x)} (l : list A) :
  Forall Q l → filter Q l = l.
Proof.
  induction 1 as [|x l Hx _ IH]; [done|].
  by rewrite filter_cons, decide_True, IH.
Qed.

(** When no slice is above the threshold, the loop keeps nothing and sets
    every position aside. *)
Lemma analyse_all_empty image t d rest :
  shape image = d :: rest →
  (∀ z, (z < d)%nat → ∃ m, Np.max (plane image z) = Ok m ∧ m ≤ t) →
  Smart.analyse image t (seq 0 d) [] [] = Ok ([], seq 0 d).
Proof.
  intros Hs Hmax.
  assert (∀ z, (z < d)%nat →
            data (plane image z) ≠ [] ∧ peak image z ≤ t) as Hz.
  { intros z Hlt. destruct (Hmax z Hlt) as (m & Hm & Hle). split.
    - intros Hnil. unfold Np.max in Hm. by rewrite Hnil in Hm.
    - unfold peak. by rewrite Hm. }
  rewrite (analyse_filter _ _ _ _ _ _ _ Hs).
  - rewrite filter_none, filter_all; [done| |];
      apply Forall_forall; intros z Hin%elem_of_seq;
      destruct (Hz z) as [_ Hle]; lia.
  - apply Forall_forall. intros z Hin%elem_of_seq.
    split; [lia|]. apply Hz. lia.
Qed.

(** The filter block in that case: the image comes back unchanged and
    five lines are printed, the last one being the warning. *)
Lemma filter_empty_slices_fallback image t d rest (w : world) :
  shape image = d :: rest →
  (∀ z, (z < d)%nat → ∃ m, Np.max (plane image z) = Ok m ∧ m ≤ t) →
  Smart.filter_empty_slices image t w =
    (Ok image,
     World (fs w) (written w)
       (stdout w ++
        [ "Analysis:";
          "  Total Z-slices: " +:+ pretty d;
          "  Non-empty slices: " +:+ pretty 0%nat +:+
            " (max > " +:+ str_int t +:+ ")";
          "  Empty slices: " +:+ pretty d;
          "Warning: No non-empty slices found, using all data" ])).
Proof.
  intros Hs Hmax.
  pose proof (analyse_all_empty _ _ _ _ Hs Hmax) as Hloop.
  unfold Smart.filter_empty_slices, bind, lift, shape0.
  rewrite Hs, Hloop. simpl. rewrite length_seq.
  unfold ret. by rewrite <-!app_assoc.
Qed.

(** The whole conversion in that case, the collaborators being willing. *)
Lemma convert_smart_fallback (P : platform) (ims_path tif_path : string)
    t (kwargs : gmap string (option Z)) (w : world) (root : H5.node)
    image d rest :
  fs w !! ims_path = Some (ImsFile root) →
  Smart.read_image root kwargs = Ok image →
  shape image = d :: rest →
  (∀ z, (z < d)%nat → ∃ m, Np.max (plane image z) = Ok m ∧ m ≤ t) →
  os_path_dirname P tif_path ≠ "" →
  makedirs_ok P (os_path_dirname P tif_path) = true →
  imwrite_ok P tif_path image plain_options = true →
  Smart.convert_ims_to_tif_smart P ims_path tif_path t true kwargs w =
    (Ok true,
     World (<[tif_path := TifFile (Tif image plain_options)]> (fs w))
       (written w ++ [(tif_path, Tif image plain_options)])
       (stdout w ++ fallback_lines ims_path tif_path image t d)).
Proof.
  intros Hopen Hread Hs Hmax Hdir Hmk Henc.
  unfold Smart.convert_ims_to_tif_smart, try_except, Smart.convert_body.
  unfold bind at 1. unfold h5_open. rewrite Hopen.
  unfold bind at 1. unfold print at 1. cbv beta iota.
  unfold bind at 1. unfold lift at 1. rewrite Hread.
  unfold bind at 1. unfold print at 1. cbv beta iota.
  unfold bind at 1. unfold print at 1. cbv beta iota.
  unfold bind at 1.
  rewrite (filter_empty_slices_fallback _ _ _ _ _ Hs Hmax).
  unfold bind, makedirs, imwrite, lift, print, ret, shape0, fallback_lines.
  rewrite (bool_decide_false _ Hdir), Hmk, Henc, Hs. simpl.
  by rewrite <-!app_assoc.
Qed.

End Fallback.

(** C4, amended: when every slice's maximum is at most the threshold, the
    filter block hands back the image it was given and only prints a
    warning; the conversion then encodes that very image, prints no error
    line and returns [True]; the depth of the output is the depth of the
    input, hence positive whenever the input has a slice. *)
Theorem C4_fallback_to_unfiltered (P : platform) (ims_path tif_path : string)
    (t : Z) (kwargs : gmap string (option Z)) (w : world) (root : H5.node)
    (image : ndarray) (d : nat) (rest : list nat) :
  fs w !! ims_path = Some (ImsFile root) →
  Smart.read_image root kwargs = Ok image →
  shape image = d :: rest →
  (∀ z, (z < d)%nat → ∃ m, Np.max (plane image z) = Ok m ∧ m ≤ t) →
  os_path_dirname P tif_path ≠ "" →
  makedirs_ok P (os_path_dirname P tif_path) = true →
  imwrite_ok P tif_path image plain_options = true →
  let run := Smart.convert_ims_to_tif_smart P ims_path tif_path t true
               kwargs w in
  (∀ w0, ∃ w1, Smart.filter_empty_slices image t w0 = (Ok image, w1) ∧
      "Warning: No non-empty slices found, using all data" ∈ stdout w1) ∧
  run.1 = Ok true ∧
  written run.2 = written w ++ [(tif_path, Tif image plain_options)] ∧
  stdout run.2 = stdout w ++ fallback_lines ims_path tif_path image t d ∧
  shape0 image = Ok d ∧
  ((0 < d)%nat → shape0 image ≠ Ok 0%nat).
Proof.
  intros Hopen Hread Hs Hmax Hdir Hmk Henc run.
  assert (shape0 image = Ok d) as Hd by (unfold shape0; by rewrite Hs).
  subst run.
  rewrite (convert_smart_fallback _ _ _ _ _ _ _ _ _ _
             Hopen Hread Hs Hmax Hdir Hmk Henc).
  repeat apply conj; try done.
  - intros w0. eexists.
    split; [apply (filter_empty_slices_fallback _ _ _ _ _ Hs Hmax)|].
    simpl. apply elem_of_app. right.
    do 4 apply list_elem_of_further. apply list_elem_of_here.
  - intros Hpos. rewrite Hd. intros [= ->]. lia.
Qed.

(** The three dark slices of [Samples.dark], read from a container on disk
    at threshold 10. *)
Lemma C4_fallback_to_unfiltered_witness :
  (Smart.convert_ims_to_tif_smart Samples.posix "in/dark.ims"
     "out/dark.tif" 10 true ∅
     (Samples.disk "in/dark.ims"
        (Samples.container Samples.dark Samples.dark))).1 = Ok true ∧
  written (Smart.convert_ims_to_tif_smart Samples.posix "in/dark.ims"
     "out/dark.tif" 10 true ∅
     (Samples.disk "in/dark.ims"
        (Samples.container Samples.dark Samples.dark))).2
  = [("out/dark.tif", Tif Samples.dark plain_options)] ∧
  shape0 Samples.dark = Ok 3%nat.
Proof.
  assert (∀ z, (z < 3)%nat →
            ∃ m, Np.max (plane Samples.dark z) = Ok m ∧ m ≤ 10) as Hmax.
  { intros z Hz.
    do 3 (destruct z as [|z];
          [eexists; split; [reflexivity|vm_compute; discriminate]|]).
    lia. }
  destruct (C4_fallback_to_unfiltered Samples.posix "in/dark.ims"
              "out/dark.tif" 10 ∅
              (Samples.disk "in/dark.ims"
                 (Samples.container Samples.dark Samples.dark))
              (Samples.container Samples.dark Samples.dark)
              Samples.dark 3 [2; 2]%nat)
    as (_ & Hret & Hwritten & _ & Hdepth & _).
  - reflexivity.
  - reflexivity.
  - reflexivity.
  - exact Hmax.
  - vm_compute. discriminate.
  - reflexivity.
  - reflexivity.
  - split; [exact Hret|]. split; [exact Hwritten|exact Hdepth].
Defined.

(** C4 as stated fails on a stack without slices: every slice's maximum is
    at most the threshold (there is none); when the encoder takes the
    array, the conversion succeeds and what it encodes has depth zero; when
    the encoder refuses it, the conversion ends on an error line and
    returns [False]. *)
Lemma C4_counterexample :
  wf Samples.hollow ∧
  shape0 Samples.hollow = Ok 0%nat ∧
  (∀ z, (z < 0)%nat →
     ∃ m, Np.max (plane Samples.hollow z) = Ok m ∧ m ≤ 10) ∧
  (Smart.convert_ims_to_tif_smart Samples.posix "in/hollow.ims"
     "out/hollow.tif" 10 true ∅
     (Samples.disk "in/hollow.ims"
        (Samples.container Samples.hollow Samples.hollow))).1 = Ok true ∧
  written (Smart.convert_ims_to_tif_smart Samples.posix "in/hollow.ims"
     "out/hollow.tif" 10 true ∅
     (Samples.disk "in/hollow.ims"
        (Samples.container Samples.hollow Samples.hollow))).2
  = [("out/hollow.tif", Tif Samples.hollow plain_options)] ∧
  (Smart.convert_ims_to_tif_smart Samples.broken_encoder "in/hollow.ims"
     "out/hollow.tif" 10 true ∅
     (Samples.disk "in/hollow.ims"
        (Samples.container Samples.hollow Samples.hollow))).1 = Ok false ∧
  last (stdout (Smart.convert_ims_to_tif_smart Samples.broken_encoder
     "in/hollow.ims" "out/hollow.tif" 10 true ∅
     (Samples.disk "in/hollow.ims"
        (Samples.container Samples.hollow Samples.hollow))).2)
  = Some "Error: cannot write out/hollow.tif".
Proof.
  split; [reflexivity|]. split; [reflexivity|].
  split; [intros z Hz; lia|]. repeat apply conj; reflexivity.
Qed.

(** ** The filtered stack *)

Section FilteredStack.

Implicit Types (image : ndarray) (t : Z) (z d : nat) (zs : list nat).

(** Cutting the concatenation of equally long chunks gives the chunks
    back. *)
Lemma concat_chunk {A} (chunks : list (list A)) (sz j : nat) (c : list A) :
  Forall (λ c, length c = sz) chunks →
  chunks !! j = Some c →
  take sz (drop (j * sz) (concat chunks)) = c.
Proof.
  intros Hall. revert j c.
  induction Hall as [|c0 chunks Hlen _ IH]; intros j c; [done|].
  destruct j as [|j]; simpl.
  - intros [= ->]. by rewrite drop_0, take_app_length'.
  - intros Hj. rewrite drop_app_add' by done. by apply IH.
Qed.

(** Stacking positions that are all below the depth. *)
Lemma take_planes_in_range image d rest zs :
  shape image = d :: rest →
  Forall (λ z, (z < d)%nat) zs →
  take_planes image zs = Ok (stack image zs).
Proof.
  intros Hs Hzs. unfold take_planes, stack. rewrite Hs.
  destruct (list_find _ zs) as [[i z]|] eqn:Hfind; [|done].
  apply list_find_Some in Hfind as (Hi & Hbad & _).
  apply list_elem_of_lookup_2 in Hi.
  rewrite Forall_forall in Hzs. specialize (Hzs z Hi). lia.
Qed.

Lemma length_stack image zs (sz : nat) :
  Forall (λ z, length (data (plane image z)) = sz) zs →
  length (data (stack image zs)) = (length zs * sz)%nat.
Proof.
  unfold stack. cbn [data].
  induction 1 as [|z zs Hz _ IH]; [done|].
  rewrite fmap_cons, concat_cons, length_app, Hz, IH. simpl. lia.
Qed.

Lemma planes_length image d rest zs :
  shape image = d :: rest → wf image →
  Forall (λ z, (z < d)%nat) zs →
  Forall (λ z, length (data (plane image z)) = product rest) zs.
Proof.
  intros Hs Hwf Hzs. eapply Forall_impl; [exact Hzs|].
  intros z Hz. by eapply plane_length.
Qed.

Lemma stack_wf image d rest zs :
  shape image = d :: rest → wf image →
  Forall (λ z, (z < d)%nat) zs →
  wf (stack image zs).
Proof.
  intros Hs Hwf Hzs. unfold wf.
  rewrite (length_stack _ _ (product rest)) by by eapply planes_length.
  unfold stack. cbn [shape]. rewrite Hs. simpl. lia.
Qed.

Lemma plane_of_stack image d rest zs j z :
  shape image = d :: rest → wf image →
  Forall (λ z, (z < d)%nat) zs →
  zs !! j = Some z →
  plane (stack image zs) j = plane image z.
Proof.
  intros Hs Hwf Hzs Hj. unfold plane at 1, stack. cbn [data shape dtype tail].
  rewrite (concat_chunk _ _ _ (data (plane image z))).
  - unfold plane. by rewrite Hs.
  - apply Forall_fmap. rewrite Hs. cbn [tail].
    by eapply planes_length.
  - by rewrite list_lookup_fmap, Hj.
Qed.

Lemma plane_beyond_stack image d rest zs j :
  shape image = d :: rest → wf image →
  Forall (λ z, (z < d)%nat) zs →
  (length zs ≤ j)%nat →
  data (plane (stack image zs) j) = [].
Proof.
  intros Hs Hwf Hzs Hj. apply length_zero_iff_nil.
  unfold plane. cbn [data]. rewrite length_take, length_drop.
  rewrite (length_stack _ _ (product rest)) by by eapply planes_length.
  unfold stack. cbn [shape tail]. rewrite Hs. cbn [tail]. nia.
Qed.

End FilteredStack.

(** C9: on a well-formed stack with a slice above the threshold, the filter
    block returns the stack of the kept slices: its depth is the number of
    kept positions, these are ascending, and its slice [j] is the slice of
    the input at the [j]-th kept position, with the same element type,
    shape and values; nothing but the console changes. *)
Theorem C9_filtered_stack_keeps_slices (image : ndarray) (t : Z) (d : nat)
    (rest : list nat) (w : world) :
  shape image = d :: rest →
  wf image →
  (0 < product rest)%nat →
  (∃ z m, (z < d)%nat ∧ Np.max (plane image z) = Ok m ∧ t < m) →
  ∃ non_empty empty filtered w',
    Smart.analyse image t (seq 0 d) [] [] = Ok (non_empty, empty) ∧
    non_empty ≠ [] ∧
    StronglySorted lt non_empty ∧
    Smart.filter_empty_slices image t w = (Ok filtered, w') ∧
    fs w' = fs w ∧ written w' = written w ∧
    dtype filtered = dtype image ∧
    shape filtered = length non_empty :: rest ∧
    wf filtered ∧
    (∀ j z, non_empty !! j = Some z → plane filtered j = plane image z) ∧
    (∀ j, (length non_empty ≤ j)%nat → data (plane filtered j) = []).
Proof.
  intros Hs Hwf Hpos (z0 & m0 & Hz0 & Hm0 & Ht0).
  assert (∀ z, (z < d)%nat → data (plane image z) ≠ []) as Hdata.
  { intros z Hz. by eapply plane_inhabited. }
  destruct (analyse_seq image t d rest Hs Hdata)
    as (Hrun & Hsorted & Hbound & Hin).
  set (non_empty := filter (λ z, t < peak image z) (seq 0 d)) in *.
  set (empty := filter (λ z, ¬ t < peak image z) (seq 0 d)) in *.
  assert (non_empty ≠ []) as Hne.
  { intros Hnil. assert (z0 ∈ non_empty) as Hz by (apply Hin; eauto).
    rewrite Hnil in Hz. by apply elem_of_nil in Hz. }
  pose proof (take_planes_in_range _ _ _ _ Hs Hbound) as Htake.
  exists non_empty, empty, (stack image non_empty).
  eexists. split; [done|]. split; [done|]. split; [done|]. split.
  { unfold Smart.filter_empty_slices, bind, lift, shape0, print, ret.
    rewrite Hs, Hrun. simpl. rewrite (bool_decide_true _ Hne), Htake.
    reflexivity. }
  cbn [fs written]. repeat apply conj; try done.
  - unfold stack. cbn [shape]. by rewrite Hs.
  - by eapply stack_wf.
  - intros j z Hj. by eapply plane_of_stack.
  - intros j Hj. by eapply plane_beyond_stack.
Qed.

(** [Samples.striped] at threshold 10: the second slice of the output is
    slice 2 of the input. *)
Lemma C9_filtered_stack_keeps_slices_witness :
  wf Samples.striped ∧
  ∃ filtered w',
    Smart.filter_empty_slices Samples.striped 10 (World ∅ [] [])
      = (Ok filtered, w') ∧
    shape filtered = [3; 4; 4]%nat ∧
    plane filtered 1 = plane Samples.striped 2.
Proof.
  split; [reflexivity|].
  destruct (C9_filtered_stack_keeps_slices Samples.striped 10 5 [4; 4]%nat
              (World ∅ [] []))
    as (non_empty & empty & filtered & w' & Hrun & _ & _ & Hblock & _ & _ &
        _ & Hshape & _ & Hplane & _).
  - reflexivity.
  - reflexivity.
  - vm_compute. lia.
  - exists 0%nat, 50. split; [lia|]. split; [reflexivity|lia].
  - injection Hrun as <- _.
    exists filtered, w'. split; [exact Hblock|]. split; [exact Hshape|].
    apply Hplane. reflexivity.
Defined.

(** ** The Z slice selection *)

(** C10: on a stack of depth [d] with at least three dimensions, a selector
    [z] with [-d ≤ z < 0] yields the slice at position [d + z]; the check of
    the script raises its [ValueError] exactly for [d ≤ z]; a selector below
    [-d] is refused by the array itself. *)
Theorem C10_negative_z_slice (image : ndarray) (d : nat) (rest : list nat)
    (z : Z) :
  shape image = d :: rest →
  (3 ≤ ndim image)%nat →
  (- Z.of_nat d ≤ z < 0 →
     Ims2tif.select_z_slice image (Some z)
       = Ok (plane image (Z.to_nat (Z.of_nat d + z)))) ∧
  (0 ≤ z < Z.of_nat d →
     Ims2tif.select_z_slice image (Some z) = Ok (plane image (Z.to_nat z))) ∧
  (Z.of_nat d ≤ z →
     Ims2tif.select_z_slice image (Some z)
       = Raise (ValueError ("Z slice " +:+ str_int z +:+
           " not available. Max: " +:+ str_int (Z.of_nat d - 1)))) ∧
  (z < - Z.of_nat d →
     Ims2tif.select_z_slice image (Some z)
       = Raise (IndexError ("index " +:+ str_int z +:+
           " is out of bounds for axis 0 with size " +:+ pretty d))) ∧
  (∀ msg, Ims2tif.select_z_slice image (Some z) = Raise (ValueError msg) →
     Z.of_nat d ≤ z).
Proof.
  intros Hs Hdim. unfold Ims2tif.select_z_slice, shape0, getitem.
  rewrite (bool_decide_true _ Hdim), Hs. cbn [and_then].
  repeat apply conj.
  - intros Hz. decide_cases.
  - intros Hz. decide_cases.
  - intros Hz. decide_cases.
  - intros Hz. decide_cases.
  - intros msg. decide_cases.
Qed.

(** The last slice of [Samples.striped], asked for as [-1]. *)
Lemma C10_negative_z_slice_witness :
  Ims2tif.select_z_slice Samples.striped (Some (-1))
    = Ok (plane Samples.striped 4).
Proof.
  destruct (C10_negative_z_slice Samples.striped 5 [4; 4]%nat (-1))
    as (Hneg & _).
  - reflexivity.
  - vm_compute. lia.
  - apply Hneg. lia.
Defined.

(** ** The export modes *)

Section SliceExport.

Context (P : platform).

Implicit Types (image : ndarray) (z d : nat) (zs : list nat) (w : world).

Lemma string_length_app (s1 s2 : string) :
  String.length (s1 +:+ s2) = (String.length s1 + String.length s2)%nat.
Proof.
  induction s1 as [|c s1 IH]; [done|]. cbn. rewrite <-IH. reflexivity.
Qed.

Lemma length_zeros (n : nat) : String.length (zeros n) = n.
Proof.
  induction n as [|n IH]; [done|]. rewrite <-IH at 2. reflexivity.
Qed.

(** The field [{z:03d}] is at least three characters wide and longer only
    when the number itself is. *)
Lemma format_03d_width z :
  String.length (format_03d z) = Nat.max 3 (String.length (pretty z)).
Proof. unfold format_03d. rewrite string_length_app, length_zeros. lia. Qed.

(** The loop writes one file per position, in order, while the encoder
    takes them. *)
Lemma export_slices_run image d rest output_dir base_name zs slice_data w :
  shape image = d :: rest →
  Forall (λ z, (z < d)%nat) zs →
  Forall (λ z, imwrite_ok P
                 (path_join P output_dir (Advanced.slice_name base_name z))
                 (plane image z) plain_options = true) zs →
  Advanced.export_slices P image output_dir base_name zs slice_data w =
    (Ok (from_option (λ z, Some (plane image z)) slice_data (last zs)),
     World (put_files (slice_files P image output_dir base_name zs) (fs w))
       (written w ++ slice_files P image output_dir base_name zs)
       (stdout w)).
Proof.
  intros Hs Hzs. revert slice_data w.
  induction Hzs as [|z zs Hz _ IH]; intros slice_data w Hok.
  { simpl. unfold ret. rewrite app_nil_r. by destruct w. }
  apply Forall_cons in Hok as [Hz_ok Hok].
  cbn [Advanced.export_slices]. unfold bind at 1, lift at 1.
  rewrite (getitem_in_range _ _ _ _ Hs Hz).
  unfold bind at 1, imwrite at 1. rewrite Hz_ok.
  rewrite IH by done. cbn [fs written stdout].
  unfold slice_files. rewrite fmap_cons. cbn [put_files foldl fst snd].
  rewrite <-app_assoc.
  assert (from_option (λ z0, Some (plane image z0)) (Some (plane image z))
            (last zs)
          = from_option (λ z0, Some (plane image z0)) slice_data
              (last (z :: zs))) as ->.
  { destruct zs as [|z' zs']; [done|]. rewrite last_cons_cons.
    destruct (last (z' :: zs')) eqn:Hlast; [done|].
    by apply last_None in Hlast. }
  reflexivity.
Qed.

End SliceExport.

(** C7: with a directory that can be created and an encoder that takes the
    slices, the per-slice export of a stack of depth [d] encodes exactly
    [d] files, the [z]-th being slice [z] of the array it was given under
    the name [<stem>_z<index>.tif], the index in decimal, zero-filled to
    three digits at least; a stack of depth 3 gives the indices 000, 001
    and 002. *)
Theorem C7_one_file_per_slice (P : platform) (image : ndarray)
    (output_base ims_path : string) (w : world) (d : nat) (rest : list nat) :
  let base_name := path_stem P ims_path in
  let output_dir :=
    path_join P (path_parent P output_base) (base_name +:+ "_slices") in
  let run := Advanced._export_individual_slices P image output_base ims_path
               w in
  let files := slice_files P image output_dir base_name (seq 0 d) in
  shape image = d :: rest →
  makedirs_ok P output_dir = true →
  (∀ z, (z < d)%nat →
     imwrite_ok P (path_join P output_dir (Advanced.slice_name base_name z))
       (plane image z) plain_options = true) →
  written run.2 = written w ++ files ∧
  length files = d ∧
  (∀ z, (z < d)%nat →
     files !! z =
       Some (path_join P output_dir
               (base_name +:+ "_z" +:+ format_03d z +:+ ".tif"),
             Tif (plane image z) plain_options)) ∧
  (∀ z, (3 ≤ String.length (format_03d z))%nat ∧
        ∃ k, format_03d z = zeros k +:+ pretty z) ∧
  (d = 3%nat →
     files =
       [ (path_join P output_dir (base_name +:+ "_z000.tif"),
          Tif (plane image 0) plain_options);
         (path_join P output_dir (base_name +:+ "_z001.tif"),
          Tif (plane image 1) plain_options);
         (path_join P output_dir (base_name +:+ "_z002.tif"),
          Tif (plane image 2) plain_options) ]) ∧
  ((0 < d)%nat → run.1 = Ok true).
Proof.
  intros base_name output_dir run files Hs Hmk Henc.
  assert (Forall (λ z, (z < d)%nat) (seq 0 d)) as Hrange.
  { apply Forall_forall. intros z Hz%elem_of_seq. lia. }
  assert (Forall (λ z, imwrite_ok P
            (path_join P output_dir (Advanced.slice_name base_name z))
            (plane image z) plain_options = true) (seq 0 d)) as Hok.
  { eapply Forall_impl; [exact Hrange|]. intros z Hz. by apply Henc. }
  pose proof (export_slices_run P image d rest output_dir base_name (seq 0 d)
                None) as Hloop.
  assert (run =
            (match last (seq 0 d) with
             | Some _ => Ok true
             | None => Raise (UnboundLocalError
                 "cannot access local variable 'slice_data' where it is not associated with a value")
             end,
             World (put_files files (fs w)) (written w ++ files)
               (stdout w ++
                ["Exporting " +:+ pretty d +:+ " individual Z-slices..."] ++
                ["   Saved " +:+ pretty d +:+ " files in: " +:+ output_dir] ++
                match last (seq 0 d) with
                | Some z => ["   Each slice shape: " +:+
                               repr_shape (shape (plane image z))]
                | None => []
                end))) as Hrun.
  { subst run. unfold Advanced._export_individual_slices.
    fold base_name. fold output_dir.
    unfold bind at 1, Advanced.mkdir. rewrite Hmk. unfold ret at 1.
    unfold bind at 1, lift at 1, shape0. rewrite Hs.
    unfold bind at 1, print at 1. cbv beta iota.
    unfold bind at 1. rewrite Hloop by done. cbn [fs written stdout].
    unfold bind at 1, print at 1. cbv beta iota. cbn [fs written stdout].
    destruct (last (seq 0 d)) as [z|] eqn:Hlast; cbn [from_option].
    - unfold bind, print, ret. cbn [fs written stdout].
      by rewrite <-!app_assoc.
    - unfold raise. by rewrite <-!app_assoc, app_nil_r. }
  rewrite Hrun. cbn [fst snd written]. repeat apply conj; try done.
  - subst files. unfold slice_files. by rewrite length_fmap, length_seq.
  - intros z Hz. subst files. unfold slice_files.
    rewrite list_lookup_fmap, lookup_seq_lt by done. reflexivity.
  - intros z. split; [|by eexists]. rewrite format_03d_width. lia.
  - intros ->. reflexivity.
  - intros Hd. destruct (last (seq 0 d)) eqn:Hlast; [done|].
    apply last_None in Hlast. destruct d; [lia|done].
Qed.

(** The three slices of [Samples.dark], exported next to [out/x]. *)
Lemma C7_one_file_per_slice_witness :
  written (Advanced._export_individual_slices Samples.posix Samples.dark
             "out/x" "in/dark.ims" (World ∅ [] [])).2
  = [ ("out/dark_slices/dark_z000.tif",
       Tif (plane Samples.dark 0) plain_options);
      ("out/dark_slices/dark_z001.tif",
       Tif (plane Samples.dark 1) plain_options);
      ("out/dark_slices/dark_z002.tif",
       Tif (plane Samples.dark 2) plain_options) ].
Proof.
  destruct (C7_one_file_per_slice Samples.posix Samples.dark "out/x"
              "in/dark.ims" (World ∅ [] []) 3 [2; 2]%nat)
    as (Hwritten & _ & _ & _ & Hthree & _).
  - reflexivity.
  - reflexivity.
  - intros z Hz. reflexivity.
  - rewrite Hwritten, Hthree by reflexivity. reflexivity.
Defined.

Lemma unit_text_bytes :
  bytes_of Advanced.unit_text = [194; 172; 194; 181; 109]%nat.
Proof. reflexivity. Qed.

Lemma micrometre_bytes : bytes_of micrometre = [194; 181; 109]%nat.
Proof. reflexivity. Qed.

(** The OME export hands the array to the encoder once, with the metadata
    dictionary and LZW compression. *)
Lemma export_ome_tiff_run (P : platform) (image : ndarray)
    (output_path : string) (w : world) :
  os_path_dirname P output_path ≠ "" →
  makedirs_ok P (os_path_dirname P output_path) = true →
  imwrite_ok P output_path image Advanced.ome_options = true →
  Advanced._export_ome_tiff P image output_path w =
    (Ok true,
     World (<[output_path := TifFile (Tif image Advanced.ome_options)]> (fs w))
       (written w ++ [(output_path, Tif image Advanced.ome_options)])
       (stdout w ++
        [ "OME-TIFF saved: " +:+ output_path;
          "   Shape: " +:+ repr_shape (shape image) +:+
            " with OME metadata" ])).
Proof.
  intros Hdir Hmk Henc.
  unfold Advanced._export_ome_tiff, bind, makedirs, imwrite, print, ret.
  rewrite (bool_decide_false _ Hdir), Hmk, Henc. cbn [fs written stdout].
  by rewrite <-!app_assoc.
Qed.

(** C8: the OME export of [Samples.striped] encodes one file, compressed
    with LZW, whose metadata name the axes [ZYX], the channel [Channel 0]
    and physical sizes of 1.0; the three unit entries however hold the five
    bytes of [unit_text], which are not the three bytes of the micrometre
    symbol. *)
Theorem C8_ome_units_are_not_micrometres :
  written (Advanced._export_ome_tiff Samples.posix Samples.striped
             "out/striped.ome.tif" (World ∅ [] [])).2
    = [("out/striped.ome.tif", Tif Samples.striped Advanced.ome_options)] ∧
  compression Advanced.ome_options = Some "lzw" ∧
  item Advanced.ome_metadata "axes" = Some (VStr "ZYX") ∧
  item Advanced.ome_metadata "Channel"
    = Some (VDict [("Name", VStr "Channel 0")]) ∧
  item Advanced.ome_metadata "PhysicalSizeX" = Some (VFloat 1) ∧
  item Advanced.ome_metadata "PhysicalSizeY" = Some (VFloat 1) ∧
  item Advanced.ome_metadata "PhysicalSizeZ" = Some (VFloat 1) ∧
  item Advanced.ome_metadata "PhysicalSizeXUnit"
    = Some (VStr Advanced.unit_text) ∧
  item Advanced.ome_metadata "PhysicalSizeYUnit"
    = Some (VStr Advanced.unit_text) ∧
  item Advanced.ome_metadata "PhysicalSizeZUnit"
    = Some (VStr Advanced.unit_text) ∧
  bytes_of Advanced.unit_text = [194; 172; 194; 181; 109]%nat ∧
  bytes_of micrometre = [194; 181; 109]%nat ∧
  Advanced.unit_text ≠ micrometre.
Proof.
  rewrite export_ome_tiff_run by (vm_compute; done).
  repeat apply conj; try reflexivity.
  intros Heq. apply (f_equal bytes_of) in Heq. vm_compute in Heq.
  discriminate.
Qed.

(** ** Navigation *)

(** Case analysis on the next step that may raise. *)
Ltac step_result :=
  match goal with
  | |- context [and_then ?r _] =>
      let E := fresh "E" in destruct r eqn:E; cbn [and_then]
  | |- context [if ?b then _ else _] =>
      let E := fresh "E" in destruct b eqn:E
  end.

(** C2, amended: the navigation of [convert_ims_to_tif] fails for lack of
    resolution levels when no key of [DataSet] starts with
    [ResolutionLevel]; otherwise it descends into the key named
    [ResolutionLevel 0], wherever it stands among these keys, fails when
    there is no key of that name, and never reaches another level. *)
Theorem C2_resolution_level_by_name (f dataset : H5.node)
    (dataset_keys : list string) (channel timepoint : option Z) :
  H5.getitem f ["DataSet"] = Ok dataset →
  H5.keys dataset = Ok dataset_keys →
  let resolution_levels :=
    filter (λ k, startswith k "ResolutionLevel") dataset_keys in
  (resolution_levels = [] →
     Ims2tif.locate f channel timepoint
       = Raise (ValueError "No resolution levels found in IMS file")) ∧
  (resolution_levels ≠ [] → "ResolutionLevel 0" ∉ dataset_keys →
     Ims2tif.locate f channel timepoint
       = Raise (ValueError "ResolutionLevel 0 not found")) ∧
  (∀ data_path, Ims2tif.locate f channel timepoint = Ok data_path →
     "ResolutionLevel 0" ∈ resolution_levels ∧
     ∃ tp_key ch_key,
       data_path = ["DataSet"; "ResolutionLevel 0"; tp_key; ch_key; "Data"]).
Proof.
  intros Hdataset Hkeys resolution_levels.
  assert (H5.contains dataset "ResolutionLevel 0"
          = Ok (bool_decide ("ResolutionLevel 0" ∈ dataset_keys))) as Hin.
  { destruct dataset; [|done]. injection Hkeys as <-. reflexivity. }
  unfold Ims2tif.locate. rewrite Hdataset. cbn [and_then].
  rewrite Hkeys. cbn [and_then]. fold resolution_levels.
  rewrite Hin. cbn [and_then].
  repeat apply conj.
  - intros Hnone. by rewrite (bool_decide_true _ Hnone).
  - intros Hsome Hmissing.
    by rewrite (bool_decide_false _ Hsome), (bool_decide_false _ Hmissing).
  - intros data_path.
    destruct (bool_decide (resolution_levels = [])); [done|].
    case_bool_decide as Hfound; [|done]. cbn [negb].
    repeat (step_result; try done).
    intros [= <-]. split; [|by eexists _, _].
    apply list_elem_of_filter. split; [|done]. reflexivity.
Qed.

(** A container that enumerates level 1 before level 0: the navigation goes
    to level 0. *)
Lemma C2_resolution_level_by_name_witness :
  H5.keys (H5.Group [("ResolutionLevel 1", Samples.level (Samples.voxel 1));
                     ("ResolutionLevel 0", Samples.level (Samples.voxel 0))])
    = Ok ["ResolutionLevel 1"; "ResolutionLevel 0"] ∧
  ∃ tp_key ch_key,
    Ims2tif.locate Samples.level_1_first None None
      = Ok ["DataSet"; "ResolutionLevel 0"; tp_key; ch_key; "Data"].
Proof.
  split; [reflexivity|].
  destruct (C2_resolution_level_by_name Samples.level_1_first
              (H5.Group [("ResolutionLevel 1",
                          Samples.level (Samples.voxel 1));
                         ("ResolutionLevel 0",
                          Samples.level (Samples.voxel 0))])
              ["ResolutionLevel 1"; "ResolutionLevel 0"] None None
              eq_refl eq_refl)
    as (_ & _ & Hpath).
  destruct (Hpath ["DataSet"; "ResolutionLevel 0"; "TimePoint 0";
                   "Channel 0"; "Data"] eq_refl)
    as (_ & tp_key & ch_key & Hshape).
  exists tp_key, ch_key. injection Hshape as <- <-. reflexivity.
Defined.

(** C2 as stated fails: in [Samples.only_level_1] the group of resolution
    levels is not empty and the key at its index 0 leads to pixel data, yet
    the navigation fails; in [Samples.level_1_first] the key at index 0 is
    [ResolutionLevel 1], yet the navigation descends into
    [ResolutionLevel 0]. *)
Lemma C2_counterexample :
  H5.keys (H5.Group [("ResolutionLevel 1", Samples.level (Samples.voxel 1))])
    = Ok ["ResolutionLevel 1"] ∧
  filter (λ k, startswith k "ResolutionLevel") ["ResolutionLevel 1"] !! 0%nat
    = Some "ResolutionLevel 1" ∧
  H5.getitem Samples.only_level_1
    ["DataSet"; "ResolutionLevel 1"; "TimePoint 0"; "Channel 0"; "Data"]
    = Ok (H5.Dataset (Samples.voxel 1)) ∧
  Ims2tif.locate Samples.only_level_1 None None
    = Raise (ValueError "ResolutionLevel 0 not found") ∧
  filter (λ k, startswith k "ResolutionLevel")
    ["ResolutionLevel 1"; "ResolutionLevel 0"] !! 0%nat
    = Some "ResolutionLevel 1" ∧
  Ims2tif.locate Samples.level_1_first None None
    = Ok ["DataSet"; "ResolutionLevel 0"; "TimePoint 0"; "Channel 0"; "Data"].
Proof. repeat apply conj; reflexivity. Qed.

Section Selectors.

Implicit Types (keys : list string) (n : Z).

(** The plain converter: a key with the literal name wins. *)
Lemma select_timepoint_literal keys n :
  "TimePoint " +:+ str_int n ∈ keys →
  Ims2tif.select_timepoint keys (Some n) = Ok ("TimePoint " +:+ str_int n).
Proof.
  intros Hin. unfold Ims2tif.select_timepoint.
  by rewrite (bool_decide_true _ Hin).
Qed.

(** ... else the position decides, counted from the end when negative ... *)
Lemma select_timepoint_position keys n :
  "TimePoint " +:+ str_int n ∉ keys →
  n < Z.of_nat (length keys) →
  Ims2tif.select_timepoint keys (Some n) = index keys n.
Proof.
  intros Hout Hlt. unfold Ims2tif.select_timepoint.
  by rewrite (bool_decide_false _ Hout), (bool_decide_true _ Hlt).
Qed.

(** ... else the selector is refused with the request and the keys. *)
Lemma select_timepoint_refused keys n :
  "TimePoint " +:+ str_int n ∉ keys →
  Z.of_nat (length keys) ≤ n →
  Ims2tif.select_timepoint keys (Some n)
    = Raise (ValueError ("Timepoint " +:+ str_int n +:+
               " not available. Available: " +:+ repr_list keys)).
Proof.
  intros Hout Hge. unfold Ims2tif.select_timepoint.
  rewrite (bool_decide_false _ Hout). by rewrite bool_decide_false by lia.
Qed.

Lemma select_channel_literal keys n :
  "Channel " +:+ str_int n ∈ keys →
  Ims2tif.select_channel keys (Some n) = Ok ("Channel " +:+ str_int n).
Proof.
  intros Hin. unfold Ims2tif.select_channel.
  by rewrite (bool_decide_true _ Hin).
Qed.

Lemma select_channel_position keys n :
  "Channel " +:+ str_int n ∉ keys →
  n < Z.of_nat (length keys) →
  Ims2tif.select_channel keys (Some n) = index keys n.
Proof.
  intros Hout Hlt. unfold Ims2tif.select_channel.
  by rewrite (bool_decide_false _ Hout), (bool_decide_true _ Hlt).
Qed.

Lemma select_channel_refused keys n :
  "Channel " +:+ str_int n ∉ keys →
  Z.of_nat (length keys) ≤ n →
  Ims2tif.select_channel keys (Some n)
    = Raise (ValueError ("Channel " +:+ str_int n +:+
               " not available. Available: " +:+ repr_list keys)).
Proof.
  intros Hout Hge. unfold Ims2tif.select_channel.
  rewrite (bool_decide_false _ Hout). by rewrite bool_decide_false by lia.
Qed.

(** A negative selector beyond the first key is not caught by the test of
    the script: the list itself raises, without the request or the keys. *)
Lemma select_channel_below keys n :
  "Channel " +:+ str_int n ∉ keys →
  n < - Z.of_nat (length keys) →
  Ims2tif.select_channel keys (Some n)
    = Raise (IndexError "list index out of range").
Proof.
  intros Hout Hlt. rewrite select_channel_position by (done || lia).
  apply index_out_of_range. by left.
Qed.

(** The smart and the advanced converters: the position alone decides,
    whatever the names. *)
Lemma select_by_position_some keys (kwargs : gmap string (option Z))
    (key : string) n :
  kwargs !! key = Some (Some n) →
  select_by_position keys kwargs key = index keys n.
Proof.
  intros Hget. unfold select_by_position, kwargs_get. by rewrite Hget.
Qed.

End Selectors.

(** C1 fails on the smart and the advanced paths.  [Samples.series] holds
    eleven timepoints enumerated by name, so that [TimePoint 10] stands at
    position 2.  For the selector 2 the plain converter goes to the key
    named [TimePoint 2] and encodes its voxel, 2; the smart and the advanced
    converters take the key at position 2, [TimePoint 10], and encode the
    voxel 10. *)
Theorem C1_literal_name_ignored_off_the_plain_path :
  Ims2tif.locate Samples.series None (Some 2)
    = Ok ["DataSet"; "ResolutionLevel 0"; "TimePoint 2"; "Channel 0";
          "Data"] ∧
  written (Ims2tif.convert_ims_to_tif Samples.posix "in/series.ims"
             "out/series.tif" None (Some 2) None
             (Samples.disk "in/series.ims" Samples.series)).2
    = [("out/series.tif", Tif (Samples.voxel 2) plain_options)] ∧
  Smart.read_image Samples.series {[ "timepoint" := Some 2 ]}
    = Ok (Samples.voxel 10) ∧
  written (Smart.convert_ims_to_tif_smart Samples.posix "in/series.ims"
             "out/series.tif" 10 false {[ "timepoint" := Some 2 ]}
             (Samples.disk "in/series.ims" Samples.series)).2
    = [("out/series.tif", Tif (Samples.voxel 10) plain_options)] ∧
  Advanced.read_image Samples.series {[ "timepoint" := Some 2 ]}
    = Ok (Samples.voxel 10) ∧
  written (Advanced.convert_with_options Samples.posix "in/series.ims"
             "out/series.tif" "3d_stack" {[ "timepoint" := Some 2 ]}
             (Samples.disk "in/series.ims" Samples.series)).2
    = [("out/series.tif", Tif (Samples.voxel 10) plain_options)].
Proof. repeat apply conj; reflexivity. Qed.

(** C6: with two channels and the selector 5 the plain converter reports
    the request and the two keys; with the selector -3 it reports only that
    a list index is out of range, and so do the smart and the advanced
    converters for the selector 5. *)
Theorem C6_out_of_range_messages :
  stdout (Ims2tif.convert_ims_to_tif Samples.posix "in/a.ims" "out/a.tif"
            (Some 5) None None
            (Samples.disk "in/a.ims"
               (Samples.container Samples.dark Samples.dark))).2
    = [ "Reading IMS file: in/a.ims"; "Found metadata: {}";
        "Error converting file: Channel 5 not available. Available: ['Channel 0', 'Channel 1']" ] ∧
  stdout (Ims2tif.convert_ims_to_tif Samples.posix "in/a.ims" "out/a.tif"
            (Some (-3)) None None
            (Samples.disk "in/a.ims"
               (Samples.container Samples.dark Samples.dark))).2
    = [ "Reading IMS file: in/a.ims"; "Found metadata: {}";
        "Error converting file: list index out of range" ] ∧
  stdout (Smart.convert_ims_to_tif_smart Samples.posix "in/a.ims" "out/a.tif"
            10 true {[ "channel" := Some 5 ]}
            (Samples.disk "in/a.ims"
               (Samples.container Samples.dark Samples.dark))).2
    = [ "Reading IMS file: in/a.ims"; "Error: list index out of range" ] ∧
  stdout (Advanced.convert_with_options Samples.posix "in/a.ims" "out/a.tif"
            "3d_stack" {[ "channel" := Some 5 ]}
            (Samples.disk "in/a.ims"
               (Samples.container Samples.dark Samples.dark))).2
    = [ "Reading IMS file: in/a.ims"; "Error: list index out of range" ].
Proof. repeat apply conj; reflexivity. Qed.

(** ** The batch loop *)

Section BatchLoop.

Import Recursive.

Context (P : platform) (conv : converter).
Context (use_smart_filtering overwrite : bool).

Implicit Types (ims_file : string) (files rest : list string) (st : stats)
  (w : world) (i n : nat).

(** A skipped file: one line, one more in [skipped], and on to the rest. *)
Lemma convert_files_skip n i ims_file rest st w :
  skips P overwrite w ims_file = true →
  convert_files P conv use_smart_filtering overwrite n i (ims_file :: rest)
    st w
  = convert_files P conv use_smart_filtering overwrite n (S i) rest
      (count_skipped st) (printed w [skip_line P i n ims_file]).
Proof.
  intros Hskip. cbn [convert_files]. unfold bind at 1, path_exists.
  unfold skips in Hskip. rewrite Hskip.
  unfold bind at 1, print at 1. reflexivity.
Qed.

(** A file that is not skipped: the call is made after two lines. *)
Lemma convert_files_call n i ims_file rest st w :
  skips P overwrite w ims_file = false →
  convert_files P conv use_smart_filtering overwrite n i (ims_file :: rest)
    st w
  = match convert_one P conv use_smart_filtering ims_file
            (path_with_suffix P ims_file ".tif") st
            (printed w (start_lines P i n ims_file)) with
    | (Ok st', w') =>
        convert_files P conv use_smart_filtering overwrite n (S i) rest st'
          (printed w' [""])
    | (Raise e, w') => (Raise e, w')
    end.
Proof.
  intros Hskip. cbn [convert_files]. unfold bind at 1, path_exists.
  unfold skips in Hskip. rewrite Hskip.
  unfold bind at 1, print at 1. cbv beta iota.
  unfold bind at 1, print at 1. cbv beta iota.
  unfold bind at 1. unfold printed, start_lines. cbn [fs written stdout].
  rewrite <-app_assoc. cbn [app].
  destruct (convert_one _ _ _ _ _ _ _) as [[st'|e] w']; [|done].
  unfold bind, print. reflexivity.
Qed.

(** The [try] statement never lets an exception through, and counts the
    file once: as converted when the call returns [True], as failed, with
    its name, when the call returns [False] or raises. *)
Lemma convert_one_outcome ims_file st w :
  let tif_file := path_with_suffix P ims_file ".tif" in
  convert_one P conv use_smart_filtering ims_file tif_file st w =
    match call P conv use_smart_filtering ims_file w with
    | (Ok true, w') =>
        (Ok (count_successful st),
         printed w' ["    SUCCESS: " +:+ path_name P tif_file])
    | (Ok false, w') =>
        (Ok (count_failed st ims_file),
         printed w' ["    FAILED: " +:+ path_name P ims_file])
    | (Raise e, w') =>
        (Ok (count_failed st ims_file),
         printed w' ["    ERROR: " +:+ first_80 (str_exn e) +:+ "..."])
    end.
Proof.
  intros tif_file. unfold convert_one, try_except, bind, call.
  fold tif_file.
  destruct use_smart_filtering;
    (destruct (_ conv ims_file tif_file) as [[[|]|e] w']; reflexivity).
Qed.

(** The whole loop: it ends without an exception, every file is accounted
    for once, and the names added to [failed_files] are files of the list,
    in its order, as many as [failed] grew. *)
Lemma convert_files_total n files i st w :
  ∃ st' w' names,
    convert_files P conv use_smart_filtering overwrite n i files st w
      = (Ok st', w') ∧
    accounted st' = (accounted st + length files)%nat ∧
    failed_files st' = failed_files st ++ names ∧
    names `sublist_of` files ∧
    length names = (failed st' - failed st)%nat ∧
    (failed st ≤ failed st')%nat ∧
    total_found st' = total_found st.
Proof.
  revert i st w. induction files as [|ims_file rest IH]; intros i st w.
  { exists st, w, []. cbn. unfold ret, accounted.
    rewrite app_nil_r. repeat split; try done; lia. }
  destruct (skips P overwrite w ims_file) eqn:Hskip.
  - rewrite (convert_files_skip _ _ _ _ _ _ Hskip).
    destruct (IH (S i) (count_skipped st)
                (printed w [skip_line P i n ims_file]))
      as (st' & w' & names & -> & Hacc & Hnames & Hsub & Hlen & Hle & Htot).
    exists st', w', names. unfold accounted in *. cbn in *.
    repeat split; try done; try lia. by apply sublist_cons.
  - rewrite (convert_files_call _ _ _ _ _ _ Hskip), convert_one_outcome.
    destruct (call P conv use_smart_filtering ims_file _) as [[[|]|e] w1].
    + destruct (IH (S i) (count_successful st) (printed
                  (printed w1 ["    SUCCESS: " +:+
                     path_name P (path_with_suffix P ims_file ".tif")]) [""]))
        as (st' & w' & names & -> & Hacc & Hnames & Hsub & Hlen & Hle & Htot).
      exists st', w', names. unfold accounted in *. cbn in *.
      repeat split; try done; try lia. by apply sublist_cons.
    + destruct (IH (S i) (count_failed st ims_file) (printed
                  (printed w1 ["    FAILED: " +:+ path_name P ims_file]) [""]))
        as (st' & w' & names & -> & Hacc & Hnames & Hsub & Hlen & Hle & Htot).
      exists st', w', (ims_file :: names). unfold accounted in *. cbn in *.
      rewrite <-app_assoc in Hnames.
      repeat split; try done; try lia. by apply sublist_skip.
    + destruct (IH (S i) (count_failed st ims_file) (printed
                  (printed w1 ["    ERROR: " +:+ first_80 (str_exn e) +:+
                                 "..."]) [""]))
        as (st' & w' & names & -> & Hacc & Hnames & Hsub & Hlen & Hle & Htot).
      exists st', w', (ims_file :: names). unfold accounted in *. cbn in *.
      rewrite <-app_assoc in Hnames.
      repeat split; try done; try lia. by apply sublist_skip.
Qed.

(** When every output is there and overwriting is off, the converter is
    left alone: the files on disk and the encoder calls are those of the
    start, whatever the converter would have done. *)
Lemma convert_files_all_skipped n files i st w :
  overwrite = false →
  Forall (λ f, is_Some (fs w !! path_with_suffix P f ".tif")) files →
  ∃ w',
    convert_files P conv use_smart_filtering overwrite n i files st w
      = (Ok (Stats (total_found st) (successful st) (failed st)
               (skipped st + length files) (failed_files st)), w') ∧
    fs w' = fs w ∧ written w' = written w.
Proof.
  intros Hover Hall. revert i st w Hall.
  induction files as [|ims_file rest IH]; intros i st w Hall.
  { exists w. cbn. unfold ret. rewrite Nat.add_0_r. by destruct st. }
  apply Forall_cons in Hall as [Hhead Hrest].
  rewrite convert_files_skip.
  - destruct (IH (S i) (count_skipped st)
                (printed w [skip_line P i n ims_file]) Hrest)
      as (w' & -> & Hfs & Hwritten).
    exists w'. cbn in *. rewrite Nat.add_succ_r. by repeat split.
  - unfold skips. rewrite Hover. by rewrite bool_decide_true.
Qed.

End BatchLoop.

(** C5: for every converter, every list of files and every state of the
    disk, (1) a file whose [.tif] exists while overwriting is off is
    counted as skipped and the loop goes on with the next file, the
    converter not being called; (2) a file whose conversion returns [False]
    or raises is counted as failed, its name is appended to [failed_files],
    and the loop goes on with the next file; a file whose conversion
    returns [True] is counted as successful; (3) the loop as a whole never
    raises and accounts for every file exactly once. *)
Theorem C5_batch_skips_and_survives (P : platform)
    (conv : Recursive.converter) (use_smart_filtering overwrite : bool)
    (n i : nat) (ims_file : string) (rest : list string)
    (st : Recursive.stats) (w : world) :
  let tif_file := path_with_suffix P ims_file ".tif" in
  let loop := Recursive.convert_files P conv use_smart_filtering overwrite n in
  let started := printed w (start_lines P i n ims_file) in
  (is_Some (fs w !! tif_file) → overwrite = false →
     loop i (ims_file :: rest) st w
     = loop (S i) rest (Recursive.count_skipped st)
         (printed w [skip_line P i n ims_file])) ∧
  (skips P overwrite w ims_file = false →
     ∀ outcome w1,
       call P conv use_smart_filtering ims_file started = (outcome, w1) →
       outcome ≠ Ok true →
       ∃ line,
         loop i (ims_file :: rest) st w
         = loop (S i) rest (Recursive.count_failed st ims_file)
             (printed (printed w1 [line]) [""])) ∧
  (skips P overwrite w ims_file = false →
     ∀ w1,
       call P conv use_smart_filtering ims_file started = (Ok true, w1) →
       loop i (ims_file :: rest) st w
       = loop (S i) rest (Recursive.count_successful st)
           (printed (printed w1 ["    SUCCESS: " +:+ path_name P tif_file])
              [""])) ∧
  (∀ files, ∃ st' w' names,
     loop i files st w = (Ok st', w') ∧
     accounted st' = (accounted st + length files)%nat ∧
     Recursive.failed_files st' = Recursive.failed_files st ++ names ∧
     names `sublist_of` files ∧
     length names = (Recursive.failed st' - Recursive.failed st)%nat) ∧
  (∀ files, overwrite = false →
     Forall (λ f, is_Some (fs w !! path_with_suffix P f ".tif")) files →
     ∃ w', loop i files st w
           = (Ok (Recursive.Stats (Recursive.total_found st)
                    (Recursive.successful st) (Recursive.failed st)
                    (Recursive.skipped st + length files)
                    (Recursive.failed_files st)), w') ∧
          fs w' = fs w ∧ written w' = written w).
Proof.
  intros tif_file loop started. repeat apply conj.
  - intros Hthere ->. apply convert_files_skip.
    unfold skips. by rewrite bool_decide_true.
  - intros Hskip outcome w1 Hcall Hfail. subst loop.
    rewrite (convert_files_call _ _ _ _ _ _ _ _ _ _ Hskip).
    rewrite convert_one_outcome. fold started. rewrite Hcall.
    destruct outcome as [[|]|e]; [done| |]; by eexists.
  - intros Hskip w1 Hcall. subst loop.
    rewrite (convert_files_call _ _ _ _ _ _ _ _ _ _ Hskip).
    rewrite convert_one_outcome. fold started. by rewrite Hcall.
  - intros files.
    destruct (convert_files_total P conv use_smart_filtering overwrite n
                files i st w)
      as (st' & w' & names & Hrun & Hacc & Hnames & Hsub & Hlen & _).
    by exists st', w', names.
  - intros files Hover Hall. by apply convert_files_all_skipped.
Qed.

(** [Samples.folder]: [a] is skipped, [b] is converted, [c] fails, and the
    three are accounted for. *)
Lemma C5_batch_skips_and_survives_witness :
  is_Some (fs Samples.folder !! "d/a.tif") ∧
  (Recursive.convert_files Samples.posix
     (Recursive.smart_converter Samples.posix) true false 3 1
     ["d/a.ims"; "d/b.ims"; "d/c.ims"] Recursive.initial_stats
     Samples.folder).1
  = Ok (Recursive.Stats 0 1 1 1 ["d/c.ims"]).
Proof.
  assert (is_Some (fs Samples.folder !! "d/a.tif")) as Hthere.
  { exists OtherFile. reflexivity. }
  split; [exact Hthere|].
  destruct (C5_batch_skips_and_survives Samples.posix
              (Recursive.smart_converter Samples.posix) true false 3 1
              "d/a.ims" ["d/b.ims"; "d/c.ims"] Recursive.initial_stats
              Samples.folder)
    as (Hskip & _).
  rewrite (Hskip Hthere eq_refl). reflexivity.
Defined.

(** A converter that raises on every call stops nothing: both files are
    counted as failed, in order. *)
Example batch_survives_exceptions :
  (Recursive.convert_files Samples.posix Samples.unreliable true true 2 1
     ["d/b.ims"; "d/c.ims"] Recursive.initial_stats Samples.folder).1
  = Ok (Recursive.Stats 0 0 2 0 ["d/b.ims"; "d/c.ims"]).
Proof. reflexivity. Qed.

(** * Further properties *)

(** ** Reasoning on computations *)

Lemma wp_bind {A B} (m : M A) (k : A → M B) Q w :
  wp m (λ r w', match r with
                | Ok a => wp (k a) Q w'
                | Raise e => Q (Raise e) w'
                end) w →
  wp (bind m k) Q w.
Proof. unfold wp, bind. by destruct (m w) as [[a|e] w']. Qed.

Lemma wp_try {A} (m : M A) (h : exn → M A) Q w :
  wp m (λ r w', match r with
                | Ok a => Q (Ok a) w'
                | Raise e => wp (h e) Q w'
                end) w →
  wp (try_except m h) Q w.
Proof. unfold wp, try_except. by destruct (m w) as [[a|e] w']. Qed.

Lemma wp_print s Q w : Q (Ok tt) (printed w [s]) → wp (print s) Q w.
Proof. done. Qed.

Lemma wp_lift {A} (r : result A) Q w : Q r w → wp (lift r) Q w.
Proof. done. Qed.

Lemma wp_ret {A} (a : A) Q w : Q (Ok a) w → wp (ret a) Q w.
Proof. done. Qed.

Lemma wp_raise {A} e (Q : result A → world → Prop) w : Q (Raise e) w → wp (raise e) Q w.
Proof. done. Qed.

Lemma wp_h5_open path Q w :
  (∀ root, fs w !! path = Some (ImsFile root) → Q (Ok root) w) →
  (∀ e, Q (Raise e) w) →
  wp (h5_open path) Q w.
Proof.
  intros Hok Herr. unfold wp, h5_open.
  destruct (fs w !! path) as [[root| |]|] eqn:Hlook; cbn; auto.
Qed.

Lemma wp_makedirs P d Q w :
  (d ≠ "" → makedirs_ok P d = true → Q (Ok tt) w) →
  (∀ e, Q (Raise e) w) →
  wp (makedirs P d) Q w.
Proof.
  intros Hok Herr. unfold wp, makedirs. case_bool_decide; [apply Herr|].
  destruct (makedirs_ok P d) eqn:Hmk; cbn; auto.
Qed.

Lemma wp_imwrite P path a opts Q w :
  (imwrite_ok P path a opts = true →
   Q (Ok tt) (World (<[path := TifFile (Tif a opts)]> (fs w))
                (written w ++ [(path, Tif a opts)]) (stdout w))) →
  (∀ e, Q (Raise e) w) →
  wp (imwrite P path a opts) Q w.
Proof.
  intros Hok Herr. unfold wp, imwrite.
  destruct (imwrite_ok P path a opts) eqn:Henc; cbn; auto.
Qed.

Ltac wp_step :=
  lazymatch goal with
  | |- wp (bind _ _) _ _ => apply wp_bind
  | |- wp (print _) _ _ => apply wp_print
  | |- wp (ret _) _ _ => apply wp_ret
  | |- wp (raise _) _ _ => apply wp_raise
  | |- wp (h5_open _) _ _ => apply wp_h5_open; [intros ? ?|intros ?]
  | |- wp (makedirs _ _) _ _ => apply wp_makedirs; [intros ? ?|intros ?]
  | |- wp (imwrite _ _ _ _) _ _ => apply wp_imwrite; [intros ?|intros ?]
  | |- wp (lift ?r) _ _ => apply wp_lift; destruct r eqn:?
  end.



Lemma wp_wand {A} (m : M A) (Q Q' : result A → world → Prop) w :
  wp m Q' w → (∀ r w', Q' r w' → Q r w') → wp m Q w.
Proof. unfold wp. auto. Qed.

Lemma has_depth_shape0 a : has_depth a → ∃ d, shape0 a = Ok d.
Proof. unfold has_depth, shape0. destruct (shape a); [done|eauto]. Qed.

Lemma read_has_depth d a : H5.read d = Ok a → has_depth a.
Proof.
  unfold H5.read, has_depth. destruct d as [|b]; [done|].
  destruct (shape b) eqn:Hs; [done|]. intros [= <-]. by rewrite Hs.
Qed.

Lemma smart_read_image_has_depth f kwargs a :
  Smart.read_image f kwargs = Ok a → has_depth a.
Proof.
  unfold Smart.read_image. repeat (step_result; try done).
  apply read_has_depth.
Qed.

Lemma advanced_read_image_has_depth f kwargs a :
  Advanced.read_image f kwargs = Ok a → has_depth a.
Proof.
  unfold Advanced.read_image. repeat (step_result; try done).
  apply read_has_depth.
Qed.

Lemma take_planes_has_depth image zs a :
  take_planes image zs = Ok a → has_depth a.
Proof.
  unfold take_planes, has_depth. destruct (shape image); [done|].
  destruct (list_find _ _) as [[??]|]; [done|]. by intros [= <-].
Qed.

(** The filter block changes no file, and what it returns has a leading
    axis. *)
Lemma filter_empty_slices_post image t w :
  wp (Smart.filter_empty_slices image t)
     (λ r w', kept w w' ∧ ∀ final, r = Ok final → has_depth final) w.
Proof.
  unfold Smart.filter_empty_slices.
  apply wp_bind, wp_lift. destruct (shape0 image) as [d|e] eqn:Hd; [|by split].
  repeat (wp_step || case_bool_decide).
  all: split; [by split|]; intros final; try done.
  - intros [= <-]. by eapply take_planes_has_depth.
  - intros [= <-]. unfold has_depth, shape0 in *. by destruct (shape image).
Qed.

Ltac tidy :=
  unfold printed, print, kept, added, has_depth in *;
  cbn [fst snd fs written stdout] in *.

(** X2: the same for the smart conversion, with or without the filter. *)
Theorem smart_convert_all_or_nothing (P : platform) (ims_path tif_path : string)
    (t : Z) (filter_empty : bool) (kwargs : gmap string (option Z)) (w : world) :
  let run := Smart.convert_ims_to_tif_smart P ims_path tif_path t filter_empty
               kwargs w in
  (run.1 = Ok true ∧ added tif_path plain_options w run.2) ∨
  (run.1 = Ok false ∧ kept w run.2).
Proof.
  intros run.
  change (wp (Smart.convert_ims_to_tif_smart P ims_path tif_path t
                filter_empty kwargs)
            (λ r w', (r = Ok true ∧ added tif_path plain_options w w') ∨
                     (r = Ok false ∧ kept w w')) w).
  unfold Smart.convert_ims_to_tif_smart, Smart.convert_body.
  apply wp_try. repeat wp_step.
  all: try (right; by split).
  match goal with
  | H : Smart.read_image _ _ = Ok ?a |- _ =>
      pose proof (smart_read_image_has_depth _ _ _ H) as Himage;
      apply (wp_wand _ _ (λ r w', kept
               (printed (printed (printed w ["Reading IMS file: " +:+ ims_path])
                  ["Original shape: " +:+ repr_shape (shape a)])
                  ["Data type: " +:+ dtype a]) w' ∧
               ∀ final, r = Ok final → has_depth final))
  end.
  { destruct filter_empty; [apply filter_empty_slices_post|].
    split; [by split|]. by intros final [= <-]. }
  intros [final|e] w' [Hkept Hfinal].
  - destruct (has_depth_shape0 _ Himage) as [d Hd].
    destruct (has_depth_shape0 _ (Hfinal _ eq_refl)) as [d' Hd'].
    repeat wp_step; tidy; simplify_eq.
    all: try (right; split; [done|]; destruct Hkept; by split).
    left. split; [done|]. destruct Hkept as [-> ->]. by eexists.
  - repeat wp_step. right. split; [done|]. tidy. by destruct Hkept.
Qed.

Lemma wp_quiet {A} (m : M A) Q w :
  quiet m → (∀ r w', kept w w' → Q r w') → wp m Q w.
Proof. intros Hq HQ. apply HQ, Hq. Qed.

Lemma maybe_filter_quiet (b : bool) image t :
  quiet (if b then Smart.filter_empty_slices image t else ret image).
Proof.
  intros w. destruct b; [|by split].
  by destruct (filter_empty_slices_post image t w).
Qed.

(** ** Advanced: single-file modes *)

(** X3: apart from the per-slice mode, [convert_with_options] returns
    [True] only for the three single-file modes and then has made one
    encoder call with the options of the mode (none, metadata and LZW, or
    LZW with predictor); in every other case, an unknown mode included, it
    returns [False] and has written nothing. *)
Theorem advanced_single_file_all_or_nothing (P : platform)
    (ims_path output_path export_type : string)
    (kwargs : gmap string (option Z)) (w : world) :
  export_type ≠ "individual_slices" →
  let run := Advanced.convert_with_options P ims_path output_path export_type
               kwargs w in
  (run.1 = Ok true ∧
   export_type ∈ ["3d_stack"; "ome_tiff"; "compressed"] ∧
   added output_path (options_of export_type) w run.2) ∨
  (run.1 = Ok false ∧ kept w run.2).
Proof.
  intros Hmode run.
  change (wp (Advanced.convert_with_options P ims_path output_path
                export_type kwargs)
            (λ r w', (r = Ok true ∧
                      export_type ∈ ["3d_stack"; "ome_tiff"; "compressed"] ∧
                      added output_path (options_of export_type) w w') ∨
                     (r = Ok false ∧ kept w w')) w).
  unfold Advanced.convert_with_options, Advanced.convert_body.
  apply wp_try. repeat wp_step.
  all: try (right; by split).
  match goal with
  | H : Advanced.read_image _ _ = Ok ?a |- _ =>
      destruct (has_depth_shape0 a (advanced_read_image_has_depth _ _ _ H))
        as [d Hd]
  end.
  unfold options_of.
  repeat case_bool_decide; simplify_eq;
    unfold Advanced._export_3d_stack, Advanced._export_ome_tiff,
      Advanced._export_compressed;
    repeat wp_step; simplify_eq.
  all: try (right; by split).
  all: left; split; [done|]; split; [set_solver|by eexists].
Qed.

(** The compressed export of [Samples.dark]. *)
Lemma advanced_single_file_all_or_nothing_witness :
  "compressed" ≠ "individual_slices" ∧
  (Advanced.convert_with_options Samples.posix "in/a.ims" "out/a.tif"
     "compressed" ∅ MoreSamples.dark_disk).1 = Ok true ∧
  written (Advanced.convert_with_options Samples.posix "in/a.ims" "out/a.tif"
     "compressed" ∅ MoreSamples.dark_disk).2
  = [("out/a.tif", Tif Samples.dark Advanced.compressed_options)].
Proof.
  assert ("compressed" ≠ "individual_slices") as Hmode by discriminate.
  split; [exact Hmode|].
  destruct (advanced_single_file_all_or_nothing Samples.posix "in/a.ims"
              "out/a.tif" "compressed" ∅ MoreSamples.dark_disk Hmode)
    as [(Hret & _ & _)|(Hret & _)].
  - split; [exact Hret|reflexivity].
  - vm_compute in Hret. discriminate.
Defined.

(** X4: when the output path has no directory part, [os.makedirs] is
    called on the empty path and refuses it: the plain, the smart and the
    single-file advanced conversions all return [False] and write
    nothing, whatever the container. *)
Theorem conversion_needs_output_directory (P : platform)
    (ims_path tif_path : string) (w : world) :
  os_path_dirname P tif_path = "" →
  (∀ channel timepoint z_slice,
     let run := Ims2tif.convert_ims_to_tif P ims_path tif_path channel
                  timepoint z_slice w in
     run.1 = Ok false ∧ kept w run.2) ∧
  (∀ t filter_empty kwargs,
     let run := Smart.convert_ims_to_tif_smart P ims_path tif_path t
                  filter_empty kwargs w in
     run.1 = Ok false ∧ kept w run.2) ∧
  (∀ export_type kwargs,
     export_type ≠ "individual_slices" →
     let run := Advanced.convert_with_options P ims_path tif_path export_type
                  kwargs w in
     run.1 = Ok false ∧ kept w run.2).
Proof.
  intros Hdir. repeat apply conj.
  - intros channel timepoint z_slice run.
    change (wp (Ims2tif.convert_ims_to_tif P ims_path tif_path channel
                  timepoint z_slice)
              (λ r w', r = Ok false ∧ kept w w') w).
    unfold Ims2tif.convert_ims_to_tif, Ims2tif.convert_body.
    apply wp_try. repeat wp_step; done.
  - intros t filter_empty kwargs run.
    change (wp (Smart.convert_ims_to_tif_smart P ims_path tif_path t
                  filter_empty kwargs)
              (λ r w', r = Ok false ∧ kept w w') w).
    unfold Smart.convert_ims_to_tif_smart, Smart.convert_body.
    apply wp_try. repeat wp_step; try done.
    apply wp_quiet; [apply maybe_filter_quiet|].
    intros [final|e] w' Hkept; repeat wp_step; try done.
    all: try (split; [done|]; tidy; by destruct Hkept).
  - intros export_type kwargs Hmode run.
    change (wp (Advanced.convert_with_options P ims_path tif_path
                  export_type kwargs)
              (λ r w', r = Ok false ∧ kept w w') w).
    unfold Advanced.convert_with_options, Advanced.convert_body.
    apply wp_try. repeat wp_step; try done.
    repeat case_bool_decide; simplify_eq;
      unfold Advanced._export_3d_stack, Advanced._export_ome_tiff,
        Advanced._export_compressed;
      repeat wp_step; done.
Qed.

(** An output path without a directory part, on the POSIX platform. *)
Lemma conversion_needs_output_directory_witness :
  os_path_dirname Samples.posix "a.tif" = "" ∧
  (Ims2tif.convert_ims_to_tif Samples.posix "in/a.ims" "a.tif" None None None
     MoreSamples.dark_disk).1 = Ok false ∧
  (Smart.convert_ims_to_tif_smart Samples.posix "in/a.ims" "a.tif" 10 true ∅
     MoreSamples.dark_disk).1 = Ok false.
Proof.
  split; [reflexivity|].
  destruct (conversion_needs_output_directory Samples.posix "in/a.ims"
              "a.tif" MoreSamples.dark_disk eq_refl)
    as (Hplain & Hsmart & _).
  split.
  - apply (Hplain None None None).
  - apply (Hsmart 10 true ∅).
Defined.

(** ** Navigation: the located path exists *)

Lemma getitem_app f (p q : list string) :
  H5.getitem f (p ++ q) = and_then (H5.getitem f p) (λ n, H5.getitem n q).
Proof.
  revert f. induction p as [|k p IH]; intros f; [done|].
  cbn [app H5.getitem]. destruct (H5.child f k); [apply IH|done].
Qed.

Lemma contains_child g k :
  H5.contains g k = Ok true → ∃ n, H5.child g k = Ok n.
Proof.
  destruct g as [ms|]; [|done]. cbn. intros [= Hin].
  apply bool_decide_eq_true in Hin.
  apply list_elem_of_fmap in Hin as (m & -> & Hin).
  destruct (list_find (λ m' : string * H5.node, m'.1 = m.1) ms)
    as [[i m']|] eqn:Hfind; [by eexists|].
  eapply list_find_None, Forall_forall in Hfind; [|exact Hin]. done.
Qed.

Lemma select_timepoint_elem keys tp k :
  Ims2tif.select_timepoint keys tp = Ok k → k ∈ keys.
Proof.
  unfold Ims2tif.select_timepoint. destruct tp as [n|];
    [|apply index_ok_elem].
  case_bool_decide; [by intros [= <-]|].
  case_bool_decide; [apply index_ok_elem|done].
Qed.

Lemma select_channel_elem keys ch k :
  Ims2tif.select_channel keys ch = Ok k → k ∈ keys.
Proof.
  unfold Ims2tif.select_channel. destruct ch as [n|];
    [|apply index_ok_elem].
  case_bool_decide; [by intros [= <-]|].
  case_bool_decide; [apply index_ok_elem|done].
Qed.

(** X5: a path returned by the navigation of the plain converter is
    [DataSet/ResolutionLevel 0/<timepoint>/<channel>/Data] with a timepoint
    key that starts with [TimePoint] and a channel key that starts with
    [Channel], and it resolves in the container. *)
Theorem locate_path_resolves (f : H5.node) (channel timepoint : option Z)
    (data_path : list string) :
  Ims2tif.locate f channel timepoint = Ok data_path →
  ∃ tp_key ch_key data_node,
    data_path = ["DataSet"; "ResolutionLevel 0"; tp_key; ch_key; "Data"] ∧
    startswith tp_key "TimePoint" = true ∧
    startswith ch_key "Channel" = true ∧
    H5.getitem f data_path = Ok data_node.
Proof.
  unfold Ims2tif.locate.
  repeat (step_result; try done). intros [= <-].
  match goal with
  | H : Ims2tif.select_timepoint _ _ = Ok ?k |- _ =>
      apply select_timepoint_elem, list_elem_of_filter in H as [Htp _]
  end.
  match goal with
  | H : Ims2tif.select_channel _ _ = Ok ?k |- _ =>
      apply select_channel_elem, list_elem_of_filter in H as [Hch _]
  end.
  match goal with
  | H : H5.contains ?g "Data" = Ok ?b, Hb : negb ?b = false |- _ =>
      destruct b; [|done]; apply contains_child in H as [data_node Hdata]
  end.
  eexists _, _, data_node. split; [reflexivity|].
  split; [by apply Is_true_true|]. split; [by apply Is_true_true|].
  match goal with
  | H : H5.getitem f ((?p ++ [?tp]) ++ [?ch]) = Ok ?g |- _ =>
      change (H5.getitem f (((p ++ [tp]) ++ [ch]) ++ ["Data"])
              = Ok data_node);
      rewrite getitem_app, H
  end.
  cbn. by rewrite Hdata.
Qed.

(** The default path in a container with two channels. *)
Lemma locate_path_resolves_witness :
  ∃ tp_key ch_key data_node,
    startswith tp_key "TimePoint" = true ∧
    startswith ch_key "Channel" = true ∧
    H5.getitem (Samples.container Samples.dark Samples.striped)
      ["DataSet"; "ResolutionLevel 0"; tp_key; ch_key; "Data"]
    = Ok data_node.
Proof.
  destruct (locate_path_resolves
              (Samples.container Samples.dark Samples.striped) None None
              ["DataSet"; "ResolutionLevel 0"; "TimePoint 0"; "Channel 0";
               "Data"] eq_refl)
    as (tp_key & ch_key & data_node & Hpath & Htp & Hch & Hnode).
  exists tp_key, ch_key, data_node. injection Hpath as <- <-.
  split; [exact Htp|]. split; [exact Hch|exact Hnode].
Defined.

Lemma wp_h5_open_ok path root Q w :
  fs w !! path = Some (ImsFile root) → Q (Ok root) w → wp (h5_open path) Q w.
Proof. intros Hopen HQ. unfold wp, h5_open. by rewrite Hopen. Qed.

Lemma wp_lift_ok {A} (r : result A) (a : A) Q w :
  r = Ok a → Q (Ok a) w → wp (lift r) Q w.
Proof. by intros ->. Qed.

Lemma wp_makedirs_ok P d Q w :
  d ≠ "" → makedirs_ok P d = true → Q (Ok tt) w → wp (makedirs P d) Q w.
Proof.
  intros Hd Hmk HQ. unfold wp, makedirs.
  by rewrite (bool_decide_false _ Hd), Hmk.
Qed.

Lemma wp_imwrite_ok P path a opts Q w :
  imwrite_ok P path a opts = true →
  Q (Ok tt) (World (<[path := TifFile (Tif a opts)]> (fs w))
               (written w ++ [(path, Tif a opts)]) (stdout w)) →
  wp (imwrite P path a opts) Q w.
Proof. intros Henc HQ. unfold wp, imwrite. by rewrite Henc. Qed.

(** Steps whose success is a hypothesis of the goal. *)
Ltac wp_ok :=
  lazymatch goal with
  | |- wp (bind _ _) _ _ => apply wp_bind
  | |- wp (print _) _ _ => apply wp_print
  | |- wp (ret _) _ _ => apply wp_ret
  | |- wp (h5_open _) _ _ => eapply wp_h5_open_ok; [eassumption|]
  | |- wp (makedirs _ _) _ _ =>
      eapply wp_makedirs_ok; [eassumption|eassumption|]
  | |- wp (imwrite _ _ _ _) _ _ => eapply wp_imwrite_ok; [eassumption|]
  | |- wp (lift _) _ _ => eapply wp_lift_ok; [eassumption|]
  end.

(** X6: when navigation, reading, the Z selection and the collaborators
    all succeed, the plain conversion returns [True] and the one array it
    encodes is the selection, which is the dataset itself when no Z slice
    is asked for or the dataset has fewer than three dimensions. *)
Theorem plain_convert_writes_selection (P : platform)
    (ims_path tif_path : string) (channel timepoint z_slice : option Z)
    (w : world) (root data_node : H5.node) (data_path : list string)
    (image selection : ndarray) :
  fs w !! ims_path = Some (ImsFile root) →
  Ims2tif.locate root channel timepoint = Ok data_path →
  H5.getitem root data_path = Ok data_node →
  H5.read data_node = Ok image →
  Ims2tif.select_z_slice image z_slice = Ok selection →
  os_path_dirname P tif_path ≠ "" →
  makedirs_ok P (os_path_dirname P tif_path) = true →
  imwrite_ok P tif_path selection plain_options = true →
  let run := Ims2tif.convert_ims_to_tif P ims_path tif_path channel timepoint
               z_slice w in
  run.1 = Ok true ∧
  written run.2 = written w ++ [(tif_path, Tif selection plain_options)] ∧
  fs run.2 = <[tif_path := TifFile (Tif selection plain_options)]> (fs w) ∧
  (z_slice = None ∨ (ndim image < 3)%nat → selection = image).
Proof.
  intros Hopen Hlocate Hnode Hread Hsel Hdir Hmk Henc run.
  change (wp (Ims2tif.convert_ims_to_tif P ims_path tif_path channel timepoint
               z_slice)
            (λ r w', r = Ok true ∧
               written w' = written w ++
                 [(tif_path, Tif selection plain_options)] ∧
               fs w' = <[tif_path := TifFile (Tif selection plain_options)]>
                         (fs w) ∧
               (z_slice = None ∨ (ndim image < 3)%nat → selection = image))
            w).
  unfold Ims2tif.convert_ims_to_tif, Ims2tif.convert_body.
  apply wp_try. repeat wp_ok. cbn.
  repeat split. intros Hwhole. unfold Ims2tif.select_z_slice in Hsel.
  destruct Hwhole as [->|Hdim]; [by injection Hsel|].
  destruct z_slice; [|by injection Hsel].
  rewrite bool_decide_false in Hsel by lia. by injection Hsel.
Qed.

(** [Samples.dark], second channel, whole stack. *)
Lemma plain_convert_writes_selection_witness :
  (Ims2tif.convert_ims_to_tif Samples.posix "in/a.ims" "out/a.tif" (Some 1)
     None None
     (Samples.disk "in/a.ims"
        (Samples.container Samples.striped Samples.dark))).1 = Ok true ∧
  written (Ims2tif.convert_ims_to_tif Samples.posix "in/a.ims" "out/a.tif"
     (Some 1) None None
     (Samples.disk "in/a.ims"
        (Samples.container Samples.striped Samples.dark))).2
  = [("out/a.tif", Tif Samples.dark plain_options)].
Proof.
  destruct (plain_convert_writes_selection Samples.posix "in/a.ims"
              "out/a.tif" (Some 1) None None
              (Samples.disk "in/a.ims"
                 (Samples.container Samples.striped Samples.dark))
              (Samples.container Samples.striped Samples.dark)
              (H5.Dataset Samples.dark)
              ["DataSet"; "ResolutionLevel 0"; "TimePoint 0"; "Channel 1";
               "Data"]
              Samples.dark Samples.dark)
    as (Hret & Hwritten & _).
  - reflexivity.
  - reflexivity.
  - reflexivity.
  - reflexivity.
  - reflexivity.
  - vm_compute. discriminate.
  - reflexivity.
  - reflexivity.
  - split; [exact Hret|exact Hwritten].
Defined.

(** X7: without selectors the three converters read the same dataset:
    whenever the navigation of the plain converter succeeds, the smart and
    the advanced converters read the node it located. *)
Theorem default_selectors_agree (f data_node : H5.node)
    (data_path : list string) (kwargs : gmap string (option Z)) :
  Ims2tif.locate f None None = Ok data_path →
  H5.getitem f data_path = Ok data_node →
  kwargs_get kwargs "timepoint" = None →
  kwargs_get kwargs "channel" = None →
  Smart.read_image f kwargs = H5.read data_node ∧
  Advanced.read_image f kwargs = H5.read data_node.
Proof.
  unfold Ims2tif.locate, Smart.read_image, Advanced.read_image,
    select_by_position, Ims2tif.select_timepoint, Ims2tif.select_channel.
  intros Hlocate Hnode Htp Hch. rewrite Htp, Hch.
  revert Hlocate.
  repeat (step_result; try done).
  all: intros [= <-]; cbn [app] in *; split; congruence.
Qed.

(** A container with two channels, read without selectors. *)
Lemma default_selectors_agree_witness :
  Smart.read_image (Samples.container Samples.dark Samples.striped) ∅
    = Ok Samples.dark ∧
  Advanced.read_image (Samples.container Samples.dark Samples.striped) ∅
    = Ok Samples.dark.
Proof.
  apply (default_selectors_agree
           (Samples.container Samples.dark Samples.striped)
           (H5.Dataset Samples.dark)
           ["DataSet"; "ResolutionLevel 0"; "TimePoint 0"; "Channel 0";
            "Data"] ∅); reflexivity.
Defined.

(** X8: a selector [-k] with [1 ≤ k ≤ len(keys)] picks the [k]-th key
    from the end: on the plain path unless a key carries the literal name,
    on the smart and advanced paths always. *)
Theorem negative_selector_counts_from_end (keys : list string) (k : nat)
    (key : string) (kwargs : gmap string (option Z)) (name : string) :
  (1 ≤ k ≤ length keys)%nat →
  keys !! (length keys - k)%nat = Some name →
  kwargs !! key = Some (Some (- Z.of_nat k)) →
  ("TimePoint " +:+ str_int (- Z.of_nat k) ∉ keys →
     Ims2tif.select_timepoint keys (Some (- Z.of_nat k)) = Ok name) ∧
  ("Channel " +:+ str_int (- Z.of_nat k) ∉ keys →
     Ims2tif.select_channel keys (Some (- Z.of_nat k)) = Ok name) ∧
  select_by_position keys kwargs key = Ok name.
Proof.
  intros Hk Hname Hget.
  assert (index keys (- Z.of_nat k) = Ok name) as Hindex.
  { apply index_from_end; [lia|].
    by replace (Z.to_nat (Z.of_nat (length keys) + - Z.of_nat k))
         with (length keys - k)%nat by lia. }
  repeat apply conj.
  - intros Hout. rewrite select_timepoint_position by (done || lia). done.
  - intros Hout. rewrite select_channel_position by (done || lia). done.
  - by rewrite (select_by_position_some _ _ _ _ Hget).
Qed.

(** The selector -1 on two channels. *)
Lemma negative_selector_counts_from_end_witness :
  Ims2tif.select_channel ["Channel 0"; "Channel 1"] (Some (-1))
    = Ok "Channel 1" ∧
  select_by_position ["Channel 0"; "Channel 1"] {[ "channel" := Some (-1) ]}
    "channel" = Ok "Channel 1".
Proof.
  destruct (negative_selector_counts_from_end ["Channel 0"; "Channel 1"] 1
              "channel" {[ "channel" := Some (-1) ]} "Channel 1")
    as (_ & Hplain & Hsmart).
  - simpl. lia.
  - reflexivity.
  - reflexivity.
  - split; [|exact Hsmart]. apply Hplain. vm_compute.
    intros Hin. repeat (apply elem_of_cons in Hin as [Hin|Hin];
                        [discriminate|]).
    by apply elem_of_nil in Hin.
Defined.

(** ** The filter: further properties *)

Section FilterMore.

Implicit Types (image : ndarray) (t : Z) (z d : nat) (zs : list nat).

(** X9: the loop of the filter classifies every slice exactly once: the
    kept and the set-aside positions together are a rearrangement of
    [range(depth)] and no position is in both lists. *)
Theorem analyse_partitions_slices image t d rest :
  shape image = d :: rest →
  (∀ z, (z < d)%nat → data (plane image z) ≠ []) →
  ∃ non_empty empty,
    Smart.analyse image t (seq 0 d) [] [] = Ok (non_empty, empty) ∧
    non_empty ++ empty ≡ₚ seq 0 d ∧
    (length non_empty + length empty = d)%nat ∧
    (∀ z, z ∈ non_empty → z ∉ empty).
Proof.
  intros Hs Hdata.
  assert (Forall (λ z, (z < d)%nat ∧ data (plane image z) ≠ []) (seq 0 d))
    as Hall.
  { apply Forall_forall. intros z Hz%elem_of_seq. split; [lia|].
    apply Hdata. lia. }
  eexists _, _. split; [by rewrite (analyse_filter _ _ _ _ _ _ _ Hs Hall)|].
  cbn [app].
  assert (filter (λ z, t < peak image z) (seq 0 d) ++
          filter (λ z, ¬ t < peak image z) (seq 0 d) ≡ₚ seq 0 d) as Hperm
    by apply filter_app_complement.
  split; [done|]. split.
  - by rewrite <-length_app, Hperm, length_seq.
  - intros z [Ht _]%list_elem_of_filter [Hnt _]%list_elem_of_filter. done.
Qed.

(** [Samples.striped] at threshold 10: three slices kept, two set aside. *)
Lemma analyse_partitions_slices_witness :
  shape Samples.striped = [5; 4; 4]%nat ∧
  ∃ non_empty empty,
    Smart.analyse Samples.striped 10 (seq 0 5) [] [] = Ok (non_empty, empty) ∧
    non_empty ++ empty ≡ₚ seq 0 5 ∧
    (length non_empty + length empty = 5)%nat.
Proof.
  split; [reflexivity|].
  destruct (analyse_partitions_slices Samples.striped 10 5 [4; 4]%nat)
    as (non_empty & empty & Hrun & Hperm & Hlen & _).
  - reflexivity.
  - intros z Hz.
    do 5 (destruct z as [|z]; [vm_compute; discriminate|]). lia.
  - exists non_empty, empty. split; [exact Hrun|]. split; [exact Hperm|].
    exact Hlen.
Defined.

Lemma filter_sublist_impl {A} (Q Q' : A → Prop) `{!∀ x, Decision (Q x)}
    `{!∀ x, Decision (Q' x)} (l : list A) :
  (∀ x, Q' x → Q x) → filter Q' l `sublist_of` filter Q l.
Proof.
  intros Himpl. induction l as [|x l IH]; [done|].
  rewrite !filter_cons. destruct (decide (Q' x)) as [Hx|Hx].
  - rewrite decide_True by auto. by apply sublist_skip.
  - destruct (decide (Q x)); [by apply sublist_cons|done].
Qed.

(** X10: raising the threshold never keeps a slice that was set aside:
    the positions kept at the higher threshold are, in order, among those
    kept at the lower one, and the positions set aside only grow. *)
Theorem higher_threshold_keeps_fewer image t t' d rest :
  shape image = d :: rest →
  (∀ z, (z < d)%nat → data (plane image z) ≠ []) →
  t ≤ t' →
  ∃ non_empty empty non_empty' empty',
    Smart.analyse image t (seq 0 d) [] [] = Ok (non_empty, empty) ∧
    Smart.analyse image t' (seq 0 d) [] [] = Ok (non_empty', empty') ∧
    non_empty' `sublist_of` non_empty ∧
    empty `sublist_of` empty'.
Proof.
  intros Hs Hdata Ht.
  assert (Forall (λ z, (z < d)%nat ∧ data (plane image z) ≠ []) (seq 0 d))
    as Hall.
  { apply Forall_forall. intros z Hz%elem_of_seq. split; [lia|].
    apply Hdata. lia. }
  eexists _, _, _, _.
  split; [by rewrite (analyse_filter _ _ _ _ _ _ _ Hs Hall)|].
  split; [by rewrite (analyse_filter _ _ _ _ _ _ _ Hs Hall)|].
  cbn [app]. split; apply filter_sublist_impl; intros z; lia.
Qed.

(** [Samples.striped] at the thresholds 10 and 60. *)
Lemma higher_threshold_keeps_fewer_witness :
  shape Samples.striped = [5; 4; 4]%nat ∧
  10 ≤ 60 ∧
  ∃ non_empty empty non_empty' empty',
    Smart.analyse Samples.striped 10 (seq 0 5) [] [] = Ok (non_empty, empty) ∧
    Smart.analyse Samples.striped 60 (seq 0 5) [] []
      = Ok (non_empty', empty') ∧
    non_empty' `sublist_of` non_empty ∧
    empty `sublist_of` empty'.
Proof.
  split; [reflexivity|]. split; [lia|].
  apply (higher_threshold_keeps_fewer Samples.striped 10 60 5 [4; 4]%nat).
  - reflexivity.
  - intros z Hz.
    do 5 (destruct z as [|z]; [vm_compute; discriminate|]). lia.
  - lia.
Defined.

End FilterMore.

Lemma wp_eq {A} (m : M A) (r : result A) (w w' : world) Q :
  m w = (r, w') → Q r w' → wp m Q w.
Proof. unfold wp. by intros ->. Qed.

Section FilterRuns.

Implicit Types (image : ndarray) (t : Z) (z d : nat) (zs : list nat).

Lemma kept_slices_bound image t d :
  Forall (λ z, (z < d)%nat) (kept_slices image t d).
Proof.
  apply Forall_forall. intros z [_ Hz%elem_of_seq]%list_elem_of_filter. lia.
Qed.

Lemma length_complement image t d :
  length (filter (λ z, ¬ t < peak image z) (seq 0 d))
  = (d - length (kept_slices image t d))%nat.
Proof.
  pose proof (filter_app_complement (λ z, t < peak image z) (seq 0 d)) as Hp.
  apply Permutation_length in Hp. rewrite length_app, length_seq in Hp.
  unfold kept_slices. lia.
Qed.

(** The filter block when some slice is above the threshold. *)
Lemma filter_empty_slices_keeps image t d rest (w : world) :
  shape image = d :: rest →
  (∀ z, (z < d)%nat → data (plane image z) ≠ []) →
  kept_slices image t d ≠ [] →
  Smart.filter_empty_slices image t w =
    (Ok (stack image (kept_slices image t d)),
     printed w (filter_lines image t d)).
Proof.
  intros Hs Hdata Hne.
  destruct (analyse_seq image t d rest Hs Hdata) as (Hrun & _ & Hbound & _).
  fold (kept_slices image t d) in Hrun, Hbound.
  unfold Smart.filter_empty_slices, bind, lift, shape0, print, ret.
  rewrite Hs, Hrun. cbn [fst snd fs written stdout].
  rewrite (bool_decide_true _ Hne), (take_planes_in_range _ _ _ _ Hs Hbound).
  cbn [fst snd fs written stdout]. rewrite length_complement.
  unfold printed, filter_lines, stack. cbn [shape]. rewrite Hs.
  by rewrite <-!app_assoc.
Qed.

Lemma stack_of_stack image d rest zs :
  shape image = d :: rest → wf image →
  Forall (λ z, (z < d)%nat) zs →
  stack (stack image zs) (seq 0 (length zs)) = stack image zs.
Proof.
  intros Hs Hwf Hzs.
  assert ((λ j, data (plane (stack image zs) j)) <$> seq 0 (length zs)
          = (λ z, data (plane image z)) <$> zs) as Hmap.
  { apply list_eq. intros j. rewrite !list_lookup_fmap.
    destruct (zs !! j) as [z|] eqn:Hj.
    - rewrite lookup_seq_lt by by eapply lookup_lt_Some.
      cbn [fmap option_fmap option_map].
      by rewrite Nat.add_0_l, (plane_of_stack _ _ _ _ _ _ Hs Hwf Hzs Hj).
    - rewrite lookup_seq_ge; [done|]. by apply lookup_ge_None. }
  unfold stack at 1. rewrite Hmap, length_seq. reflexivity.
Qed.

(** X11: filtering is idempotent: on a well-formed stack with slices of
    positive size, the filter block applied to its own result returns that
    result again. *)
Theorem filter_twice_is_filter_once image t d rest (w : world) :
  shape image = d :: rest →
  wf image →
  (0 < product rest)%nat →
  ∃ filtered w1,
    Smart.filter_empty_slices image t w = (Ok filtered, w1) ∧
    ∀ w', ∃ w2, Smart.filter_empty_slices filtered t w' = (Ok filtered, w2).
Proof.
  intros Hs Hwf Hpos.
  assert (∀ z, (z < d)%nat → data (plane image z) ≠ []) as Hdata.
  { intros z Hz. by eapply plane_inhabited. }
  destruct (decide (kept_slices image t d = [])) as [Hnone|Hsome].
  - assert (∀ z, (z < d)%nat →
              ∃ m, Np.max (plane image z) = Ok m ∧ m ≤ t) as Hmax.
    { intros z Hz. exists (peak image z). split; [by apply peak_max, Hdata|].
      destruct (decide (t < peak image z)) as [Hbright|]; [|lia].
      assert (z ∈ kept_slices image t d) as Hin.
      { apply list_elem_of_filter. split; [done|]. apply elem_of_seq. lia. }
      rewrite Hnone in Hin. by apply elem_of_nil in Hin. }
    eexists _, _. split; [apply (filter_empty_slices_fallback _ _ _ _ _ Hs Hmax)|].
    intros w'. eexists. apply (filter_empty_slices_fallback _ _ _ _ _ Hs Hmax).
  - pose proof (kept_slices_bound image t d) as Hbound.
    set (zs := kept_slices image t d) in *.
    eexists _, _.
    split; [apply (filter_empty_slices_keeps _ _ _ _ _ Hs Hdata Hsome)|].
    fold zs. intros w'.
    assert (shape (stack image zs) = length zs :: rest) as Hs'.
    { unfold stack. cbn. by rewrite Hs. }
    assert (∀ j, (j < length zs)%nat →
              ∃ z, zs !! j = Some z ∧
                   plane (stack image zs) j = plane image z) as Hplane.
    { intros j Hj. destruct (lookup_lt_is_Some_2 zs j Hj) as [z Hz].
      exists z. split; [done|]. by eapply plane_of_stack. }
    assert (∀ j, (j < length zs)%nat → data (plane (stack image zs) j) ≠ [])
      as Hdata'.
    { intros j Hj. destruct (Hplane j Hj) as (z & Hz & ->).
      apply Hdata. rewrite Forall_forall in Hbound.
      by eapply Hbound, list_elem_of_lookup_2. }
    assert (kept_slices (stack image zs) t (length zs) = seq 0 (length zs))
      as Hall.
    { apply filter_all, Forall_forall. intros j Hj%elem_of_seq.
      destruct (Hplane j) as (z & Hz & Heq); [lia|].
      unfold peak. rewrite Heq. fold (peak image z).
      apply list_elem_of_lookup_2 in Hz. unfold zs in Hz.
      by apply list_elem_of_filter in Hz as [Hz _]. }
    eexists. rewrite (filter_empty_slices_keeps _ _ _ _ _ Hs' Hdata').
    + rewrite Hall. by rewrite (stack_of_stack _ _ _ _ Hs Hwf Hbound).
    + rewrite Hall. destruct zs; [done|discriminate].
Qed.

(** [Samples.striped] at threshold 10. *)
Lemma filter_twice_is_filter_once_witness :
  wf Samples.striped ∧
  ∃ filtered w1,
    Smart.filter_empty_slices Samples.striped 10 (World ∅ [] [])
      = (Ok filtered, w1) ∧
    ∀ w', ∃ w2, Smart.filter_empty_slices filtered 10 w' = (Ok filtered, w2).
Proof.
  split; [reflexivity|].
  apply (filter_twice_is_filter_once Samples.striped 10 5 [4; 4]%nat
           (World ∅ [] [])).
  - reflexivity.
  - reflexivity.
  - vm_compute. lia.
Defined.

End FilterRuns.

(** X12: when some slice is above the threshold and the collaborators are
    willing, the smart conversion returns [True] and encodes exactly the
    stack of the kept slices, whose depth is their number, between 1 and
    the depth of the input. *)
Theorem smart_convert_writes_kept_slices (P : platform)
    (ims_path tif_path : string) (t : Z) (kwargs : gmap string (option Z))
    (w : world) (root : H5.node) (image : ndarray) (d : nat)
    (rest : list nat) :
  fs w !! ims_path = Some (ImsFile root) →
  Smart.read_image root kwargs = Ok image →
  shape image = d :: rest →
  (∀ z, (z < d)%nat → data (plane image z) ≠ []) →
  kept_slices image t d ≠ [] →
  os_path_dirname P tif_path ≠ "" →
  makedirs_ok P (os_path_dirname P tif_path) = true →
  imwrite_ok P tif_path (stack image (kept_slices image t d)) plain_options
    = true →
  let run := Smart.convert_ims_to_tif_smart P ims_path tif_path t true
               kwargs w in
  let filtered := stack image (kept_slices image t d) in
  run.1 = Ok true ∧
  written run.2 = written w ++ [(tif_path, Tif filtered plain_options)] ∧
  fs run.2 = <[tif_path := TifFile (Tif filtered plain_options)]> (fs w) ∧
  shape filtered = length (kept_slices image t d) :: rest ∧
  (1 ≤ length (kept_slices image t d) ≤ d)%nat.
Proof.
  intros Hopen Hread Hs Hdata Hsome Hdir Hmk Henc run filtered.
  assert (shape filtered = length (kept_slices image t d) :: rest) as Hs'.
  { unfold filtered, stack. cbn. by rewrite Hs. }
  assert (shape0 image = Ok d) as Hd by (unfold shape0; by rewrite Hs).
  assert (shape0 filtered = Ok (length (kept_slices image t d))) as Hd'
    by (unfold shape0; by rewrite Hs').
  cut (wp (Smart.convert_ims_to_tif_smart P ims_path tif_path t true kwargs)
         (λ r w', r = Ok true ∧
            written w' = written w ++ [(tif_path, Tif filtered plain_options)] ∧
            fs w' = <[tif_path := TifFile (Tif filtered plain_options)]> (fs w))
         w).
  { intros (Hr & Hw & Hf). repeat split; try done.
    - destruct (kept_slices image t d); [done|cbn; lia].
    - unfold kept_slices. rewrite <-(length_seq d 0) at 2.
      apply length_filter. }
  unfold Smart.convert_ims_to_tif_smart, Smart.convert_body.
  apply wp_try. repeat wp_ok.
  eapply wp_eq; [by apply (filter_empty_slices_keeps _ _ _ _ _ Hs)|].
  fold filtered. cbv beta iota. repeat wp_ok. by cbn.
Qed.

(** [Samples.striped] at threshold 10: the slices 0, 2 and 4 are written. *)
Lemma smart_convert_writes_kept_slices_witness :
  (Smart.convert_ims_to_tif_smart Samples.posix "in/a.ims" "out/a.tif" 10
     true ∅ MoreSamples.striped_disk).1 = Ok true ∧
  written (Smart.convert_ims_to_tif_smart Samples.posix "in/a.ims"
     "out/a.tif" 10 true ∅ MoreSamples.striped_disk).2
  = [("out/a.tif",
      Tif (stack Samples.striped (kept_slices Samples.striped 10 5))
        plain_options)] ∧
  shape (stack Samples.striped (kept_slices Samples.striped 10 5))
  = [3; 4; 4]%nat.
Proof.
  destruct (smart_convert_writes_kept_slices Samples.posix "in/a.ims"
              "out/a.tif" 10 ∅ MoreSamples.striped_disk
              (Samples.container Samples.striped Samples.striped)
              Samples.striped 5 [4; 4]%nat)
    as (Hret & Hwritten & _ & Hshape & _).
  - reflexivity.
  - reflexivity.
  - reflexivity.
  - intros z Hz.
    do 5 (destruct z as [|z]; [vm_compute; discriminate|]). lia.
  - vm_compute. discriminate.
  - vm_compute. discriminate.
  - reflexivity.
  - reflexivity.
  - split; [exact Hret|]. split; [exact Hwritten|]. exact Hshape.
Defined.

(** X13: on a stack with slices but without elements in them (a trailing
    dimension is zero) the maximum of the first slice cannot be taken: the
    smart conversion with the filter on returns [False], writes nothing and
    ends on the error line of numpy. *)
Theorem smart_filter_fails_on_empty_planes (P : platform)
    (ims_path tif_path : string) (t : Z) (kwargs : gmap string (option Z))
    (w : world) (root : H5.node) (image : ndarray) (d : nat)
    (rest : list nat) :
  fs w !! ims_path = Some (ImsFile root) →
  Smart.read_image root kwargs = Ok image →
  shape image = S d :: rest →
  product rest = 0%nat →
  let run := Smart.convert_ims_to_tif_smart P ims_path tif_path t true
               kwargs w in
  run.1 = Ok false ∧
  kept w run.2 ∧
  last (stdout run.2) = Some
    "Error: zero-size array to reduction operation maximum which has no identity".
Proof.
  intros Hopen Hread Hs Hzero run.
  assert (shape0 image = Ok (S d)) as Hd by (unfold shape0; by rewrite Hs).
  assert (Smart.analyse image t (seq 0 (S d)) [] [] = Raise (ValueError
    "zero-size array to reduction operation maximum which has no identity"))
    as Hloop.
  { cbn [seq Smart.analyse].
    rewrite (getitem_in_range _ _ _ 0%nat Hs) by lia. cbn [and_then].
    unfold Np.max, plane. rewrite Hs. cbn [tail data]. rewrite Hzero.
    reflexivity. }
  change (wp (Smart.convert_ims_to_tif_smart P ims_path tif_path t true kwargs)
            (λ r w', r = Ok false ∧ kept w w' ∧ last (stdout w') = Some
    "Error: zero-size array to reduction operation maximum which has no identity")
            w).
  unfold Smart.convert_ims_to_tif_smart, Smart.convert_body,
    Smart.filter_empty_slices.
  apply wp_try. repeat wp_ok.
  apply wp_lift. rewrite Hloop.
  repeat wp_ok. cbn. split; [done|]. split; [done|].
  by rewrite last_snoc.
Qed.

(** [MoreSamples.flat], of shape [(2, 0, 3)]. *)
Lemma smart_filter_fails_on_empty_planes_witness :
  shape MoreSamples.flat = [2; 0; 3]%nat ∧
  (Smart.convert_ims_to_tif_smart Samples.posix "in/a.ims" "out/a.tif" 10
     true ∅ MoreSamples.flat_disk).1 = Ok false ∧
  written (Smart.convert_ims_to_tif_smart Samples.posix "in/a.ims"
     "out/a.tif" 10 true ∅ MoreSamples.flat_disk).2 = [].
Proof.
  split; [reflexivity|].
  destruct (smart_filter_fails_on_empty_planes Samples.posix "in/a.ims"
              "out/a.tif" 10 ∅ MoreSamples.flat_disk
              (Samples.container MoreSamples.flat MoreSamples.flat)
              MoreSamples.flat 1 [0; 3]%nat)
    as (Hret & [_ Hwritten] & _).
  - reflexivity.
  - reflexivity.
  - reflexivity.
  - reflexivity.
  - split; [exact Hret|exact Hwritten].
Defined.

(** ** The per-slice export: further properties *)

Section SliceExportMore.

Context (P : platform).

Implicit Types (image : ndarray) (z d k : nat) (zs : list nat) (w : world).

Lemma export_slices_app image output_dir base_name zs1 zs2 slice_data w :
  Advanced.export_slices P image output_dir base_name (zs1 ++ zs2) slice_data w
  = match Advanced.export_slices P image output_dir base_name zs1 slice_data w
    with
    | (Ok slice_data', w') =>
        Advanced.export_slices P image output_dir base_name zs2 slice_data' w'
    | (Raise e, w') => (Raise e, w')
    end.
Proof.
  revert slice_data w. induction zs1 as [|z zs1 IH]; intros slice_data w.
  { reflexivity. }
  cbn [app Advanced.export_slices]. unfold bind, lift.
  destruct (getitem image (Z.of_nat z)) as [a|e]; [|done].
  destruct (imwrite P _ a plain_options w) as [[[]|e] w']; [apply IH|done].
Qed.

Lemma slice_files_app image output_dir base_name zs1 zs2 :
  slice_files P image output_dir base_name (zs1 ++ zs2)
  = slice_files P image output_dir base_name zs1 ++
    slice_files P image output_dir base_name zs2.
Proof. unfold slice_files. by rewrite fmap_app. Qed.

(** The loop stops at the first position the encoder refuses; the files of
    the positions before it are written. *)
Lemma export_slices_refused image d rest output_dir base_name k w :
  shape image = d :: rest →
  (k < d)%nat →
  (∀ z, (z < k)%nat →
     imwrite_ok P (path_join P output_dir (Advanced.slice_name base_name z))
       (plane image z) plain_options = true) →
  imwrite_ok P (path_join P output_dir (Advanced.slice_name base_name k))
    (plane image k) plain_options = false →
  ∃ e,
    Advanced.export_slices P image output_dir base_name (seq 0 d) None w =
      (Raise e,
       World (put_files (slice_files P image output_dir base_name (seq 0 k))
                (fs w))
         (written w ++ slice_files P image output_dir base_name (seq 0 k))
         (stdout w)).
Proof.
  intros Hs Hk Hok Hno.
  assert (seq 0 d = seq 0 k ++ k :: seq (S k) (d - S k)) as ->.
  { replace d with (k + S (d - S k))%nat at 1 by lia.
    by rewrite seq_app. }
  rewrite export_slices_app.
  rewrite (export_slices_run P image d rest output_dir base_name (seq 0 k) None
             w Hs).
  - cbn [Advanced.export_slices]. unfold bind at 1, lift.
    rewrite (getitem_in_range _ _ _ _ Hs) by lia.
    unfold bind at 1, imwrite. rewrite Hno. unfold raise.
    by eexists.
  - apply Forall_forall. intros z Hz%elem_of_seq. lia.
  - apply Forall_forall. intros z Hz%elem_of_seq. apply Hok. lia.
Qed.

End SliceExportMore.

(** X14: the per-slice export of a stack without slices fails: the loop
    never binds [slice_data], the last [print] raises, and
    [convert_with_options] returns [False] with nothing written, after
    having announced that it saved 0 files when the directory could be
    created. *)
Theorem slice_export_of_empty_stack_fails (P : platform)
    (ims_path output_path : string) (kwargs : gmap string (option Z))
    (w : world) (root : H5.node) (image : ndarray) (rest : list nat) :
  fs w !! ims_path = Some (ImsFile root) →
  Advanced.read_image root kwargs = Ok image →
  shape image = 0%nat :: rest →
  let run := Advanced.convert_with_options P ims_path output_path
               "individual_slices" kwargs w in
  run.1 = Ok false ∧
  kept w run.2 ∧
  (makedirs_ok P (slices_dir P output_path ims_path) = true →
   "   Saved 0 files in: " +:+ slices_dir P output_path ims_path
     ∈ stdout run.2).
Proof.
  intros Hopen Hread Hs run.
  assert (shape0 image = Ok 0%nat) as Hd by (unfold shape0; by rewrite Hs).
  change (wp (Advanced.convert_with_options P ims_path output_path
                "individual_slices" kwargs)
            (λ r w', r = Ok false ∧ kept w w' ∧
               (makedirs_ok P (slices_dir P output_path ims_path) = true →
                "   Saved 0 files in: " +:+ slices_dir P output_path ims_path
                  ∈ stdout w')) w).
  unfold Advanced.convert_with_options, Advanced.convert_body.
  apply wp_try. repeat wp_ok.
  rewrite bool_decide_false by done. rewrite bool_decide_true by done.
  unfold Advanced._export_individual_slices, Advanced.mkdir.
  fold (slices_dir P output_path ims_path).
  destruct (makedirs_ok P (slices_dir P output_path ims_path)) eqn:Hmk.
  - repeat wp_ok. cbn [seq Advanced.export_slices].
    repeat wp_step. tidy. split; [done|]. split; [done|]. intros _.
    set_solver.
  - repeat wp_step. tidy. done.
Qed.

(** The hollow stack, of shape [(0, 4, 4)]. *)
Lemma slice_export_of_empty_stack_fails_witness :
  shape Samples.hollow = [0; 4; 4]%nat ∧
  (Advanced.convert_with_options Samples.posix "in/a.ims" "out/a"
     "individual_slices" ∅ MoreSamples.hollow_disk).1 = Ok false ∧
  written (Advanced.convert_with_options Samples.posix "in/a.ims" "out/a"
     "individual_slices" ∅ MoreSamples.hollow_disk).2 = [].
Proof.
  split; [reflexivity|].
  destruct (slice_export_of_empty_stack_fails Samples.posix "in/a.ims" "out/a"
              ∅ MoreSamples.hollow_disk
              (Samples.container Samples.hollow Samples.hollow)
              Samples.hollow [4; 4]%nat)
    as (Hret & [_ Hwritten] & _).
  - reflexivity.
  - reflexivity.
  - reflexivity.
  - split; [exact Hret|exact Hwritten].
Defined.

(** X15: the per-slice export is not all-or-nothing: when the encoder
    takes the slices [0 .. k-1] and refuses slice [k], the conversion
    returns [False] and the [k] files written so far stay on disk. *)
Theorem slice_export_stops_at_refusal (P : platform)
    (ims_path output_path : string) (kwargs : gmap string (option Z))
    (w : world) (root : H5.node) (image : ndarray) (d k : nat)
    (rest : list nat) :
  let base_name := path_stem P ims_path in
  let output_dir := slices_dir P output_path ims_path in
  let run := Advanced.convert_with_options P ims_path output_path
               "individual_slices" kwargs w in
  let files := slice_files P image output_dir base_name (seq 0 k) in
  fs w !! ims_path = Some (ImsFile root) →
  Advanced.read_image root kwargs = Ok image →
  shape image = d :: rest →
  makedirs_ok P output_dir = true →
  (k < d)%nat →
  (∀ z, (z < k)%nat →
     imwrite_ok P (path_join P output_dir (Advanced.slice_name base_name z))
       (plane image z) plain_options = true) →
  imwrite_ok P (path_join P output_dir (Advanced.slice_name base_name k))
    (plane image k) plain_options = false →
  run.1 = Ok false ∧
  written run.2 = written w ++ files ∧
  fs run.2 = put_files files (fs w) ∧
  length files = k.
Proof.
  intros base_name output_dir run files Hopen Hread Hs Hmk Hk Hok Hno.
  assert (shape0 image = Ok d) as Hd by (unfold shape0; by rewrite Hs).
  assert (length files = k) as Hlen.
  { unfold files, slice_files. by rewrite length_fmap, length_seq. }
  cut (wp (Advanced.convert_with_options P ims_path output_path
             "individual_slices" kwargs)
         (λ r w', r = Ok false ∧ written w' = written w ++ files ∧
                  fs w' = put_files files (fs w)) w).
  { intros (? & ? & ?). done. }
  unfold Advanced.convert_with_options, Advanced.convert_body.
  apply wp_try. repeat wp_ok.
  rewrite bool_decide_false by done. rewrite bool_decide_true by done.
  unfold Advanced._export_individual_slices, Advanced.mkdir.
  change (path_join P (path_parent P output_path)
            (path_stem P ims_path +:+ "_slices")) with output_dir.
  change (path_stem P ims_path) with base_name.
  apply wp_bind. rewrite Hmk. repeat wp_ok.
  match goal with
  | |- wp _ _ ?w0 =>
      destruct (export_slices_refused P image d rest output_dir base_name k w0
                  Hs Hk Hok Hno) as [e Hloop]
  end.
  eapply wp_eq; [exact Hloop|]. fold files. repeat wp_step. by cbn.
Qed.

(** [Samples.striped] with an encoder that refuses the third slice. *)
Lemma slice_export_stops_at_refusal_witness :
  (Advanced.convert_with_options
     (MoreSamples.refusing "out/a_slices/a_z002.tif") "in/a.ims" "out/a"
     "individual_slices" ∅ MoreSamples.striped_disk).1 = Ok false ∧
  (written (Advanced.convert_with_options
     (MoreSamples.refusing "out/a_slices/a_z002.tif") "in/a.ims" "out/a"
     "individual_slices" ∅ MoreSamples.striped_disk).2).*1
  = ["out/a_slices/a_z000.tif"; "out/a_slices/a_z001.tif"].
Proof.
  destruct (slice_export_stops_at_refusal
              (MoreSamples.refusing "out/a_slices/a_z002.tif") "in/a.ims"
              "out/a" ∅ MoreSamples.striped_disk
              (Samples.container Samples.striped Samples.striped)
              Samples.striped 5 2 [4; 4]%nat)
    as (Hret & Hwritten & _).
  - reflexivity.
  - reflexivity.
  - reflexivity.
  - reflexivity.
  - lia.
  - intros z Hz. do 2 (destruct z as [|z]; [reflexivity|]). lia.
  - reflexivity.
  - split; [exact Hret|]. rewrite Hwritten. reflexivity.
Defined.

(** ** The names of the slice files *)

Lemma digit_of_char (r : N) :
  (r < 10)%N → (N_of_ascii (pretty_N_char r) - 48 = r)%N.
Proof.
  intros Hr.
  assert (r = 0 ∨ r = 1 ∨ r = 2 ∨ r = 3 ∨ r = 4 ∨ r = 5 ∨ r = 6 ∨ r = 7 ∨
          r = 8 ∨ r = 9)%N as Hcases by lia.
  repeat (destruct Hcases as [->|Hcases]; [reflexivity|]). by subst.
Qed.

Lemma int_of_digits_go (x : N) :
  ∃ L : N, ∀ acc s,
    int_of_digits acc (pretty_N_go x s) = int_of_digits (acc * 10 ^ L + x)%N s.
Proof.
  induction (N.lt_wf_0 x) as [x _ IH].
  assert (x = 0 ∨ 0 < x)%N as [->|Hpos] by lia.
  - exists 0%N. intros acc s. rewrite pretty_N_go_0. f_equal.
    rewrite N.pow_0_r. lia.
  - destruct (IH (x `div` 10)%N) as [L HL]; [by apply N.div_lt|].
    exists (N.succ L). intros acc s.
    rewrite pretty_N_go_step, HL by done. cbn [int_of_digits].
    rewrite digit_of_char by (by apply N.mod_lt).
    f_equal. rewrite N.pow_succ_r'.
    pose proof (N.div_mod x 10). lia.
Qed.

(** Reading back the digits of a number gives the number. *)
Lemma int_of_digits_pretty (z : nat) :
  int_of_digits 0 (pretty z) = N.of_nat z.
Proof.
  unfold pretty, pretty_nat, pretty, pretty_N. case_decide as Hz.
  - by rewrite Hz.
  - destruct (int_of_digits_go (N.of_nat z)) as [L HL]. rewrite HL.
    cbn [int_of_digits]. lia.
Qed.

Lemma int_of_digits_zeros (k : nat) (s : string) :
  int_of_digits 0 (zeros k +:+ s) = int_of_digits 0 s.
Proof. induction k as [|k IH]; [done|]. exact IH. Qed.

(** [int(f"{z:03d}") == z]. *)
Lemma int_of_digits_format_03d (z : nat) :
  int_of_digits 0 (format_03d z) = N.of_nat z.
Proof.
  unfold format_03d. by rewrite int_of_digits_zeros, int_of_digits_pretty.
Qed.

Lemma string_app_inv_tail (s1 s2 t : string) : s1 +:+ t = s2 +:+ t → s1 = s2.
Proof.
  intros Heq.
  assert (String.length s1 = String.length s2) as Hlen.
  { apply (f_equal String.length) in Heq.
    rewrite !string_length_app in Heq. lia. }
  revert s2 Heq Hlen. induction s1 as [|c s1 IH]; intros [|c' s2] Heq Hlen;
    try done.
  injection Heq as -> Heq. f_equal. apply IH; [done|]. by injection Hlen.
Qed.

(** X16: two different slices never get the same file name: the
    zero-filled index can be read back. *)
Theorem slice_names_distinct (base_name : string) (z z' : nat) :
  z ≠ z' →
  Advanced.slice_name base_name z ≠ Advanced.slice_name base_name z'.
Proof.
  intros Hne Heq. apply Hne. unfold Advanced.slice_name in Heq.
  apply (inj (String.append base_name)) in Heq.
  apply (inj (String.append "_z")) in Heq.
  apply string_app_inv_tail in Heq.
  apply (f_equal (int_of_digits 0)) in Heq.
  rewrite !int_of_digits_format_03d in Heq. lia.
Qed.

Lemma slice_names_distinct_witness :
  Advanced.slice_name "a" 7 ≠ Advanced.slice_name "a" 12.
Proof. apply slice_names_distinct. lia. Defined.

(** ** The conversions as the batch scripts call them *)

(** The two outcomes of a plain conversion, as a postcondition. *)
Lemma plain_convert_outcome (P : platform) (ims_path tif_path : string)
    (channel timepoint z_slice : option Z) (w : world) :
  wp (Ims2tif.convert_ims_to_tif P ims_path tif_path channel timepoint z_slice)
    (λ r w', (r = Ok true ∧ added tif_path plain_options w w' ∧
              ∃ root, fs w !! ims_path = Some (ImsFile root)) ∨
             (r = Ok false ∧ kept w w')) w.
Proof.
  unfold Ims2tif.convert_ims_to_tif, Ims2tif.convert_body.
  apply wp_try. repeat wp_step.
  all: try (right; by split).
  left. split; [done|]. split; [by eexists|by eexists].
Qed.

(** The same for the smart conversion. *)
Lemma smart_convert_outcome (P : platform) (ims_path tif_path : string)
    (t : Z) (filter_empty : bool) (kwargs : gmap string (option Z))
    (w : world) :
  wp (Smart.convert_ims_to_tif_smart P ims_path tif_path t filter_empty kwargs)
    (λ r w', (r = Ok true ∧ added tif_path plain_options w w') ∨
             (r = Ok false ∧ kept w w')) w.
Proof.
  unfold Smart.convert_ims_to_tif_smart, Smart.convert_body.
  apply wp_try. repeat wp_step.
  all: try (right; by split).
  match goal with
  | H : Smart.read_image _ _ = Ok ?a |- _ =>
      pose proof (smart_read_image_has_depth _ _ _ H) as Himage;
      apply (wp_wand _ _ (λ r w', kept
               (printed (printed (printed w ["Reading IMS file: " +:+ ims_path])
                  ["Original shape: " +:+ repr_shape (shape a)])
                  ["Data type: " +:+ dtype a]) w' ∧
               ∀ final, r = Ok final → has_depth final))
  end.
  { destruct filter_empty; [apply filter_empty_slices_post|].
    split; [by split|]. by intros final [= <-]. }
  intros [final|e] w' [Hkept Hfinal].
  - destruct (has_depth_shape0 _ Himage) as [d Hd].
    destruct (has_depth_shape0 _ (Hfinal _ eq_refl)) as [d' Hd'].
    repeat wp_step; tidy; simplify_eq.
    all: try (right; split; [done|]; destruct Hkept; by split).
    left. split; [done|]. destruct Hkept as [-> ->]. by eexists.
  - repeat wp_step. right. split; [done|]. tidy. by destruct Hkept.
Qed.

(** The call the batch loop makes on the converter of [__init__]. *)
Lemma real_call_outcome (P : platform) (use_smart_filtering : bool)
    (ims_file : string) (w : world) :
  wp (call P (Recursive.smart_converter P) use_smart_filtering ims_file)
    (λ r w', (r = Ok true ∧
              added (path_with_suffix P ims_file ".tif") plain_options w w') ∨
             (r = Ok false ∧ kept w w')) w.
Proof.
  unfold call, Recursive.smart_converter. destruct use_smart_filtering; cbn.
  - apply smart_convert_outcome.
  - eapply wp_wand; [apply plain_convert_outcome|]. cbn.
    intros r w' [(? & ? & _)|?]; [by left|by right].
Qed.

Lemma added_dom path opts w w' :
  added path opts w w' →
  is_Some (fs w' !! path) ∧ dom (fs w) ⊆ dom (fs w').
Proof.
  intros (a & Hfs & _). rewrite Hfs. split.
  - rewrite lookup_insert_eq. by eexists.
  - rewrite dom_insert. set_solver.
Qed.

Section RealBatch.

Import Recursive.

Context (P : platform).
Context (use_smart_filtering overwrite : bool).

Implicit Types (ims_file f : string) (files rest : list string) (st : stats)
  (w : world) (i n : nat).

(** The loop on the converter of [__init__]: a file is on disk as a TIF
    afterwards unless its name was added to [failed_files], and no file is
    removed. *)
Lemma convert_files_real_post n files i st w :
  ∃ st' w' names,
    convert_files P (smart_converter P) use_smart_filtering overwrite n i
      files st w = (Ok st', w') ∧
    failed_files st' = failed_files st ++ names ∧
    length names = (failed st' - failed st)%nat ∧
    (failed st ≤ failed st')%nat ∧
    Forall (λ f, is_Some (fs w' !! path_with_suffix P f ".tif") ∨ f ∈ names)
      files ∧
    dom (fs w) ⊆ dom (fs w').
Proof.
  revert i st w. induction files as [|ims_file rest IH]; intros i st w.
  { exists st, w, []. cbn. unfold ret. rewrite app_nil_r.
    repeat split; try done. lia. }
  destruct (skips P overwrite w ims_file) eqn:Hskip.
  - rewrite (convert_files_skip _ _ _ _ _ _ _ _ _ _ Hskip).
    destruct (IH (S i) (count_skipped st)
                (printed w [skip_line P i n ims_file]))
      as (st' & w' & names & -> & Hnames & Hlen & Hle & Hall & Hdom).
    exists st', w', names. cbn in *. repeat split; try done.
    apply Forall_cons. split; [|done]. left.
    apply andb_true_iff in Hskip as [Hthere%bool_decide_eq_true _].
    apply elem_of_dom. apply Hdom. by apply elem_of_dom.
  - rewrite (convert_files_call _ _ _ _ _ _ _ _ _ _ Hskip), convert_one_outcome.
    pose proof (real_call_outcome P use_smart_filtering ims_file
                  (printed w (start_lines P i n ims_file))) as Hcall.
    unfold wp in Hcall.
    destruct (call P (smart_converter P) use_smart_filtering ims_file _)
      as [r w1]. cbn [fst snd] in Hcall.
    destruct Hcall as [[-> Hadd]|[-> Hkept]].
    + apply added_dom in Hadd as [Hthere Hdom1].
      destruct (IH (S i) (count_successful st) (printed
                  (printed w1 ["    SUCCESS: " +:+
                     path_name P (path_with_suffix P ims_file ".tif")]) [""]))
        as (st' & w' & names & -> & Hnames & Hlen & Hle & Hall & Hdom).
      exists st', w', names. cbn in *. repeat split; try done.
      * apply Forall_cons. split; [|done]. left.
        apply elem_of_dom. apply Hdom. by apply elem_of_dom.
      * set_solver.
    + destruct Hkept as [Hfs _].
      destruct (IH (S i) (count_failed st ims_file) (printed
                  (printed w1 ["    FAILED: " +:+ path_name P ims_file]) [""]))
        as (st' & w' & names & -> & Hnames & Hlen & Hle & Hall & Hdom).
      exists st', w', (ims_file :: names). cbn in *.
      rewrite <-app_assoc in Hnames.
      repeat split; try done; try lia.
      * apply Forall_cons. split; [right; set_solver|].
        eapply Forall_impl; [exact Hall|]. cbn. intros f [?|?]; [by left|].
        right. set_solver.
      * rewrite Hfs in Hdom. exact Hdom.
Qed.

End RealBatch.

(** X17: on the converter that [__init__] installs the batch loop ends
    without an exception, every file of the list either has its TIF on
    disk afterwards or is listed in [failed_files], and no file that was
    there before is gone. *)
Theorem batch_leaves_tif_or_reports_failure (P : platform)
    (use_smart_filtering overwrite : bool) (n i : nat) (files : list string)
    (st : Recursive.stats) (w : world) :
  ∃ st' w',
    Recursive.convert_files P (Recursive.smart_converter P)
      use_smart_filtering overwrite n i files st w = (Ok st', w') ∧
    Forall (λ f, is_Some (fs w' !! path_with_suffix P f ".tif") ∨
                 f ∈ Recursive.failed_files st') files ∧
    dom (fs w) ⊆ dom (fs w').
Proof.
  destruct (convert_files_real_post P use_smart_filtering overwrite n files i
              st w)
    as (st' & w' & names & Hrun & Hnames & _ & _ & Hall & Hdom).
  exists st', w'. split; [done|]. split; [|done].
  eapply Forall_impl; [exact Hall|]. cbn. intros f [?|?]; [by left|].
  right. rewrite Hnames. set_solver.
Qed.

(** X18: a pass without failures makes the next one a no-op: with
    overwriting off, running the loop again on the same files skips every
    one of them, converts nothing and writes nothing. *)
Theorem second_pass_skips_everything (P : platform)
    (use_smart_filtering : bool) (n i : nat) (files : list string)
    (st st1 : Recursive.stats) (w w1 : world) :
  Recursive.convert_files P (Recursive.smart_converter P) use_smart_filtering
    false n i files st w = (Ok st1, w1) →
  Recursive.failed st1 = Recursive.failed st →
  ∀ (use_smart_filtering' : bool) (n' i' : nat), ∃ w2,
    Recursive.convert_files P (Recursive.smart_converter P)
      use_smart_filtering' false n' i' files st1 w1
    = (Ok (Recursive.Stats (Recursive.total_found st1)
             (Recursive.successful st1) (Recursive.failed st1)
             (Recursive.skipped st1 + length files)
             (Recursive.failed_files st1)), w2) ∧
    kept w1 w2.
Proof.
  intros Hrun Hfailed use_smart_filtering' n' i'.
  destruct (convert_files_real_post P use_smart_filtering false n files i
              st w)
    as (st' & w' & names & Hrun' & _ & Hlen & _ & Hall & _).
  rewrite Hrun in Hrun'. injection Hrun' as <- <-.
  assert (names = []) as ->.
  { apply length_zero_iff_nil. lia. }
  destruct (convert_files_all_skipped P (Recursive.smart_converter P)
              use_smart_filtering' false n' files i' st1 w1 eq_refl)
    as (w2 & Hrun2 & Hfs & Hwritten).
  { eapply Forall_impl; [exact Hall|]. cbn. intros f [?|Hin]; [done|].
    by apply elem_of_nil in Hin. }
  exists w2. by repeat split.
Qed.

(** The folder of [Samples.folder]: [a] was converted before, [b] is
    converted by the first pass. *)
Lemma second_pass_skips_everything_witness :
  (Recursive.convert_files Samples.posix
     (Recursive.smart_converter Samples.posix) true false 2 1
     ["d/a.ims"; "d/b.ims"] Recursive.initial_stats Samples.folder).1
  = Ok (Recursive.Stats 0 1 0 1 []) ∧
  ∃ w2,
    Recursive.convert_files Samples.posix
      (Recursive.smart_converter Samples.posix) true false 2 1
      ["d/a.ims"; "d/b.ims"] (Recursive.Stats 0 1 0 1 [])
      (Recursive.convert_files Samples.posix
         (Recursive.smart_converter Samples.posix) true false 2 1
         ["d/a.ims"; "d/b.ims"] Recursive.initial_stats Samples.folder).2
    = (Ok (Recursive.Stats 0 1 0 3 []), w2).
Proof.
  destruct (Recursive.convert_files Samples.posix
     (Recursive.smart_converter Samples.posix) true false 2 1
     ["d/a.ims"; "d/b.ims"] Recursive.initial_stats Samples.folder)
    as [r w1] eqn:Hrun.
  assert (r = Ok (Recursive.Stats 0 1 0 1 [])) as ->.
  { apply (f_equal fst) in Hrun. vm_compute in Hrun. by symmetry. }
  split; [reflexivity|].
  destruct (second_pass_skips_everything Samples.posix true 2 1
              ["d/a.ims"; "d/b.ims"] Recursive.initial_stats
              (Recursive.Stats 0 1 0 1 []) Samples.folder w1 Hrun eq_refl
              true 2%nat 1%nat) as (w2 & Hrun2 & _).
  exists w2. exact Hrun2.
Defined.

(** ** [find_all_ims_files]: the grouping by directory *)

Section Grouping.

Import RecursiveConverter.

Context (P : platform).

Implicit Types (by_directory : list (string * list string))
  (dir_path ims_file : string) (ims_files seen : list string).

Lemma add_file_keys dir_path ims_file by_directory :
  (add_file dir_path ims_file by_directory).*1
  = if bool_decide (dir_path ∈ by_directory.*1) then by_directory.*1
    else by_directory.*1 ++ [dir_path].
Proof.
  induction by_directory as [|[d files] others IH]; [done|].
  cbn [add_file].
  destruct (decide (d = dir_path)) as [Heq|Hne].
  - rewrite (bool_decide_true _ Heq). subst d. cbn.
    rewrite bool_decide_true by apply list_elem_of_here. done.
  - rewrite (bool_decide_false _ Hne). cbn. rewrite IH.
    rewrite (bool_decide_ext (dir_path ∈ d :: others.*1)
               (dir_path ∈ others.*1)).
    + by case_bool_decide.
    + rewrite elem_of_cons. intuition congruence.
Qed.

Lemma add_file_sum dir_path ims_file by_directory :
  sum_list (length <$> (add_file dir_path ims_file by_directory).*2)
  = S (sum_list (length <$> by_directory.*2)).
Proof.
  induction by_directory as [|[d files] others IH]; [done|].
  cbn [add_file]. case_bool_decide.
  - cbn. rewrite length_app. cbn. lia.
  - cbn. cbn in IH. rewrite IH. lia.
Qed.

(** The entries after one more file: the entry of its directory gains the
    file at its end, or is created for it; the others are as before. *)
Lemma add_file_entry dir_path ims_file by_directory d files :
  NoDup by_directory.*1 →
  (d, files) ∈ add_file dir_path ims_file by_directory →
  (d = dir_path ∧
   ((∃ before, files = before ++ [ims_file] ∧ (d, before) ∈ by_directory) ∨
    ((d ∉ by_directory.*1) ∧ files = [ims_file]))) ∨
  (d ≠ dir_path ∧ (d, files) ∈ by_directory).
Proof.
  induction by_directory as [|[d0 files0] others IH]; intros Hnd Hin.
  { cbn in Hin. apply list_elem_of_singleton in Hin as [= -> ->].
    left. split; [done|]. right. split; [apply not_elem_of_nil|done]. }
  cbn in Hnd. apply NoDup_cons in Hnd as [Hd0 Hnd].
  cbn [add_file] in Hin.
  destruct (decide (d0 = dir_path)) as [Heq|Hne].
  - rewrite (bool_decide_true _ Heq) in Hin. subst d0.
    apply elem_of_cons in Hin as [[= -> ->]|Hin].
    + left. split; [done|]. left. exists files0.
      split; [done|apply list_elem_of_here].
    + right. split; [|by apply list_elem_of_further]. intros ->. apply Hd0.
      apply list_elem_of_fmap. by exists (dir_path, files).
  - rewrite (bool_decide_false _ Hne) in Hin.
    apply elem_of_cons in Hin as [[= -> ->]|Hin].
    + right. split; [done|apply list_elem_of_here].
    + destruct (IH Hnd Hin) as [[-> [(before & -> & Hb)|[Hnot ->]]]|[Hd Hold]].
      * left. split; [done|]. left. exists before.
        split; [done|by apply list_elem_of_further].
      * left. split; [done|]. right. split; [|done]. cbn.
        rewrite not_elem_of_cons. split; [congruence|done].
      * right. split; [done|by apply list_elem_of_further].
Qed.

(** What the dictionary holds once the files [seen] went through the
    loop. *)
Lemma group_by_directory_spec by_directory seen ims_files :
  NoDup by_directory.*1 →
  (∀ f, f ∈ seen → path_parent P f ∈ by_directory.*1) →
  (∀ d files, (d, files) ∈ by_directory →
     files ≠ [] ∧ files = filter (λ f, path_parent P f = d) seen) →
  sum_list (length <$> by_directory.*2) = length seen →
  let result :=
    foldl (λ by_directory ims_file,
             add_file (path_parent P ims_file) ims_file by_directory)
      by_directory ims_files in
  NoDup result.*1 ∧
  (∀ f, f ∈ seen ++ ims_files → path_parent P f ∈ result.*1) ∧
  (∀ d files, (d, files) ∈ result →
     files ≠ [] ∧
     files = filter (λ f, path_parent P f = d) (seen ++ ims_files)) ∧
  sum_list (length <$> result.*2) = length (seen ++ ims_files).
Proof.
  revert by_directory seen.
  induction ims_files as [|ims_file ims_files IH];
    intros by_directory seen Hnd Hkeys Hgroups Hsum.
  { cbn. rewrite app_nil_r. done. }
  cbn [foldl].
  replace (seen ++ ims_file :: ims_files)
    with ((seen ++ [ims_file]) ++ ims_files) by (by rewrite <-app_assoc).
  apply IH.
  - rewrite add_file_keys. case_bool_decide as Hin; [done|].
    apply NoDup_app. split; [done|]. split; [|apply NoDup_singleton].
    intros d Hd ->%list_elem_of_singleton. done.
  - intros f Hf. rewrite add_file_keys.
    apply elem_of_app in Hf as [Hf|Hf%list_elem_of_singleton].
    + apply Hkeys in Hf. case_bool_decide; [done|].
      apply elem_of_app. by left.
    + subst f. case_bool_decide; [done|].
      apply elem_of_app. right. apply list_elem_of_here.
  - intros d files Hin.
    apply add_file_entry in Hin
        as [[-> [(before & -> & Hb)|[Hnot ->]]]|[Hd Hold]]; [| | |done].
    + destruct (Hgroups _ _ Hb) as [_ Hbefore]. split; [by destruct before|].
      rewrite filter_app, <-Hbefore, filter_cons, decide_True by done. done.
    + split; [done|]. rewrite filter_app, filter_cons, decide_True by done.
      assert (filter (λ f, path_parent P f = path_parent P ims_file) seen = [])
        as ->; [|done].
      destruct (filter _ seen) as [|f l] eqn:Hf; [done|].
      assert (f ∈ filter (λ f, path_parent P f = path_parent P ims_file) seen)
        as [Hp Hin]%list_elem_of_filter
        by (rewrite Hf; apply list_elem_of_here).
      apply Hkeys in Hin. by rewrite Hp in Hin.
    + destruct (Hgroups _ _ Hold) as [Hne Hfiles]. split; [done|].
      rewrite filter_app, <-Hfiles, filter_cons, decide_False by done.
      by rewrite app_nil_r.
  - rewrite add_file_sum, length_app. cbn. lia.
Qed.

End Grouping.

(** X19: the grouping of [find_all_ims_files] has one entry per
    directory, none of them empty; the entry of a directory holds exactly
    the files of the listing whose parent it is, in the order of the
    listing; every file is in the entry of its parent, and the sizes
    printed add up to the number of files found. *)
Theorem group_by_directory_partitions (P : platform)
    (ims_files : list string) :
  let by_directory := RecursiveConverter.group_by_directory P ims_files in
  NoDup by_directory.*1 ∧
  Forall (λ g, g.2 ≠ [] ∧
               g.2 = filter (λ f, path_parent P f = g.1) ims_files)
    by_directory ∧
  Forall (λ f, path_parent P f ∈ by_directory.*1) ims_files ∧
  sum_list (length <$> by_directory.*2) = length ims_files ∧
  (length by_directory ≤ length ims_files)%nat.
Proof.
  intros by_directory.
  destruct (group_by_directory_spec P [] [] ims_files) as (Hnd & Hkeys & Hgroups & Hsum).
  - apply NoDup_nil_2.
  - intros f Hf. by apply elem_of_nil in Hf.
  - intros d files Hin. by apply elem_of_nil in Hin.
  - done.
  - fold (RecursiveConverter.group_by_directory P ims_files) in *.
    fold by_directory in Hnd, Hkeys, Hgroups, Hsum. cbn [app] in *.
    assert (Forall (λ g, g.2 ≠ [] ∧
               g.2 = filter (λ f, path_parent P f = g.1) ims_files)
              by_directory) as Hall.
    { apply Forall_forall. intros [d files] Hin. by apply Hgroups. }
    repeat split; try done.
    + apply Forall_forall. intros f Hf. by apply Hkeys.
    + rewrite <-Hsum. clear -Hall.
      induction Hall as [|[d files] others [Hne _] _ IH]; [done|].
      cbn in *. destruct files; [done|]. cbn. lia.
Qed.

(** ** [convert_all_files] *)

Section WholeRun.

Import Recursive RecursiveConverter.

Context (P : platform) (E : environment) (conv : converter).
Context (use_smart_filtering : bool).

Implicit Types (files : list string) (st : stats) (w : world).

Lemma print_groups_run root_directory by_directory w :
  Forall (λ g, ∃ rel, relative_to E g.1 root_directory = Ok rel) by_directory →
  ∃ w', print_groups E root_directory by_directory w = (Ok tt, w') ∧
        kept w w'.
Proof.
  intros Hall. revert w.
  induction Hall as [|[d files] others [rel Hrel] _ IH]; intros w.
  { by exists w. }
  cbn [print_groups fst] in *. unfold bind at 1, lift. rewrite Hrel.
  unfold bind at 1, print at 1.
  destruct (IH (World (fs w) (written w)
                  (stdout w ++ ["   " +:+ rel +:+ ": " +:+
                                pretty (length files) +:+ " files"])))
    as (w' & -> & Hkept).
  by exists w'.
Qed.

(** A listing whose directories are below the root goes through. *)
Lemma find_all_ims_files_run root_directory w :
  dir_exists E root_directory (fs w) = true →
  (∀ f, f ∈ rglob_ims E root_directory (fs w) →
     ∃ rel, relative_to E (path_parent P f) root_directory = Ok rel) →
  ∃ w', find_all_ims_files P E root_directory w
          = (Ok (rglob_ims E root_directory (fs w)), w') ∧
        kept w w'.
Proof.
  intros Hthere Hrel. unfold find_all_ims_files.
  unfold bind at 1. rewrite Hthere. cbn [negb].
  unfold bind at 1. unfold bind at 1, print at 1.
  unfold bind at 1, print at 1. unfold bind at 1, print at 1.
  cbn [fs written stdout].
  set (files := rglob_ims E root_directory (fs w)) in *.
  unfold bind.
  match goal with
  | |- context [print_groups E root_directory ?g ?w0] =>
      destruct (print_groups_run root_directory g w0) as (w' & Hrun & Hkept)
  end.
  { destruct (group_by_directory_spec P [] [] files)
      as (_ & _ & Hgroups & _); try done.
    - apply NoDup_nil_2.
    - intros f Hf. by apply elem_of_nil in Hf.
    - intros d fl Hin. by apply elem_of_nil in Hin.
    - apply Forall_forall. intros [d fl] Hin. cbn.
      destruct (Hgroups d fl Hin) as [Hne Hfl]. cbn [app] in Hfl.
      destruct fl as [|f fl']; [done|].
      assert (f ∈ filter (λ f, path_parent P f = d) files)
        as [<- Hf]%list_elem_of_filter
        by (rewrite <-Hfl; apply list_elem_of_here).
      by apply Hrel. }
  rewrite Hrun. exists w'. split; [done|].
  destruct Hkept as [Hfs Hwr]. by split.
Qed.

(** A listing never changes a file, and it fails at once when the root is
    missing. *)
Lemma find_all_ims_files_post root_directory w :
  ∃ r w',
    find_all_ims_files P E root_directory w = (r, w') ∧
    kept w w' ∧
    (dir_exists E root_directory (fs w) = false →
     r = Raise (ValueError ("Directory not found: " +:+ root_directory)) ∧
     stdout w' = stdout w) ∧
    (∀ files, r = Ok files → files = rglob_ims E root_directory (fs w)).
Proof.
  unfold find_all_ims_files.
  unfold bind at 1.
  destruct (dir_exists E root_directory (fs w)) eqn:Hthere; cbn [negb].
  2:{ unfold raise. eexists _, _. split; [done|]. by repeat split. }
  unfold bind at 1. unfold bind at 1, print at 1.
  unfold bind at 1, print at 1. unfold bind at 1, print at 1.
  cbn [fs written stdout].
  set (files := rglob_ims E root_directory (fs w)) in *.
  assert (∀ g w0, kept w0 (print_groups E root_directory g w0).2) as Hquiet.
  { induction g as [|[d fl] others IH]; intros w0; [done|].
    cbn [print_groups]. unfold bind at 1, lift.
    destruct (relative_to E d root_directory) as [rel|e]; [|done].
    unfold bind at 1, print at 1.
    match goal with
    | |- kept _ (print_groups _ _ _ ?w1).2 =>
        destruct (IH w1) as [Hfs Hwr]
    end.
    by split. }
  unfold bind.
  match goal with
  | |- context [print_groups E root_directory ?g ?w0] =>
      pose proof (Hquiet g w0) as Hkept;
      destruct (print_groups E root_directory g w0) as [[[]|e] w']
  end; cbn in Hkept.
  - eexists _, _. split; [done|]. repeat split; try done;
      try (by destruct Hkept). by intros fl [= <-].
  - eexists _, _. split; [done|]. repeat split; try done;
      by destruct Hkept.
Qed.

Lemma print_failed_run names w :
  ∃ w', print_failed P names w = (Ok tt, w') ∧ kept w w'.
Proof.
  revert w. induction names as [|f names IH]; intros w; [by exists w|].
  cbn [print_failed]. unfold bind, print.
  destruct (IH (World (fs w) (written w)
                  (stdout w ++ ["   - " +:+ path_name P f])))
    as (w' & -> & Hkept).
  by exists w'.
Qed.

Lemma print_summary_run st w :
  ∃ w', print_summary P E st w = (Ok tt, w') ∧ kept w w'.
Proof.
  unfold print_summary.
  repeat (unfold bind at 1, print at 1; cbn [fs written stdout]).
  case_bool_decide.
  - match goal with
    | |- context [print_failed P ?l ?w0] =>
        destruct (print_failed_run l w0) as (w' & -> & Hkept)
    end.
    by exists w'.
  - eexists. by split.
Qed.

(** The successes counted by the loop only grow. *)
Lemma convert_files_successful overwrite n files i st w :
  ∃ st' w',
    convert_files P conv use_smart_filtering overwrite n i files st w
      = (Ok st', w') ∧
    (successful st ≤ successful st')%nat.
Proof.
  revert i st w. induction files as [|ims_file rest IH]; intros i st w.
  { by exists st, w. }
  destruct (skips P overwrite w ims_file) eqn:Hskip.
  - rewrite (convert_files_skip _ _ _ _ _ _ _ _ _ _ Hskip).
    destruct (IH (S i) (count_skipped st)
                (printed w [skip_line P i n ims_file]))
      as (st' & w' & -> & Hle).
    by exists st', w'.
  - rewrite (convert_files_call _ _ _ _ _ _ _ _ _ _ Hskip), convert_one_outcome.
    destruct (call P conv use_smart_filtering ims_file _) as [[[|]|e] w1].
    + destruct (IH (S i) (count_successful st) (printed
                  (printed w1 ["    SUCCESS: " +:+
                     path_name P (path_with_suffix P ims_file ".tif")]) [""]))
        as (st' & w' & -> & Hle).
      exists st', w'. cbn in *. split; [done|lia].
    + destruct (IH (S i) (count_failed st ims_file) (printed
                  (printed w1 ["    FAILED: " +:+ path_name P ims_file]) [""]))
        as (st' & w' & -> & Hle).
      by exists st', w'.
    + destruct (IH (S i) (count_failed st ims_file) (printed
                  (printed w1 ["    ERROR: " +:+ first_80 (str_exn e) +:+
                                 "..."]) [""]))
        as (st' & w' & -> & Hle).
      by exists st', w'.
Qed.

(** The method once the listing is known. *)
Lemma convert_all_files_after_listing root_directory overwrite st w files w1 :
  find_all_ims_files P E root_directory
    (printed w ["Recursive IMS to TIF Converter"; str_mul "=" 40])
    = (Ok files, w1) →
  ∃ b st' w',
    convert_all_files P E conv use_smart_filtering root_directory overwrite
      st w = (Ok (b, st'), w') ∧
    (files = [] → b = false ∧ st' = st) ∧
    (files ≠ [] →
       total_found st' = length files ∧
       accounted st' = (accounted st + length files)%nat ∧
       (successful st ≤ successful st')%nat ∧
       (length (failed_files st')
        = length (failed_files st) + (failed st' - failed st))%nat ∧
       b = bool_decide (0 < successful st')%nat).
Proof.
  intros Hfind. unfold convert_all_files.
  unfold bind at 1, print at 1. unfold bind at 1, print at 1.
  cbn [fs written stdout]. unfold bind at 1.
  unfold printed in Hfind. cbn [fs written stdout] in Hfind.
  rewrite <-app_assoc. cbn [app]. rewrite Hfind.
  case_bool_decide as Hnone.
  { unfold bind, print, ret. eexists _, _, _. split; [done|].
    split; [done|]. intros Hsome. done. }
  repeat (unfold bind at 1, print at 1; cbn [fs written stdout]).
  unfold bind at 1.
  match goal with
  | |- context [convert_files P conv use_smart_filtering overwrite ?n ?fl ?i
                  ?st0 ?w0] =>
      destruct (convert_files_total P conv use_smart_filtering overwrite n
                  i fl st0 w0)
        as (st' & w' & names & Hrun & Hacc & Hnames & _ & Hlen & Hle & Htot);
      destruct (convert_files_successful overwrite n i fl st0 w0)
        as (st2 & w2 & Hrun2 & Hsucc)
  end.
  rewrite Hrun in Hrun2. injection Hrun2 as <- <-. rewrite Hrun.
  unfold bind at 1.
  destruct (print_summary_run st' w') as (w3 & -> & _).
  unfold ret. eexists _, _, _. split; [done|]. split; [done|]. intros _.
  unfold accounted in *. cbn in *. rewrite Hnames, length_app.
  repeat split; try done; lia.
Qed.

(** The method when the root is missing. *)
Lemma convert_all_files_without_root root_directory overwrite st w :
  dir_exists E root_directory (fs w) = false →
  convert_all_files P E conv use_smart_filtering root_directory overwrite st w
  = (Raise (ValueError ("Directory not found: " +:+ root_directory)),
     printed w ["Recursive IMS to TIF Converter"; str_mul "=" 40]).
Proof.
  intros Hthere. unfold convert_all_files, find_all_ims_files.
  unfold bind at 1, print at 1. unfold bind at 1, print at 1.
  cbn [fs written stdout]. unfold bind at 1. unfold bind at 1.
  cbn [fs]. rewrite Hthere. cbn [negb]. unfold raise, printed.
  by rewrite <-app_assoc.
Qed.

(** The method raises only through the listing. *)
Lemma convert_all_files_listing root_directory overwrite st w b st' :
  (convert_all_files P E conv use_smart_filtering root_directory overwrite
     st w).1 = Ok (b, st') →
  ∃ w1,
    find_all_ims_files P E root_directory
      (printed w ["Recursive IMS to TIF Converter"; str_mul "=" 40])
    = (Ok (rglob_ims E root_directory (fs w)), w1).
Proof.
  intros Hrun.
  destruct (find_all_ims_files_post root_directory
              (printed w ["Recursive IMS to TIF Converter"; str_mul "=" 40]))
    as (r & w1 & Hfind & _ & _ & Hfiles).
  destruct r as [files|e].
  - rewrite (Hfiles files eq_refl) in Hfind. by exists w1.
  - exfalso. unfold convert_all_files in Hrun.
    unfold bind at 1, print at 1 in Hrun.
    unfold bind at 1, print at 1 in Hrun.
    cbn [fs written stdout] in Hrun. unfold bind at 1 in Hrun.
    unfold printed in Hfind. rewrite <-app_assoc in Hrun.
    cbn [app] in Hrun. rewrite Hfind in Hrun. done.
Qed.

End WholeRun.

(** X20: [convert_all_files] raises exactly when the root directory is
    missing: then it is the [ValueError] of [find_all_ims_files] and
    nothing was written; when the root exists it returns, whatever the
    converter does, and with an empty listing it returns [False] and
    leaves the statistics alone. *)
Theorem convert_all_files_raises_only_without_root (P : platform)
    (E : environment) (conv : Recursive.converter)
    (use_smart_filtering overwrite : bool) (root_directory : string)
    (st : Recursive.stats) (w : world) :
  (∀ f, f ∈ rglob_ims E root_directory (fs w) →
     ∃ rel, relative_to E (path_parent P f) root_directory = Ok rel) →
  let run := RecursiveConverter.convert_all_files P E conv
               use_smart_filtering root_directory overwrite st w in
  (dir_exists E root_directory (fs w) = false ∧
   run.1 = Raise (ValueError ("Directory not found: " +:+ root_directory)) ∧
   kept w run.2) ∨
  (dir_exists E root_directory (fs w) = true ∧
   ∃ b st', run.1 = Ok (b, st') ∧
            (rglob_ims E root_directory (fs w) = [] → b = false ∧ st' = st)).
Proof.
  intros Hrel run.
  set (w0 := printed w ["Recursive IMS to TIF Converter"; str_mul "=" 40]).
  destruct (dir_exists E root_directory (fs w)) eqn:Hthere.
  - right. split; [done|].
    destruct (find_all_ims_files_run P E root_directory w0 Hthere Hrel)
      as (w1 & Hfind & _).
    destruct (convert_all_files_after_listing P E conv use_smart_filtering
                root_directory overwrite st w _ w1 Hfind)
      as (b & st' & w' & Hrun & Hnone & _).
    exists b, st'. subst run. rewrite Hrun. split; [done|]. exact Hnone.
  - left. split; [done|]. subst run.
    rewrite (convert_all_files_without_root P E conv use_smart_filtering
               root_directory overwrite st w Hthere).
    by split.
Qed.

(** X21: on a fresh converter the summary adds up: [total_found] is the
    number of files listed and equals successful + failed + skipped,
    [failed_files] has one name per failure, and the result is [True]
    exactly when some file was converted. *)
Theorem fresh_run_summary_adds_up (P : platform) (E : environment)
    (conv : Recursive.converter) (use_smart_filtering overwrite : bool)
    (root_directory : string) (w : world) (b : bool)
    (st' : Recursive.stats) :
  (RecursiveConverter.convert_all_files P E conv use_smart_filtering
     root_directory overwrite Recursive.initial_stats w).1 = Ok (b, st') →
  Recursive.total_found st' = length (rglob_ims E root_directory (fs w)) ∧
  accounted st' = Recursive.total_found st' ∧
  length (Recursive.failed_files st') = Recursive.failed st' ∧
  b = bool_decide (0 < Recursive.successful st')%nat.
Proof.
  intros Hrun.
  destruct (convert_all_files_listing P E conv use_smart_filtering
              root_directory overwrite _ w b st' Hrun) as [w1 Hfind].
  destruct (convert_all_files_after_listing P E conv use_smart_filtering
              root_directory overwrite Recursive.initial_stats w _ w1 Hfind)
    as (b' & st2 & w' & Hrun' & Hnone & Hsome).
  rewrite Hrun' in Hrun. injection Hrun as -> ->.
  destruct (decide (rglob_ims E root_directory (fs w) = [])) as [Hnil|Hne].
  - destruct (Hnone Hnil) as [-> ->]. rewrite Hnil. done.
  - destruct (Hsome Hne) as (Htot & Hacc & _ & Hlen & Hb).
    unfold accounted in *. cbn in *. repeat split; try done; lia.
Qed.

(** X22: the statistics are never reset: on a converter that converted
    a file in an earlier run, a run that finds files returns [True]
    whatever happens to them, and the counters exceed [total_found] by
    what they held before. *)
Theorem reused_converter_reports_stale_success (P : platform)
    (E : environment) (conv : Recursive.converter)
    (use_smart_filtering overwrite : bool) (root_directory : string)
    (st : Recursive.stats) (w : world) (b : bool) (st' : Recursive.stats) :
  (RecursiveConverter.convert_all_files P E conv use_smart_filtering
     root_directory overwrite st w).1 = Ok (b, st') →
  rglob_ims E root_directory (fs w) ≠ [] →
  (0 < Recursive.successful st)%nat →
  b = true ∧
  accounted st' = (accounted st + Recursive.total_found st')%nat.
Proof.
  intros Hrun Hne Hold.
  destruct (convert_all_files_listing P E conv use_smart_filtering
              root_directory overwrite _ w b st' Hrun) as [w1 Hfind].
  destruct (convert_all_files_after_listing P E conv use_smart_filtering
              root_directory overwrite st w _ w1 Hfind)
    as (b' & st2 & w' & Hrun' & _ & Hsome).
  rewrite Hrun' in Hrun. injection Hrun as -> ->.
  destruct (Hsome Hne) as (Htot & Hacc & Hle & _ & ->).
  split; [apply bool_decide_eq_true; lia|]. rewrite Htot. exact Hacc.
Qed.

(** The missing root, and a converter that raises on every file. *)
Lemma convert_all_files_raises_only_without_root_witness :
  (RecursiveConverter.convert_all_files Samples.posix BatchSamples.nowhere
     Samples.unreliable true "d" true Recursive.initial_stats
     Samples.folder).1
  = Raise (ValueError "Directory not found: d") ∧
  ∃ b st',
    (RecursiveConverter.convert_all_files Samples.posix
       (BatchSamples.listing ["d/b.ims"; "d/c.ims"]) Samples.unreliable true
       "d" true Recursive.initial_stats Samples.folder).1 = Ok (b, st').
Proof.
  split.
  - destruct (convert_all_files_raises_only_without_root Samples.posix
                BatchSamples.nowhere Samples.unreliable true true "d"
                Recursive.initial_stats Samples.folder)
      as [(_ & Hrun & _)|(Hthere & _)].
    + intros f Hf. by apply elem_of_nil in Hf.
    + exact Hrun.
    + discriminate Hthere.
  - destruct (convert_all_files_raises_only_without_root Samples.posix
                (BatchSamples.listing ["d/b.ims"; "d/c.ims"])
                Samples.unreliable true true "d"
                Recursive.initial_stats Samples.folder)
      as [(Hthere & _)|(_ & b & st' & Hrun & _)].
    + intros f Hf. exists ".".
      apply elem_of_cons in Hf as [->|Hf]; [reflexivity|].
      apply list_elem_of_singleton in Hf as ->. reflexivity.
    + discriminate Hthere.
    + by exists b, st'.
Defined.

(** The folder of [Samples.folder], first run. *)
Lemma fresh_run_summary_adds_up_witness :
  (RecursiveConverter.convert_all_files Samples.posix
     (BatchSamples.listing ["d/a.ims"; "d/b.ims"])
     (Recursive.smart_converter Samples.posix) true "d" false
     Recursive.initial_stats Samples.folder).1
  = Ok (true, Recursive.Stats 2 1 0 1 []) ∧
  accounted (Recursive.Stats 2 1 0 1 []) = 2%nat.
Proof.
  assert ((RecursiveConverter.convert_all_files Samples.posix
     (BatchSamples.listing ["d/a.ims"; "d/b.ims"])
     (Recursive.smart_converter Samples.posix) true "d" false
     Recursive.initial_stats Samples.folder).1
  = Ok (true, Recursive.Stats 2 1 0 1 [])) as Hrun by (vm_compute; reflexivity).
  split; [exact Hrun|].
  destruct (fresh_run_summary_adds_up Samples.posix
              (BatchSamples.listing ["d/a.ims"; "d/b.ims"])
              (Recursive.smart_converter Samples.posix) true false "d"
              Samples.folder true (Recursive.Stats 2 1 0 1 []) Hrun)
    as (_ & Hacc & _).
  exact Hacc.
Defined.

(** A converter that converted one file before: the one file of this run
    is skipped. *)
Lemma reused_converter_reports_stale_success_witness :
  (RecursiveConverter.convert_all_files Samples.posix
     (BatchSamples.listing ["d/a.ims"])
     (Recursive.smart_converter Samples.posix) true "d" false
     (Recursive.Stats 1 1 0 0 []) Samples.folder).1
  = Ok (true, Recursive.Stats 1 1 0 1 []) ∧
  written (RecursiveConverter.convert_all_files Samples.posix
     (BatchSamples.listing ["d/a.ims"])
     (Recursive.smart_converter Samples.posix) true "d" false
     (Recursive.Stats 1 1 0 0 []) Samples.folder).2 = [] ∧
  accounted (Recursive.Stats 1 1 0 1 []) = 2%nat.
Proof.
  assert ((RecursiveConverter.convert_all_files Samples.posix
     (BatchSamples.listing ["d/a.ims"])
     (Recursive.smart_converter Samples.posix) true "d" false
     (Recursive.Stats 1 1 0 0 []) Samples.folder).1
  = Ok (true, Recursive.Stats 1 1 0 1 [])) as Hrun by (vm_compute; reflexivity).
  split; [exact Hrun|]. split; [vm_compute; reflexivity|].
  destruct (reused_converter_reports_stale_success Samples.posix
              (BatchSamples.listing ["d/a.ims"])
              (Recursive.smart_converter Samples.posix) true false "d"
              (Recursive.Stats 1 1 0 0 []) Samples.folder true
              (Recursive.Stats 1 1 0 1 []) Hrun)
    as (_ & Hacc).
  - discriminate.
  - cbn. lia.
  - exact Hacc.
Defined.

(** ** [universal_converter.py] *)

Section UniversalRun.

Import Universal.

Context (P : platform) (E : environment).

Implicit Types (files : list string) (c : counters) (w : world).

Lemma print_found_run i files w :
  ∃ ls, print_found P i files w = (Ok tt, printed w ls).
Proof.
  revert i w. induction files as [|f files IH]; intros i w.
  { exists []. unfold printed. rewrite app_nil_r. by destruct w. }
  cbn [print_found]. unfold bind, print.
  destruct (IH (S i) (World (fs w) (written w)
                        (stdout w ++ ["  " +:+ pretty i +:+ ". " +:+
                                      path_name P f]))) as [ls ->].
  eexists (_ :: ls). unfold printed. cbn. by rewrite <-app_assoc.
Qed.

Lemma universal_print_failed_run names w :
  ∃ ls, print_failed names w = (Ok tt, printed w ls).
Proof.
  revert w. induction names as [|f names IH]; intros w.
  { exists []. unfold printed. rewrite app_nil_r. by destruct w. }
  cbn [print_failed]. unfold bind, print.
  destruct (IH (World (fs w) (written w) (stdout w ++ ["  - " +:+ f])))
    as [ls ->].
  eexists (_ :: ls). unfold printed. cbn. by rewrite <-app_assoc.
Qed.

(** One pass: the file is written and counted as converted, or nothing is
    written and it is counted as failed. *)
Lemma universal_convert_one_run ims_file output_file c w :
  ∃ c' w',
    convert_one P ims_file output_file c w = (Ok c', w') ∧
    ((added output_file plain_options w w' ∧
      successful c' = S (successful c) ∧ failed c' = failed c) ∨
     (kept w w' ∧
      successful c' = successful c ∧ failed c' = S (failed c))).
Proof.
  unfold convert_one, try_except, bind at 1.
  pose proof (plain_convert_outcome P ims_file output_file None None None w)
    as Hcall.
  unfold wp in Hcall.
  destruct (Ims2tif.convert_ims_to_tif P ims_file output_file None None None w)
    as [r w1]. cbn [fst snd] in Hcall.
  destruct Hcall as [(-> & Hadd & _)|[-> Hkept]].
  - unfold bind, print, ret. eexists _, _. split; [done|]. left.
    split; [|done]. destruct Hadd as (a & Hfs & Hwr). by exists a.
  - unfold bind, print, ret. eexists _, _. split; [done|]. right.
    split; [|done]. destruct Hkept as [Hfs Hwr]. by split.
Qed.

(** The loop: the encoder calls it adds are for outputs of listed files,
    in their order, one per file counted as converted. *)
Lemma convert_each_run output_directory n i files c w :
  ∃ c' w' ws,
    convert_each P output_directory n i files c w = (Ok c', w') ∧
    written w' = written w ++ ws ∧
    ws.*1 `sublist_of` (output_file_of P output_directory <$> files) ∧
    Forall (λ x, options x.2 = plain_options ∧
                 fs w' !! x.1 ≠ None) ws ∧
    dom (fs w) ⊆ dom (fs w') ∧
    successful c' = (successful c + length ws)%nat ∧
    (successful c' + failed c'
     = successful c + failed c + length files)%nat.
Proof.
  revert i c w. induction files as [|f files IH]; intros i c w.
  { exists c, w, []. cbn. unfold ret. rewrite app_nil_r.
    repeat split; try done; lia. }
  cbn [convert_each]. unfold bind at 1, print at 1. unfold bind at 1.
  match goal with
  | |- context [convert_one P f ?o c ?w0] =>
      destruct (universal_convert_one_run f o c w0)
        as (c1 & w1 & -> & Hone)
  end.
  destruct (IH (S i) c1 w1)
    as (c' & w' & ws & -> & Hwr & Hsub & Hall & Hdom & Hs & Hsum).
  destruct Hone as [((a & Hfs1 & Hwr1) & Hs1 & Hf1)|([Hfs1 Hwr1] & Hs1 & Hf1)];
    cbn [fs written stdout] in *.
  - exists c', w',
      ((output_file_of P output_directory f, Tif a plain_options) :: ws).
    split; [done|]. rewrite Hwr, Hwr1, <-app_assoc. cbn.
    assert (dom (fs w) ⊆ dom (fs w')) as Hdom'.
    { etrans; [|exact Hdom]. rewrite Hfs1, dom_insert.
      apply union_subseteq_r. }
    repeat split; try done; try lia.
    + by apply sublist_skip.
    + apply Forall_cons. split; [|done]. cbn. split; [done|].
      assert (output_file_of P output_directory f ∈ dom (fs w')) as Hin.
      { apply Hdom. rewrite Hfs1, dom_insert. apply elem_of_union_l.
        by apply elem_of_singleton. }
      apply elem_of_dom in Hin as [x Hx]. by rewrite Hx.
  - exists c', w', ws. split; [done|]. rewrite Hwr, Hwr1. cbn.
    repeat split; try done; try lia.
    + by apply sublist_cons.
    + by rewrite <-Hfs1.
Qed.

End UniversalRun.

(** X23: [convert_directory] lets the failure of [os.makedirs] escape,
    with nothing written; otherwise it returns [True] exactly when it
    wrote a file, every file it wrote is [<output>/<stem>.tif] of a listed
    input, in the order of the listing, written without options and on
    disk at the end, and the summary prints the number of files written
    as successful and the rest of the listing as failed. *)
Theorem convert_directory_reports_what_it_wrote (P : platform)
    (E : environment) (input_directory output_directory : string)
    (w : world) :
  let run :=
    Universal.convert_directory P E input_directory output_directory w in
  let ims_files := glob_ims E input_directory (fs w) in
  ((output_directory = "" ∨ makedirs_ok P output_directory = false) ∧
   (∃ e, run.1 = Raise e) ∧ kept w run.2) ∨
  (output_directory ≠ "" ∧ makedirs_ok P output_directory = true ∧
   ∃ ws,
     run.1 = Ok (bool_decide (ws ≠ [])) ∧
     written run.2 = written w ++ ws ∧
     ws.*1 `sublist_of`
       (Universal.output_file_of P output_directory <$> ims_files) ∧
     Forall (λ x, options x.2 = plain_options ∧ fs run.2 !! x.1 ≠ None) ws ∧
     (ims_files ≠ [] →
      "Successful conversions: " +:+ pretty (length ws) ∈ stdout run.2 ∧
      "Failed conversions: " +:+ pretty (length ims_files - length ws)%nat
        ∈ stdout run.2)).
Proof.
  intros run ims_files.
  change (wp (Universal.convert_directory P E input_directory
                output_directory)
            (λ r w',
               ((output_directory = "" ∨
                 makedirs_ok P output_directory = false) ∧
                (∃ e, r = Raise e) ∧ kept w w') ∨
               (output_directory ≠ "" ∧
                makedirs_ok P output_directory = true ∧
                ∃ ws,
                  r = Ok (bool_decide (ws ≠ [])) ∧
                  written w' = written w ++ ws ∧
                  ws.*1 `sublist_of`
                    (Universal.output_file_of P output_directory <$>
                     ims_files) ∧
                  Forall (λ x, options x.2 = plain_options ∧
                               fs w' !! x.1 ≠ None) ws ∧
                  (ims_files ≠ [] →
                   "Successful conversions: " +:+ pretty (length ws)
                     ∈ stdout w' ∧
                   "Failed conversions: " +:+
                   pretty (length ims_files - length ws)%nat ∈ stdout w'))) w).
  unfold Universal.convert_directory.
  do 3 (apply wp_bind, wp_print). apply wp_bind. unfold makedirs.
  destruct (decide (output_directory = "")) as [Hnone|Hdir].
  { rewrite (bool_decide_true _ Hnone). apply wp_raise. left.
    split; [by left|]. split; [by eexists|done]. }
  rewrite (bool_decide_false _ Hdir).
  destruct (makedirs_ok P output_directory) eqn:Hmk.
  2:{ apply wp_raise. left. split; [by right|]. split; [by eexists|done]. }
  apply wp_ret, wp_bind. unfold wp at 1. cbn [fst snd fs printed].
  fold ims_files.
  destruct (decide (ims_files = [])) as [Hnil|Hne].
  { rewrite (bool_decide_true _ Hnil). repeat wp_step. right.
    split; [done|]. split; [done|]. exists []. cbn.
    rewrite app_nil_r, Hnil. by repeat split. }
  rewrite (bool_decide_false _ Hne).
  apply wp_bind, wp_print, wp_bind.
  match goal with
  | |- wp (Universal.print_found P 1 ims_files) _ ?w0 =>
      destruct (print_found_run P 1 ims_files w0) as [ls Hfound]
  end.
  eapply wp_eq; [exact Hfound|]. apply wp_bind, wp_print, wp_bind.
  match goal with
  | |- wp (Universal.convert_each P output_directory ?n 1 ims_files ?c) _ ?w0 =>
      destruct (convert_each_run P output_directory n 1 ims_files c w0)
        as (c' & w' & ws & Hloop & Hwr & Hsub & Hall & _ & Hs & Hsum)
  end.
  eapply wp_eq; [exact Hloop|].
  cbn [fs written stdout printed Universal.successful Universal.failed] in *.
  assert (Universal.successful c' = length ws) as Hs' by lia.
  assert (Universal.failed c' = (length ims_files - length ws)%nat) as Hf'
    by lia.
  do 7 (apply wp_bind, wp_print). apply wp_bind.
  match goal with
  | |- wp _ _ ?w0 =>
      apply (wp_wand _ _ (λ r w2, r = Ok tt ∧ fs w2 = fs w0 ∧
                            written w2 = written w0 ∧
                            ∃ ls', stdout w2 = stdout w0 ++ ls'))
  end.
  { case_bool_decide.
    - apply wp_bind, wp_print.
      match goal with
      | |- wp (Universal.print_failed ?l) _ ?w0 =>
          destruct (universal_print_failed_run l w0) as [ls' Hfailed]
      end.
      eapply wp_eq; [exact Hfailed|]. cbn. repeat split; try done.
      eexists (_ :: ls'). by rewrite <-app_assoc.
    - apply wp_ret. repeat split; try done. exists []. by rewrite app_nil_r. }
  intros r w2 (-> & Hfs2 & Hwr2 & ls' & Hout2). apply wp_ret.
  cbn [fs written stdout printed] in *.
  right. split; [done|]. split; [done|]. exists ws.
  rewrite Hwr2, Hwr, Hout2, Hfs2, Hs', Hf'.
  repeat split; try done.
  - f_equal. apply bool_decide_ext. destruct ws; cbn; [|split; [done|lia]].
    split; [lia|done].
  - apply elem_of_app. left. apply elem_of_app. left. apply elem_of_app. left.
    apply elem_of_app. right. apply list_elem_of_here.
  - apply elem_of_app. left. apply elem_of_app. left.
    apply elem_of_app. right. apply list_elem_of_here.
Qed.

(** Two files, of which one is no container. *)
Lemma convert_directory_reports_what_it_wrote_witness :
  (Universal.convert_directory Samples.posix
     (BatchSamples.listing ["d/b.ims"; "d/c.ims"]) "d" "out"
     Samples.folder).1 = Ok true ∧
  (written (Universal.convert_directory Samples.posix
     (BatchSamples.listing ["d/b.ims"; "d/c.ims"]) "d" "out"
     Samples.folder).2).*1 = ["out/b.tif"] ∧
  "Failed conversions: 1" ∈
    stdout (Universal.convert_directory Samples.posix
     (BatchSamples.listing ["d/b.ims"; "d/c.ims"]) "d" "out"
     Samples.folder).2.
Proof.
  assert ((written (Universal.convert_directory Samples.posix
     (BatchSamples.listing ["d/b.ims"; "d/c.ims"]) "d" "out"
     Samples.folder).2).*1 = ["out/b.tif"]) as Hwritten
    by (vm_compute; reflexivity).
  destruct (convert_directory_reports_what_it_wrote Samples.posix
              (BatchSamples.listing ["d/b.ims"; "d/c.ims"]) "d" "out"
              Samples.folder)
    as [([Hnone|Hmk] & _)|(_ & _ & ws & Hrun & Hwr & _ & _ & Hlines)].
  - discriminate Hnone.
  - discriminate Hmk.
  - assert (length ws = 1%nat) as Hlen.
    { rewrite Hwr in Hwritten. cbn in Hwritten.
      apply (f_equal length) in Hwritten. rewrite length_fmap in Hwritten.
      exact Hwritten. }
    split; [|split; [exact Hwritten|]].
    + rewrite Hrun. by destruct ws.
    + destruct Hlines as [_ Hfailed]; [discriminate|].
      rewrite Hlen in Hfailed. exact Hfailed.
Defined.

(** ** The command line *)

Lemma wp_path_exists path Q w :
  Q (Ok (bool_decide (is_Some (fs w !! path)))) w → wp (path_exists path) Q w.
Proof. done. Qed.

(** X24: the exit status of the command line tells what happened:
    status 0 means the input was a container and exactly one encoder call
    was made, for the output path; status 1 means nothing was written,
    and is also the status for an input that does not exist. *)
Theorem main_exit_status (P : platform) (E : environment) (a : Cli.args)
    (w : world) :
  let run := Cli.main P E a w in
  (run.1 = Ok 0 ∧
   added (Cli.output a) plain_options w run.2 ∧
   (∃ root, fs w !! Cli.input a = Some (ImsFile root)) ∧
   last (stdout run.2) = Some "Conversion completed successfully!") ∨
  (run.1 = Ok 1 ∧
   kept w run.2 ∧
   (last (stdout run.2) = Some "Conversion failed!" ∨
    (fs w !! Cli.input a = None ∧
     last (stdout run.2)
     = Some ("Error: Input file does not exist: " +:+ Cli.input a)))).
Proof.
  intros run.
  change (wp (Cli.main P E a)
            (λ r w',
               (r = Ok 0 ∧
                added (Cli.output a) plain_options w w' ∧
                (∃ root, fs w !! Cli.input a = Some (ImsFile root)) ∧
                last (stdout w') = Some "Conversion completed successfully!") ∨
               (r = Ok 1 ∧ kept w w' ∧
                (last (stdout w') = Some "Conversion failed!" ∨
                 (fs w !! Cli.input a = None ∧
                  last (stdout w')
                  = Some ("Error: Input file does not exist: " +:+
                          Cli.input a))))) w).
  unfold Cli.main. apply wp_bind, wp_path_exists.
  case_bool_decide as Hthere; cbn [negb].
  2:{ repeat wp_step. right. split; [done|]. split; [done|]. right.
      cbn [stdout printed]. split; [|by rewrite last_snoc].
      destruct (fs w !! Cli.input a) eqn:Hlook; [|done].
      exfalso. apply Hthere. by eexists. }
  apply wp_bind.
  apply (wp_wand _ _ (λ r w', r = Ok tt ∧ kept w w')).
  { destruct (negb (Cli.is_ims_file E (Cli.input a))); by repeat wp_step. }
  intros r w1 [-> [Hfs Hwr]]. apply wp_bind.
  eapply wp_wand; [apply plain_convert_outcome|]. cbn beta.
  intros r w2 [(-> & (x & Hfs2 & Hwr2) & Hroot)|(-> & Hfs2 & Hwr2)].
  - repeat wp_step. left. split; [done|]. tidy.
    split; [exists x; by rewrite Hfs2, Hwr2, Hfs, Hwr|].
    split; [by rewrite <-Hfs|by rewrite last_snoc].
  - repeat wp_step. right. split; [done|]. tidy.
    split; [by rewrite Hfs2, Hwr2, Hfs, Hwr|]. left. by rewrite last_snoc.
Qed.
